(** * Task Master AI services: response processing and retry control

    A shallow embedding of [scripts/modules/ai-services.js] and of the
    free-standing subtask parser that its unit tests import.

    Conventions.
    - A JavaScript string is a Rocq [string]; one [ascii] stands for one code
      unit, and only code units below 256 are represented.
    - The providers (Gemini, Perplexity) and [JSON.parse] are not code of the
      repository: they are section variables, so every theorem holds for any
      behaviour of theirs.  [Json.parse] is a reference parser used to run
      the model on concrete texts.
    - Effects (logging, console output, timers, provider calls, the lazy
      Perplexity client) are threaded through an explicit [world].
    - The terminal spinner of [ui.js] and the generation settings
      (temperature, token limit) carry no control flow and are left out. *)

From Stdlib Require Import ZArith Lia List Bool Ascii String.
From Stdlib Require Import Numbers.DecimalString.
Import ListNotations.
Open Scope string_scope.
Open Scope Z_scope.
Set Warnings "-register-all".

(* ------------------------------------------------------------------ *)
(** ** JavaScript strings *)

Module JsString.

(** The double quote character, as a string. *)
Definition DQ : string := String (ascii_of_nat 34) EmptyString.

(** [String(n)] for an integral number. *)
Definition of_Z (z : Z) : string :=
  match z with
  | Z0 => "0"
  | Zpos p => NilEmpty.string_of_uint (Pos.to_uint p)
  | Zneg p => "-" ++ NilEmpty.string_of_uint (Pos.to_uint p)
  end.

Definition of_nat (n : nat) : string := of_Z (Z.of_nat n).

Definition lower_ascii (c : ascii) : ascii :=
  let n := nat_of_ascii c in
  if ((65 <=? n) && (n <=? 90))%nat then ascii_of_nat (n + 32) else c.

(** [s.toLowerCase()] *)
Fixpoint toLowerCase (s : string) : string :=
  match s with
  | EmptyString => EmptyString
  | String c r => String (lower_ascii c) (toLowerCase r)
  end.

(** [s.includes(sub)] *)
Fixpoint includes (sub s : string) : bool :=
  if prefix sub s then true
  else match s with
       | EmptyString => false
       | String _ r => includes sub r
       end.

(** [s.indexOf(c)] for a one-character needle; [None] is JavaScript's -1. *)
Fixpoint indexOf (c : ascii) (s : string) : option nat :=
  match s with
  | EmptyString => None
  | String d r =>
      if Ascii.eqb c d then Some O
      else match indexOf c r with
           | Some i => Some (S i)
           | None => None
           end
  end.

(** [s.lastIndexOf(c)] for a one-character needle. *)
Fixpoint lastIndexOf (c : ascii) (s : string) : option nat :=
  match s with
  | EmptyString => None
  | String d r =>
      match lastIndexOf c r with
      | Some i => Some (S i)
      | None => if Ascii.eqb c d then Some O else None
      end
  end.

(** [s.substring(a, b)]: the arguments are swapped when [a > b], and the
    end is clamped to the length of [s]. *)
Definition substring (a b : nat) (s : string) : string :=
  let lo := Nat.min a b in
  let hi := Nat.max a b in
  String.substring lo (hi - lo) s.

(** A template-literal hole [${x}] whose value may be [undefined]. *)
Definition tpl (o : option string) : string :=
  match o with
  | Some s => s
  | None => "undefined"
  end.

(** Truthiness of an optional string: [undefined] and [''] are falsy. *)
Definition truthy (o : option string) : bool :=
  match o with
  | Some EmptyString | None => false
  | Some _ => true
  end.

End JsString.

(* ------------------------------------------------------------------ *)
(** ** JSON values *)

Inductive json : Type :=
| JNull
| JBool (b : bool)
| JNum (z : Z)                       (* an integral number *)
| JFrac (literal : string)           (* a number that is not integral *)
| JStr (s : string)
| JArr (items : list json)
| JObj (fields : list (string * json)).

(** The result of [JSON.parse]: a value, or a [SyntaxError] whose message
    is the engine's. *)
Inductive parse_result : Type :=
| Parsed (v : json)
| SyntaxError (message : string).

Module Obj.

(** [o[k]] on the own properties of an object; [None] is [undefined]. *)
Fixpoint get (k : string) (fs : list (string * json)) : option json :=
  match fs with
  | [] => None
  | (k', v) :: r => if String.eqb k k' then Some v else get k r
  end.

(** The array index that a property name stands for, if it stands for one:
    a decimal numeral without a leading zero whose value is below
    [2^32 - 1]. *)
Definition digit (c : ascii) : option N :=
  let n := N_of_ascii c in
  if ((48 <=? n) && (n <=? 57))%N then Some (n - 48)%N else None.

Fixpoint numeral (acc : N) (s : string) : option N :=
  match s with
  | EmptyString => Some acc
  | String c r =>
      match digit c with
      | Some d => numeral (10 * acc + d)%N r
      | None => None
      end
  end.

Definition array_index (k : string) : option N :=
  match k with
  | EmptyString => None
  | String c r =>
      match digit c, r with
      | Some 0%N, EmptyString => Some 0%N
      | Some 0%N, _ => None
      | Some _, _ =>
          match numeral 0 k with
          | Some n => if (n <? 4294967295)%N then Some n else None
          | None => None
          end
      | None, _ => None
      end
  end.

(** [o[k] = v] for a key that [o] has: the key keeps its place. *)
Fixpoint replace (k : string) (v : json) (fs : list (string * json))
  : list (string * json) :=
  match fs with
  | [] => []
  | (k', v') :: r =>
      if String.eqb k k' then (k', v) :: r else (k', v') :: replace k v r
  end.

(** A new array-index key goes among the array-index keys, which come
    first and in ascending order. *)
Fixpoint insert_index (i : N) (k : string) (v : json)
    (fs : list (string * json)) : list (string * json) :=
  match fs with
  | [] => [(k, v)]
  | (k', v') :: r =>
      match array_index k' with
      | Some j =>
          if (j <? i)%N then (k', v') :: insert_index i k v r
          else (k, v) :: fs
      | None => (k, v) :: fs
      end
  end.

(** [o[k] = v], with the order in which JavaScript lists the own
    properties afterwards: an existing key keeps its place, a new
    array-index key goes to its place among the array-index keys, and any
    other new key goes last. *)
Definition set (k : string) (v : json) (fs : list (string * json))
  : list (string * json) :=
  match get k fs with
  | Some _ => replace k v fs
  | None =>
      match array_index k with
      | Some i => insert_index i k v fs
      | None => fs ++ [(k, v)]
      end
  end.

(** Copying properties one by one into [base], as the spread [...src] does
    inside an object literal. *)
Definition assign (base src : list (string * json)) : list (string * json) :=
  fold_left (fun acc kv => set (fst kv) (snd kv) acc) src base.

Fixpoint indexed (i : nat) (xs : list json) : list (string * json) :=
  match xs with
  | [] => []
  | x :: r => (JsString.of_nat i, x) :: indexed (S i) r
  end.

Fixpoint chars (s : string) : list json :=
  match s with
  | EmptyString => []
  | String c r => JStr (String c EmptyString) :: chars r
  end.

(** The own enumerable properties that a spread [...v] copies. *)
Definition own_props (v : json) : list (string * json) :=
  match v with
  | JObj fs => fs
  | JArr xs => indexed 0 xs
  | JStr s => indexed 0 (chars s)
  | _ => []
  end.

(** The members whose names are array indices, and the others. *)
Definition is_index (kv : string * json) : bool :=
  match array_index (fst kv) with
  | Some _ => true
  | None => false
  end.

Definition indices (fs : list (string * json)) : list (string * json) :=
  filter is_index fs.

Definition named (fs : list (string * json)) : list (string * json) :=
  filter (fun kv => negb (is_index kv)) fs.

(** The order in which JavaScript keeps the own properties of an object:
    array-index keys first, in ascending order from [lo] on, then the
    other keys. *)
Fixpoint ordered_from (lo : N) (fs : list (string * json)) : bool :=
  match fs with
  | [] => true
  | (k, _) :: r =>
      match array_index k with
      | Some i => (lo <=? i)%N && ordered_from (i + 1)%N r
      | None => forallb (fun kv => negb (is_index kv)) r
      end
  end.

Definition ordered (fs : list (string * json)) : bool := ordered_from 0%N fs.

End Obj.

(* ------------------------------------------------------------------ *)
(** ** A reference [JSON.parse]

    The functions of the program take the parser as a parameter; this one
    follows the JSON grammar (RFC 8259) on 8-bit text and serves to run them
    on concrete inputs.  A number written with a fraction or an exponent is
    kept as [JFrac] with its literal; the message of a failure is a
    stand-in for the engine's. *)

Module Json.

Definition quote : ascii := ascii_of_nat 34.
Definition backslash : ascii := ascii_of_nat 92.

Definition is_ws (c : ascii) : bool :=
  let n := nat_of_ascii c in
  ((n =? 32) || (n =? 9) || (n =? 10) || (n =? 13))%nat.

Fixpoint skip_ws (s : string) : string :=
  match s with
  | String c r => if is_ws c then skip_ws r else s
  | EmptyString => s
  end.

Definition is_digit (c : ascii) : bool :=
  let n := nat_of_ascii c in ((48 <=? n) && (n <=? 57))%nat.

Fixpoint span_digits (s : string) : string * string :=
  match s with
  | String c r =>
      if is_digit c
      then let (ds, rest) := span_digits r in (String c ds, rest)
      else (EmptyString, s)
  | EmptyString => (EmptyString, s)
  end.

Fixpoint digits_value (acc : Z) (ds : string) : Z :=
  match ds with
  | EmptyString => acc
  | String c r => digits_value (10 * acc + Z.of_nat (nat_of_ascii c - 48)) r
  end.

Definition hex_val (c : ascii) : option nat :=
  let n := nat_of_ascii c in
  if ((48 <=? n) && (n <=? 57))%nat then Some (n - 48)%nat
  else if ((65 <=? n) && (n <=? 70))%nat then Some (n - 55)%nat
  else if ((97 <=? n) && (n <=? 102))%nat then Some (n - 87)%nat
  else None.

Definition hex4 (a b c d : ascii) : option nat :=
  match hex_val a, hex_val b, hex_val c, hex_val d with
  | Some x, Some y, Some z, Some w => Some (((x * 16 + y) * 16 + z) * 16 + w)%nat
  | _, _, _, _ => None
  end.

Definition push (c : ascii) (r : option (string * string))
  : option (string * string) :=
  match r with
  | Some (str, rest) => Some (String c str, rest)
  | None => None
  end.

(** The characters of a string literal after its opening quote. *)
Fixpoint parse_string (s : string) : option (string * string) :=
  match s with
  | EmptyString => None
  | String c r =>
      if Ascii.eqb c quote then Some (EmptyString, r)
      else if Ascii.eqb c backslash then
        match r with
        | EmptyString => None
        | String e r1 =>
            if Ascii.eqb e quote then push quote (parse_string r1)
            else if Ascii.eqb e backslash then push backslash (parse_string r1)
            else if Ascii.eqb e "/" then push "/"%char (parse_string r1)
            else if Ascii.eqb e "b" then push (ascii_of_nat 8) (parse_string r1)
            else if Ascii.eqb e "f" then push (ascii_of_nat 12) (parse_string r1)
            else if Ascii.eqb e "n" then push (ascii_of_nat 10) (parse_string r1)
            else if Ascii.eqb e "r" then push (ascii_of_nat 13) (parse_string r1)
            else if Ascii.eqb e "t" then push (ascii_of_nat 9) (parse_string r1)
            else if Ascii.eqb e "u" then
              match r1 with
              | String h1 (String h2 (String h3 (String h4 r2))) =>
                  match hex4 h1 h2 h3 h4 with
                  | Some code =>
                      if (code <? 256)%nat
                      then push (ascii_of_nat code) (parse_string r2)
                      else None
                  | None => None
                  end
              | _ => None
              end
            else None
        end
      else if (nat_of_ascii c <? 32)%nat then None
      else push c (parse_string r)
  end.

Definition drop (n : nat) (s : string) : string :=
  String.substring n (String.length s - n) s.

Definition starts_with_zero (ds : string) : bool :=
  match ds with
  | String c (String _ _) => Ascii.eqb c "0"
  | _ => false
  end.

(** [-? int frac? exp?] *)
Definition parse_number (s : string) : option (json * string) :=
  let (neg, s0) :=
    match s with
    | String c r => if Ascii.eqb c "-" then (true, r) else (false, s)
    | EmptyString => (false, s)
    end in
  let (ds, s1) := span_digits s0 in
  match ds with
  | EmptyString => None
  | _ =>
      if starts_with_zero ds then None
      else
        let frac :=
          match s1 with
          | String c r =>
              if Ascii.eqb c "." then
                let (fs, s2) := span_digits r in
                match fs with
                | EmptyString => None
                | _ => Some (true, s2)
                end
              else Some (false, s1)
          | EmptyString => Some (false, s1)
          end in
        match frac with
        | None => None
        | Some (has_frac, s2) =>
            let expo :=
              match s2 with
              | String c r =>
                  if Ascii.eqb c "e" || Ascii.eqb c "E" then
                    let r' :=
                      match r with
                      | String g t =>
                          if Ascii.eqb g "+" || Ascii.eqb g "-" then t else r
                      | EmptyString => r
                      end in
                    let (es, s3) := span_digits r' in
                    match es with
                    | EmptyString => None
                    | _ => Some (true, s3)
                    end
                  else Some (false, s2)
              | EmptyString => Some (false, s2)
              end in
            match expo with
            | None => None
            | Some (has_exp, s3) =>
                if has_frac || has_exp
                then Some (JFrac (String.substring 0
                                    (String.length s - String.length s3) s), s3)
                else
                  let v := digits_value 0 ds in
                  Some (JNum (if neg then - v else v), s3)
            end
        end
  end.

Fixpoint parse_value (fuel : nat) (s : string) : option (json * string) :=
  match fuel with
  | O => None
  | S f =>
      match skip_ws s with
      | EmptyString => None
      | String c r as s' =>
          if Ascii.eqb c "{" then
            match skip_ws r with
            | String d t =>
                if Ascii.eqb d "}" then Some (JObj [], t)
                else parse_members f (String d t) []
            | EmptyString => None
            end
          else if Ascii.eqb c "[" then
            match skip_ws r with
            | String d t =>
                if Ascii.eqb d "]" then Some (JArr [], t)
                else parse_elements f (String d t) []
            | EmptyString => None
            end
          else if Ascii.eqb c quote then
            match parse_string r with
            | Some (str, rest) => Some (JStr str, rest)
            | None => None
            end
          else if prefix "true" s' then Some (JBool true, drop 4 s')
          else if prefix "false" s' then Some (JBool false, drop 5 s')
          else if prefix "null" s' then Some (JNull, drop 4 s')
          else parse_number s'
      end
  end

with parse_elements (fuel : nat) (s : string) (acc : list json)
  : option (json * string) :=
  match fuel with
  | O => None
  | S f =>
      match parse_value f s with
      | None => None
      | Some (v, s1) =>
          match skip_ws s1 with
          | String c r =>
              if Ascii.eqb c "," then parse_elements f r (acc ++ [v])
              else if Ascii.eqb c "]" then Some (JArr (acc ++ [v]), r)
              else None
          | EmptyString => None
          end
      end
  end

with parse_members (fuel : nat) (s : string) (acc : list (string * json))
  : option (json * string) :=
  match fuel with
  | O => None
  | S f =>
      match skip_ws s with
      | String q r =>
          if Ascii.eqb q quote then
            match parse_string r with
            | None => None
            | Some (key, s1) =>
                match skip_ws s1 with
                | String c s2 =>
                    if Ascii.eqb c ":" then
                      match parse_value f s2 with
                      | None => None
                      | Some (v, s3) =>
                          match skip_ws s3 with
                          | String d t =>
                              if Ascii.eqb d ","
                              then parse_members f t (Obj.set key v acc)
                              else if Ascii.eqb d "}"
                              then Some (JObj (Obj.set key v acc), t)
                              else None
                          | EmptyString => None
                          end
                      end
                    else None
                | EmptyString => None
                end
            end
          else None
      | EmptyString => None
      end
  end.

Definition parse (s : string) : parse_result :=
  match parse_value (2 * String.length s + 2) s with
  | Some (v, rest) =>
      match skip_ws rest with
      | EmptyString => Parsed v
      | _ => SyntaxError "Unexpected non-whitespace character after JSON"
      end
  | None => SyntaxError "Unexpected token in JSON"
  end.

End Json.

(* ------------------------------------------------------------------ *)
(** ** Regular expressions

    A backtracking matcher in continuation-passing style, the way the
    ECMAScript specification defines pattern matching: quantifiers are
    greedy, alternatives are tried in order, the first success wins.  It
    covers the constructs of the four patterns of [ai-services.js]. *)

Module Regex.

Inductive re : Type :=
| Eps                      (* the empty pattern *)
| Chr (c : ascii)          (* a literal character *)
| Dot                      (* [.] under the [s] flag: any character *)
| Ws                       (* [\s] *)
| Cat (a b : re)
| Opt (a : re)             (* [a?] *)
| Star (a : re)            (* [a*] *)
| Group (a : re).          (* a capturing group *)

Definition is_space (c : ascii) : bool :=
  let n := nat_of_ascii c in
  (((9 <=? n) && (n <=? 13)) || (n =? 32) || (n =? 160))%nat.

Section Matcher.
Context {A : Type}.

(** [run r x cap k] matches [r] at the front of [x]; [cap] is the text of
    the capturing group so far and [k] the rest of the match. *)
Fixpoint run (r : re) (x : string) (cap : option string)
    (k : string -> option string -> option A) : option A :=
  match r with
  | Eps => k x cap
  | Chr c =>
      match x with
      | String d t => if Ascii.eqb c d then k t cap else None
      | EmptyString => None
      end
  | Dot =>
      match x with
      | String _ t => k t cap
      | EmptyString => None
      end
  | Ws =>
      match x with
      | String d t => if is_space d then k t cap else None
      | EmptyString => None
      end
  | Cat a b => run a x cap (fun y c1 => run b y c1 k)
  | Opt a =>
      match run a x cap k with
      | Some v => Some v
      | None => k x cap
      end
  | Star a =>
      (fix loop (fuel : nat) (x : string) (cap : option string) : option A :=
         match fuel with
         | O => k x cap
         | S f =>
             match run a x cap
                     (fun y c1 =>
                        if (String.length y <? String.length x)%nat
                        then loop f y c1 else None) with
             | Some v => Some v
             | None => k x cap
             end
         end) (String.length x) x cap
  | Group a =>
      run a x cap
        (fun y _ =>
           k y (Some (String.substring 0 (String.length x - String.length y) x)))
  end.

End Matcher.

(** [s.match(r)] without the [g] flag: the leftmost match; the result is
    the text of group 1 ([None] inside [Some] when it took no part). *)
Fixpoint search (r : re) (s : string) : option (option string) :=
  match run r s None (fun _ cap => Some cap) with
  | Some cap => Some cap
  | None =>
      match s with
      | EmptyString => None
      | String _ t => search r t
      end
  end.

Fixpoint lit (s : string) : re :=
  match s with
  | EmptyString => Eps
  | String c EmptyString => Chr c
  | String c r => Cat (Chr c) (lit r)
  end.

Definition fence : re := lit "```".

(** [\[\s*\{.*\}\s*\]] *)
Definition array_body : re :=
  Cat (Chr "[") (Cat (Star Ws) (Cat (Chr "{") (Cat (Star Dot)
    (Cat (Chr "}") (Cat (Star Ws) (Chr "]")))))).

(** [\{.*\}] *)
Definition object_body : re :=
  Cat (Chr "{") (Cat (Star Dot) (Chr "}")).

(** [/```(?:json)?\s*(BODY)\s*```/s] *)
Definition fenced (body : re) : re :=
  Cat fence (Cat (Opt (lit "json")) (Cat (Star Ws)
    (Cat (Group body) (Cat (Star Ws) fence)))).

(** [/(BODY)/s] *)
Definition bare (body : re) : re := Group body.

(** [const m = response.match(FENCED) || response.match(BARE);
     const jsonText = m ? m[1] : response;] *)
Definition extract (body : re) (response : string) : string :=
  let jsonMatch :=
    match search (fenced body) response with
    | Some m => Some m
    | None => search (bare body) response
    end in
  match jsonMatch with
  | Some (Some g) => g
  | Some None => "undefined"
  | None => response
  end.

End Regex.

(* ------------------------------------------------------------------ *)
(** ** Errors *)

(** The [error] member of a structured provider error. *)
Record inner_error : Type := {
  ie_type : option string;
  ie_message : option string
}.

(** A thrown value, with the members the program reads: [error.type],
    [error.error] and [error.message]. *)
Record js_error : Type := {
  err_type : option string;
  err_error : option inner_error;
  err_message : option string
}.

(** [new Error(message)] *)
Definition Error (message : string) : js_error :=
  {| err_type := None; err_error := None; err_message := Some message |}.

Definition MSG_OVERLOADED : string :=
  "Gemini is currently experiencing high demand and is overloaded. Please wait a few minutes and try again.".
Definition MSG_RATE_LIMIT : string :=
  "You have exceeded the rate limit. Please wait a few minutes before making more requests.".
Definition MSG_INVALID_REQUEST : string :=
  "There was an issue with the request format. If this persists, please report it as a bug.".
Definition MSG_TIMEOUT : string :=
  "The request to Gemini timed out. Please try again.".
Definition MSG_NETWORK : string :=
  "There was a network error connecting to Gemini. Please check your internet connection and try again.".

(** [error.message?.toLowerCase().includes(term)] *)
Definition message_includes (term : string) (error : js_error) : bool :=
  match err_message error with
  | Some m => JsString.includes term (JsString.toLowerCase m)
  | None => false
  end.

(** [error.type === 'error' && error.error] *)
Definition structured (error : js_error) : option inner_error :=
  match err_type error, err_error error with
  | Some t, Some inner => if String.eqb t "error" then Some inner else None
  | _, _ => None
  end.

(** The [switch] on [error.error.type]; string comparison is exact. *)
Definition structured_message (inner : inner_error) : string :=
  let generic := "Gemini API error: " ++ JsString.tpl (ie_message inner) in
  match ie_type inner with
  | Some ty =>
      if String.eqb ty "OVERLOADED_ERROR" then MSG_OVERLOADED
      else if String.eqb ty "RATE_LIMIT_ERROR" then MSG_RATE_LIMIT
      else if String.eqb ty "INVALID_REQUEST_ERROR" then MSG_INVALID_REQUEST
      else generic
  | None => generic
  end.

Definition handleGeminiError (error : js_error) : string :=
  match structured error with
  | Some inner => structured_message inner
  | None =>
      if message_includes "timeout" error then MSG_TIMEOUT
      else if message_includes "network" error then MSG_NETWORK
      else "Error communicating with Gemini: " ++ JsString.tpl (err_message error)
  end.

(** The retry test of [callGemini]'s [catch] block. *)
Definition retryable (error : js_error) : bool :=
  message_includes "overloaded" error
  || message_includes "rate limit" error
  || message_includes "timeout" error
  || message_includes "network" error.

(* ------------------------------------------------------------------ *)
(** ** Requests, the world and the effect monad *)

(** [taskData.id] is a number or a string. *)
Inductive task_id : Type :=
| IdNum (z : Z)
| IdStr (s : string).

Definition show_id (i : task_id) : string :=
  match i with
  | IdNum z => JsString.of_Z z
  | IdStr s => s
  end.

Definition json_of_id (i : task_id) : json :=
  match i with
  | IdNum z => JNum z
  | IdStr s => JStr s
  end.

Record taskData : Type := {
  td_id : task_id;
  td_title : string;
  td_description : string;
  td_details : option string
}.

(** A prompt is one of the fixed templates of the program together with
    the values interpolated into it. *)
Inductive request : Type :=
| GenerateTasks (prdContent prdPath : string) (numTasks : Z)
| FixTasks (problemContent : string) (numTasks : Z) (prdPath : string)
| Research (model : string) (task : taskData) (prompt : string)
| Refine (task : taskData) (researchResults prompt : string)
| Expand (task : taskData) (prompt : string) (isSubtask : bool)
| Subtasks (task : taskData) (numSubtasks : Z) (prompt researchInsights : string)
| FixSubtasks (problematicJson : string) (parentTaskId : task_id) (numSubtasks : Z)
| Complexity (task : taskData) (researchInsights : string).

Inductive event : Type :=
| Log (level message : string)                    (* log(level, message) *)
| LogDetail (level message : string) (e : js_error)
| ConsoleError (message : string)                 (* console.error(...) *)
| Sleep (ms : Z)                                  (* an awaited setTimeout *)
| Call (r : request).                             (* a provider request *)

(** [new OpenAI({ apiKey, baseURL })] *)
Record OpenAI : Type := { apiKey : string; baseURL : string }.

Record world : Type := {
  PERPLEXITY_API_KEY : option string;   (* process.env.PERPLEXITY_API_KEY *)
  perplexity : option OpenAI;           (* the module-level lazy client *)
  trace : list event                    (* effects so far, oldest first *)
}.

Inductive outcome (A : Type) : Type :=
| Returns (a : A) (w : world)          (* a value, or a fulfilled promise *)
| Throws (e : js_error) (w : world)    (* an exception, or a rejection *)
| OutOfFuel.
Arguments Returns {A} a w.
Arguments Throws {A} e w.
Arguments OutOfFuel {A}.

Definition M (A : Type) : Type := world -> outcome A.

(** The world an outcome leaves behind, [w] being the world before. *)
Definition world_of {A} (o : outcome A) (w : world) : world :=
  match o with
  | Returns _ w' | Throws _ w' => w'
  | OutOfFuel => w
  end.

Definition ret {A} (a : A) : M A := fun w => Returns a w.
Definition throw {A} (e : js_error) : M A := fun w => Throws e w.
Definition out_of_fuel {A} : M A := fun _ => OutOfFuel.

Definition bind {A B} (m : M A) (k : A -> M B) : M B :=
  fun w =>
    match m w with
    | Returns a w1 => k a w1
    | Throws e w1 => Throws e w1
    | OutOfFuel => OutOfFuel
    end.

(** [try { m } catch (error) { handler error }] *)
Definition try_catch {A} (m : M A) (handler : js_error -> M A) : M A :=
  fun w =>
    match m w with
    | Throws e w1 => handler e w1
    | r => r
    end.

Declare Scope js_scope.
Delimit Scope js_scope with js.
Notation "x <- c ;; k" := (bind c (fun x => k))
  (at level 61, c at next level, right associativity) : js_scope.
Notation "c ;; k" := (bind c (fun _ => k))
  (at level 61, right associativity) : js_scope.
Open Scope js_scope.

(** The world once [events] have happened. *)
Definition after (w : world) (events : list event) : world :=
  {| PERPLEXITY_API_KEY := PERPLEXITY_API_KEY w;
     perplexity := perplexity w;
     trace := trace w ++ events |}.

Definition emit (e : event) : M unit := fun w => Returns tt (after w [e]).

Definition log (level message : string) : M unit := emit (Log level message).
Definition console_error (message : string) : M unit := emit (ConsoleError message).
Definition sleep (ms : Z) : M unit := emit (Sleep ms).
Definition when (b : bool) (m : M unit) : M unit := if b then m else ret tt.

Definition is_call (e : event) : bool :=
  match e with Call _ => true | _ => false end.

(** The provider requests of a trace, oldest first. *)
Definition calls (t : list event) : list request :=
  flat_map (fun e => match e with Call r => [r] | _ => [] end) t.

(** The delays waited in a trace, oldest first. *)
Definition sleeps (t : list event) : list Z :=
  flat_map (fun e => match e with Sleep ms => [ms] | _ => [] end) t.

(** The messages logged at a level, oldest first. *)
Definition logged (level : string) (t : list event) : list string :=
  flat_map (fun e => match e with
                     | Log l m => if String.eqb l level then [m] else []
                     | _ => []
                     end) t.

Inductive reply (T : Type) : Type :=
| Answer (content : T)
| Failure (error : js_error).
Arguments Answer {T} content.
Arguments Failure {T} error.

(** The providers.  Each answers the [n]-th request of the run ([n] counts
    the requests already made): the chunks of a streamed Gemini response,
    the text of a plain one, the content of a Perplexity completion. *)
Record backend : Type := {
  generateContentStream : nat -> request -> reply (list string);
  generateContent : nat -> request -> reply string;
  chat_completions_create : nat -> request -> reply string
}.

Definition perform {T} (answer : nat -> request -> reply T) (r : request) : M T :=
  fun w =>
    let n := List.length (calls (trace w)) in
    match emit (Call r) w with
    | Returns _ w1 =>
        match answer n r with
        | Answer content => Returns content w1
        | Failure error => Throws error w1
        end
    | Throws e w1 => Throws e w1
    | OutOfFuel => OutOfFuel
    end.

(** A synchronous function may hand back a plain value or a promise; the
    promise is settled by the time anything else happens, since callers
    only return it. *)
Inductive settled : Type :=
| Fulfilled (v : json)
| Rejected (e : js_error).

Inductive returned : Type :=
| Plain (v : json)
| Promise (p : settled).

(** Calling an [async] function without awaiting it. *)
Definition promise_of (m : M json) : M returned :=
  fun w =>
    match m w with
    | Returns v w1 => Returns (Promise (Fulfilled v)) w1
    | Throws e w1 => Returns (Promise (Rejected e)) w1
    | OutOfFuel => OutOfFuel
    end.

(** What an [async] function's own promise does with a returned value:
    a plain value fulfils it, a promise is adopted. *)
Definition adopt (r : returned) : M json :=
  match r with
  | Plain v => ret v
  | Promise (Fulfilled v) => ret v
  | Promise (Rejected e) => throw e
  end.

Record config : Type := {
  debug : bool;                         (* CONFIG.debug *)
  perplexityModel : option string       (* CONFIG.perplexityModel *)
}.

(* ------------------------------------------------------------------ *)
(** ** The services of [ai-services.js] *)

Section Services.

Variable JSON_parse : string -> parse_result.
(** The message of the [TypeError] raised by reading a property of [null]. *)
Variable TypeError_null : string.
Variable api : backend.
Variable CONFIG : config.

Import JsString.

Definition MISSING_KEY : string :=
  "PERPLEXITY_API_KEY environment variable is missing. Set it to use research-backed features.".

Definition getPerplexityClient : M OpenAI :=
  fun w =>
    match perplexity w with
    | Some client => Returns client w
    | None =>
        match PERPLEXITY_API_KEY w with
        | Some (String c k) =>
            let client := {| apiKey := String c k;
                             baseURL := "https://api.perplexity.ai" |} in
            Returns client {| PERPLEXITY_API_KEY := PERPLEXITY_API_KEY w;
                              perplexity := Some client;
                              trace := trace w |}
        | Some EmptyString | None => Throws (Error MISSING_KEY) w
        end
    end.

Definition cleanupJsonResponse (content : string) : string :=
  match indexOf "{" content, lastIndexOf "}" content with
  | Some jsonStart, Some jsonEnd => substring jsonStart (jsonEnd + 1) content
  | _, _ => content
  end.

(** [result.tasks], for a parsed [result] that is not [null], when it is an
    array. *)
Definition tasks_array (result : json) : option (list json) :=
  match result with
  | JObj fs =>
      match Obj.get "tasks" fs with
      | Some (JArr tasks) => Some tasks
      | _ => None
      end
  | _ => None
  end.

(** A value that [processGeminiResponse] hands back carries a [tasks]
    array, whether as a plain value or through a fulfilled promise. *)
Definition carries_tasks (r : returned) : Prop :=
  match r with
  | Plain v | Promise (Fulfilled v) => tasks_array v <> None
  | Promise (Rejected _) => True
  end.

(** The body of the inner [try] of [processGeminiResponse]. *)
Definition validateTasks (jsonContent : string) (numTasks : Z) : M returned :=
  match JSON_parse jsonContent with
  | SyntaxError m => throw (Error m)
  | Parsed JNull => throw (Error TypeError_null)
  | Parsed result =>
      match tasks_array result with
      | None => throw (Error "Response does not contain a tasks array")
      | Some tasks =>
          when (negb (Z.of_nat (List.length tasks) =? numTasks))
               (log "warn" ("Expected " ++ of_Z numTasks ++ " tasks, but got "
                            ++ of_nat (List.length tasks)));;
          ret (Plain result)
      end
  end.

Fixpoint processGeminiResponse_fuel (fuel : nat) (textContent : string)
    (numTasks : Z) (retryCount : nat) (prompt : request) (prdPath : string)
  : M returned :=
  match fuel with
  | O => out_of_fuel
  | S f =>
      try_catch
        (match indexOf "{" textContent, lastIndexOf "}" textContent with
         | Some jsonStart, Some jsonEnd =>
             let jsonContent := substring jsonStart (jsonEnd + 1) textContent in
             try_catch
               (validateTasks jsonContent numTasks)
               (fun jsonError =>
                  log "error" ("Error parsing JSON: " ++ tpl (err_message jsonError));;
                  if (retryCount <? 3)%nat then
                    log "info" ("Retrying JSON parsing with cleanup attempt "
                                ++ of_nat (retryCount + 1) ++ "/3");;
                    let cleanedContent := cleanupJsonResponse textContent in
                    processGeminiResponse_fuel f cleanedContent numTasks
                      (retryCount + 1) prompt prdPath
                  else
                    throw (Error "Failed to parse JSON response after multiple attempts"))
         | _, _ => throw (Error "No valid JSON found in the response")
         end)
        (fun error =>
           log "error" ("Error processing response: " ++ tpl (err_message error));;
           if (retryCount <? 2)%nat then
             log "info" ("Retrying with Gemini to fix the response, attempt "
                         ++ of_nat (retryCount + 1) ++ "/2");;
             promise_of (retryWithGemini_fuel f textContent numTasks
                           (retryCount + 1) prompt prdPath)
           else
             throw (Error ("Failed to process response: " ++ tpl (err_message error))))
  end

with retryWithGemini_fuel (fuel : nat) (problemContent : string)
    (numTasks : Z) (retryCount : nat) (originalPrompt : request)
    (prdPath : string) : M json :=
  match fuel with
  | O => out_of_fuel
  | S f =>
      r <- try_catch
             (log "info" "Asking Gemini to fix the JSON response...";;
              fixedContent <- perform (generateContent api)
                                (FixTasks problemContent numTasks prdPath);;
              processGeminiResponse_fuel f fixedContent numTasks retryCount
                originalPrompt prdPath)
             (fun error =>
                let userMessage := handleGeminiError error in
                log "error" userMessage;;
                console_error userMessage;;
                throw (Error ("Failed to fix JSON response: "
                              ++ tpl (err_message error))));;
      adopt r
  end.

(** Every call chain from retry count [rc] is at most [2 * (3 - rc)] calls
    deep, so this fuel is never used up ([processGeminiResponse_total]). *)
Definition processGeminiResponse (textContent : string) (numTasks : Z)
    (retryCount : nat) (prompt : request) (prdPath : string) : M returned :=
  processGeminiResponse_fuel (S (2 * (3 - retryCount))) textContent numTasks
    retryCount prompt prdPath.

Definition retryWithGemini (problemContent : string) (numTasks : Z)
    (retryCount : nat) (originalPrompt : request) (prdPath : string) : M json :=
  retryWithGemini_fuel (S (S (2 * (3 - retryCount)))) problemContent numTasks
    retryCount originalPrompt prdPath.

Definition handleStreamingRequest (prompt : request) (prdPath : string)
    (numTasks : Z) : M json :=
  r <- try_catch
         (chunks <- perform (generateContentStream api) prompt;;
          let responseText := String.concat "" chunks in
          log "info" "Completed streaming response from Gemini API!";;
          processGeminiResponse responseText numTasks 0 prompt prdPath)
         (fun error =>
            let userMessage := handleGeminiError error in
            log "error" userMessage;;
            console_error userMessage;;
            when (debug CONFIG) (emit (LogDetail "debug" "Full error:" error));;
            throw (Error userMessage));;
  adopt r.

Fixpoint callGemini_fuel (fuel : nat) (prdContent prdPath : string)
    (numTasks : Z) (retryCount : nat) : M json :=
  match fuel with
  | O => out_of_fuel
  | S f =>
      try_catch
        (log "info" "Calling Gemini...";;
         handleStreamingRequest (GenerateTasks prdContent prdPath numTasks)
           prdPath numTasks)
        (fun error =>
           let userMessage := handleGeminiError error in
           log "error" userMessage;;
           if (retryCount <? 2)%nat && retryable error then
             let waitTime := (Z.of_nat retryCount + 1) * 5000 in
             log "info" ("Waiting " ++ of_Z (waitTime / 1000)
                         ++ " seconds before retry "
                         ++ of_nat (retryCount + 1) ++ "/2...");;
             sleep waitTime;;
             callGemini_fuel f prdContent prdPath numTasks (retryCount + 1)
           else
             console_error userMessage;;
             when (debug CONFIG) (emit (LogDetail "debug" "Full error:" error));;
             throw (Error userMessage))
  end.

Definition callGemini (prdContent prdPath : string) (numTasks : Z)
    (retryCount : nat) : M json :=
  callGemini_fuel (S (2 - retryCount)) prdContent prdPath numTasks retryCount.

Definition refineTaskWithGemini (task : taskData) (researchResults prompt : string)
  : M string :=
  log "info" ("Refining task details for " ++ DQ ++ td_title task ++ DQ
              ++ " with Gemini based on research...");;
  try_catch
    (perform (generateContent api) (Refine task researchResults prompt))
    (fun error =>
       log "error" ("Error refining task: " ++ tpl (err_message error));;
       throw error).

Definition expandTaskWithGemini (task : taskData) (prompt : string)
    (isSubtask : bool) : M string :=
  log "info" ("Expanding task " ++ DQ ++ td_title task ++ DQ ++ " with Gemini...");;
  try_catch
    (perform (generateContent api) (Expand task prompt isSubtask))
    (fun error =>
       let userMessage := handleGeminiError error in
       log "error" userMessage;;
       throw (Error userMessage)).

Fixpoint expandTaskWithResearch_fuel (fuel : nat) (task : taskData)
    (prompt : string) (retryCount : nat) : M string :=
  match fuel with
  | O => out_of_fuel
  | S f =>
      try_catch
        (_ <- getPerplexityClient;;
         let model := if truthy (perplexityModel CONFIG)
                      then tpl (perplexityModel CONFIG)
                      else "sonar-medium-online" in
         log "info" ("Researching task " ++ DQ ++ td_title task ++ DQ
                     ++ " with Perplexity AI (model: " ++ model ++ ")...");;
         researchResults <- perform (chat_completions_create api)
                              (Research model task prompt);;
         refineTaskWithGemini task researchResults prompt)
        (fun error =>
           log "error" ("Error in research: " ++ tpl (err_message error));;
           if (retryCount <? 2)%nat then
             let waitTime := (Z.of_nat retryCount + 1) * 5000 in
             log "info" ("Waiting " ++ of_Z (waitTime / 1000)
                         ++ " seconds before retry "
                         ++ of_nat (retryCount + 1) ++ "/2...");;
             sleep waitTime;;
             expandTaskWithResearch_fuel f task prompt (retryCount + 1)
           else
             log "info" "Falling back to expansion without research...";;
             expandTaskWithGemini task prompt false)
  end.

Definition expandTaskWithResearch (task : taskData) (prompt : string)
    (retryCount : nat) : M string :=
  expandTaskWithResearch_fuel (S (2 - retryCount)) task prompt retryCount.

(** The optional research step shared by [createSubtasksWithGemini] and
    [analyzeTaskComplexity]; [purpose] completes the first log line. *)
Definition gatherResearch (useResearch : bool) (purpose : string)
    (task : taskData) (prompt : string) : M string :=
  if useResearch then
    try_catch
      (log "info" ("Gathering research to inform " ++ purpose ++ "...");;
       researchInsights <- expandTaskWithResearch task prompt 0;;
       log "info" "Research completed successfully";;
       ret researchInsights)
      (fun error =>
         log "warn" ("Research failed, continuing without it: "
                     ++ tpl (err_message error));;
         ret EmptyString)
  else ret EmptyString.

(** [{ ...subtask, id: `${parentTaskId}.${index + 1}` }] *)
Definition withSubtaskId (parentTaskId : task_id) (index : nat) (subtask : json)
  : json :=
  JObj (Obj.set "id"
          (JStr (show_id parentTaskId ++ "." ++ of_nat (index + 1)))
          (Obj.assign [] (Obj.own_props subtask))).

(** [subtasksJson.map((subtask, index) => ...)] *)
Fixpoint renumber_from (parentTaskId : task_id) (index : nat) (xs : list json)
  : list json :=
  match xs with
  | [] => []
  | subtask :: r =>
      withSubtaskId parentTaskId index subtask
        :: renumber_from parentTaskId (S index) r
  end.

Definition renumber (parentTaskId : task_id) (xs : list json) : list json :=
  renumber_from parentTaskId 0 xs.

Definition fixSubtasksJson (problematicJson : string) (parentTaskId : task_id)
    (numSubtasks : Z) : M json :=
  log "info" "Attempting to fix malformed subtasks JSON...";;
  try_catch
    (response <- perform (generateContent api)
                   (FixSubtasks problematicJson parentTaskId numSubtasks);;
     try_catch
       (let jsonText := Regex.extract Regex.array_body response in
        match JSON_parse jsonText with
        | SyntaxError m => throw (Error m)
        | Parsed (JArr subtasksJson) =>
            ret (JArr (renumber parentTaskId subtasksJson))
        | Parsed _ => throw (Error "Fixed response is not an array")
        end)
       (fun error =>
          log "error" ("Error parsing fixed subtasks JSON: "
                       ++ tpl (err_message error));;
          throw (Error "Failed to fix subtasks JSON after retry")))
    (fun error =>
       let userMessage := handleGeminiError error in
       log "error" userMessage;;
       throw (Error userMessage)).

Definition createSubtasksWithGemini (task : taskData) (numSubtasks : Z)
    (prompt : string) (useResearch : bool) : M json :=
  log "info" ("Creating " ++ of_Z numSubtasks ++ " subtasks for task "
              ++ show_id (td_id task) ++ ": " ++ DQ ++ td_title task ++ DQ ++ "...");;
  researchInsights <- gatherResearch useResearch "subtask creation" task prompt;;
  try_catch
    (response <- perform (generateContent api)
                   (Subtasks task numSubtasks prompt researchInsights);;
     try_catch
       (let jsonText := Regex.extract Regex.array_body response in
        match JSON_parse jsonText with
        | SyntaxError m => throw (Error m)
        | Parsed (JArr subtasksJson) =>
            when (negb (Z.of_nat (List.length subtasksJson) =? numSubtasks))
                 (log "warn" ("Expected " ++ of_Z numSubtasks
                              ++ " subtasks, but got "
                              ++ of_nat (List.length subtasksJson)));;
            ret (JArr (renumber (td_id task) subtasksJson))
        | Parsed _ => throw (Error "Response is not an array")
        end)
       (fun error =>
          log "error" ("Error parsing subtasks JSON: " ++ tpl (err_message error));;
          fixSubtasksJson response (td_id task) numSubtasks))
    (fun error =>
       let userMessage := handleGeminiError error in
       log "error" userMessage;;
       throw (Error userMessage)).

Definition analyzeTaskComplexity (task : taskData) (useResearch : bool) : M json :=
  log "info" ("Analyzing complexity of task " ++ show_id (td_id task) ++ ": "
              ++ DQ ++ td_title task ++ DQ ++ "...");;
  researchInsights <- gatherResearch useResearch "complexity analysis" task "";;
  try_catch
    (response <- perform (generateContent api) (Complexity task researchInsights);;
     try_catch
       (let jsonText := Regex.extract Regex.object_body response in
        match JSON_parse jsonText with
        | SyntaxError m => throw (Error m)
        | Parsed complexityData =>
            (* { taskId: taskData.id, ...complexityData } *)
            ret (JObj (Obj.assign [("taskId", json_of_id (td_id task))]
                         (Obj.own_props complexityData)))
        end)
       (fun error =>
          log "error" ("Error parsing complexity JSON: " ++ tpl (err_message error));;
          throw (Error "Failed to parse complexity analysis")))
    (fun error =>
       let userMessage := handleGeminiError error in
       log "error" userMessage;;
       throw (Error userMessage)).

End Services.

(** A text that the inner [try] of the subtask functions does not accept:
    it does not parse, or it parses to something that is not an array. *)
Definition not_an_array (JSON_parse : string -> parse_result)
    (jsonText : string) : Prop :=
  (exists m, JSON_parse jsonText = SyntaxError m)
  \/ (exists v, JSON_parse jsonText = Parsed v /\ forall xs, v <> JArr xs).

(* ------------------------------------------------------------------ *)
(** ** The free-standing subtask parser

    [parseSubtasksFromText] is imported by [tests/unit/ai-services.test.js]
    from [scripts/modules/ai-services.js], but the module kept in the
    repository does not define it. *)

Section SubtaskParser.

Variable JSON_parse : string -> parse_result.

Import JsString.

(** Modelled from the spec: the bracket scan of the missing
    [parseSubtasksFromText] (section 4.4, step 1, by the rule of 4.3): the
    widest substring from the first opening bracket to the last closing
    bracket; there is none when no such pair exists. *)
Definition locateArray (text : string) : option string :=
  match indexOf "[" text, lastIndexOf "]" text with
  | Some first, Some last =>
      if (first <=? last)%nat then Some (substring first (last + 1) text)
      else None
  | _, _ => None
  end.

(** Modelled from the spec: the [i]-th placeholder subtask of the missing
    [parseSubtasksFromText] (section 4.4, step 2). *)
Definition placeholder (startId : Z) (parentTaskId : json) (i : nat) : json :=
  JObj [ ("id", JNum (startId + Z.of_nat i));
         ("title", JStr ("Subtask " ++ of_nat (i + 1)));
         ("description", JStr "Auto-generated fallback subtask");
         ("status", JStr "pending");
         ("dependencies", JArr []);
         ("parentTaskId", parentTaskId) ].

(** Modelled from the spec: the placeholders that the missing
    [parseSubtasksFromText] returns when it falls back (section 4.4, step
    2): exactly [numSubtasks] of them, numbered from 0. *)
Definition fallbackSubtasks (startId : Z) (numSubtasks : nat)
    (parentTaskId : json) : list json :=
  map (placeholder startId parentTaskId) (seq 0 numSubtasks).

(** Modelled from the spec: the numeric strings that the missing
    [parseSubtasksFromText] coerces (section 4.4, step 3, "1" becomes 1):
    an optional minus sign followed by decimal digits. *)
Definition integer_of_string (s : string) : option Z :=
  let (neg, ds) :=
    match s with
    | String c r => if Ascii.eqb c "-" then (true, r) else (false, s)
    | EmptyString => (false, s)
    end in
  match Json.span_digits ds with
  | (String _ _, EmptyString) =>
      let v := Json.digits_value 0 ds in Some (if neg then - v else v)
  | _ => None
  end.

(** Modelled from the spec: the coercion of one dependency entry by the
    missing [parseSubtasksFromText] (section 4.4, step 3): a number or a
    numeric string becomes a plain integer; [None] marks an entry that
    cannot be coerced to a finite integer. *)
Definition coerceDependency (dep : json) : option Z :=
  match dep with
  | JNum z => Some z
  | JStr s => integer_of_string s
  | _ => None
  end.

(** Modelled from the spec: the coercion of a dependency list by the
    missing [parseSubtasksFromText]; entries that cannot be coerced are
    dropped. *)
Definition coerceDependencies (deps : list json) : list json :=
  flat_map (fun dep => match coerceDependency dep with
                       | Some z => [JNum z]
                       | None => []
                       end) deps.

(** Modelled from the spec: what the missing [parseSubtasksFromText] does
    to the element at position [index] after a successful parse (section
    4.4, step 3): the id is re-numbered, the dependencies are coerced, the
    parent is attached.  The unit tests of the repository also expect the
    status of a parsed element to be pending. *)
Definition normalizeSubtask (startId : Z) (parentTaskId : json) (index : nat)
    (subtask : list (string * json)) : json :=
  let s1 := Obj.set "id" (JNum (startId + Z.of_nat index)) subtask in
  let s2 := match Obj.get "dependencies" s1 with
            | Some (JArr deps) =>
                Obj.set "dependencies" (JArr (coerceDependencies deps)) s1
            | _ => s1
            end in
  let s3 := Obj.set "status" (JStr "pending") s2 in
  JObj (Obj.set "parentTaskId" parentTaskId s3).

(** Modelled from the spec: the missing [parseSubtasksFromText] treats the
    elements in order, the first at position [index]. *)
Fixpoint normalize_from (startId : Z) (parentTaskId : json) (index : nat)
    (subtasks : list (list (string * json))) : list json :=
  match subtasks with
  | [] => []
  | subtask :: r =>
      normalizeSubtask startId parentTaskId index subtask
        :: normalize_from startId parentTaskId (S index) r
  end.

(** Modelled from the spec: the shape that the missing
    [parseSubtasksFromText] expects of a parsed array (task-like objects,
    sections 7 and 8): the members of every element, when all the elements
    are objects. *)
Fixpoint all_objects (items : list json) : option (list (list (string * json))) :=
  match items with
  | [] => Some []
  | JObj fs :: r =>
      match all_objects r with
      | Some rs => Some (fs :: rs)
      | None => None
      end
  | _ :: _ => None
  end.

(** Modelled from the spec: the missing [parseSubtasksFromText] (section
    4.4, free-standing subtask generation).  It never fails: without a
    located array, on a parse failure and on a shape mismatch (section 7)
    it returns the placeholders. *)
Definition parseSubtasksFromText (text : string) (startId : Z)
    (numSubtasks : nat) (parentTaskId : json) : list json :=
  match locateArray text with
  | None => fallbackSubtasks startId numSubtasks parentTaskId
  | Some jsonText =>
      match JSON_parse jsonText with
      | Parsed (JArr items) =>
          match all_objects items with
          | Some subtasks => normalize_from startId parentTaskId 0 subtasks
          | None => fallbackSubtasks startId numSubtasks parentTaskId
          end
      | _ => fallbackSubtasks startId numSubtasks parentTaskId
      end
  end.

End SubtaskParser.


(* ------------------------------------------------------------------ *)
(** ** Sample inputs *)

Module Sample.

Import JsString.

(** A quoted JSON string literal. *)
Definition q (s : string) : string := DQ ++ s ++ DQ.

Definition rate_limit_lowercase : js_error :=
  {| err_type := Some "error";
     err_error := Some {| ie_type := Some "rate_limit_error";
                          ie_message := Some "Rate limit exceeded" |};
     err_message := None |}.

(** [[{"id":10,"title":"A","dependencies":[]},
      {"id":20,"title":"B","dependencies":["1"]}]] *)
Definition two_subtasks : string :=
  "[{" ++ q "id" ++ ":10," ++ q "title" ++ ":" ++ q "A" ++ ","
       ++ q "dependencies" ++ ":[]},"
  ++ "{" ++ q "id" ++ ":20," ++ q "title" ++ ":" ++ q "B" ++ ","
       ++ q "dependencies" ++ ":[" ++ q "1" ++ "]}]".

Definition subtask_A : list (string * json) :=
  [("id", JNum 10); ("title", JStr "A"); ("dependencies", JArr [])].

Definition subtask_B : list (string * json) :=
  [("id", JNum 20); ("title", JStr "B"); ("dependencies", JArr [JStr "1"])].

(** A process without a Perplexity key and with nothing done yet. *)
Definition fresh : world :=
  {| PERPLEXITY_API_KEY := None; perplexity := None; trace := [] |}.

Definition quiet : config := {| debug := false; perplexityModel := None |}.

(** The message V8 gives when a property of [null] is read. *)
Definition null_message : string :=
  "Cannot read properties of null (reading 'tasks')".

Definition task : taskData :=
  {| td_id := IdNum 7; td_title := "Login"; td_description := "Add a login form";
     td_details := None |}.

(** Every request is answered with the same text. *)
Definition always (text : string) : backend :=
  {| generateContentStream := fun _ _ => Answer [text];
     generateContent := fun _ _ => Answer text;
     chat_completions_create := fun _ _ => Answer text |}.

(** The streamed request fails with a transport timeout. *)
Definition timeout_api : backend :=
  {| generateContentStream := fun _ _ => Failure (Error "Request timeout");
     generateContent := fun _ _ => Answer "";
     chat_completions_create := fun _ _ => Answer "" |}.

(** The streamed request fails with a rate-limit message. *)
Definition rate_limit_api : backend :=
  {| generateContentStream := fun _ _ => Failure (Error "Rate limit hit");
     generateContent := fun _ _ => Answer "";
     chat_completions_create := fun _ _ => Answer "" |}.

(** [{"tasks":[]}]: a tasks array and no metadata. *)
Definition tasks_only : string := "{" ++ q "tasks" ++ ":[]}".

(** [[{"id":"x"}]]: an array of one subtask. *)
Definition one_subtask : string := "[{" ++ q "id" ++ ":" ++ q "x" ++ "}]".

(** The first answer is not JSON; the repair answers with one subtask. *)
Definition one_subtask_on_repair : backend :=
  {| generateContentStream := fun _ _ => Answer [];
     generateContent := fun n _ =>
       match n with
       | O => Answer "Sorry, here is some prose."
       | _ => Answer ("[{" ++ q "id" ++ ":" ++ q "x" ++ "}]")
       end;
     chat_completions_create := fun _ _ => Answer "" |}.

(** The stream answers with prose, and the repair request times out. *)
Definition repair_times_out : backend :=
  {| generateContentStream := fun _ _ => Answer ["Sorry, no tasks today."];
     generateContent := fun _ _ => Failure (Error "Request timeout");
     chat_completions_create := fun _ _ => Answer "" |}.

(** [{"taskId":99,"complexityScore":5}] *)
Definition complexity_with_taskId : string :=
  "{" ++ q "taskId" ++ ":99," ++ q "complexityScore" ++ ":5}".

End Sample.

(* ------------------------------------------------------------------ *)
(** ** Objects *)

Lemma get_app (k : string) (a b : list (string * json)) :
  Obj.get k (a ++ b)
  = match Obj.get k a with
    | Some v => Some v
    | None => Obj.get k b
    end.
Proof.
  induction a as [|[k' v] r IH]; simpl; [reflexivity|].
  destruct (String.eqb k k'); auto.
Qed.

Lemma get_app_none (k : string) (a b : list (string * json)) :
  Obj.get k (a ++ b) = None <-> Obj.get k a = None /\ Obj.get k b = None.
Proof.
  rewrite get_app. destruct (Obj.get k a); split; intros H;
    try discriminate; try tauto; destruct H; discriminate.
Qed.

Lemma get_replace_same (k : string) (v : json) (fs : list (string * json)) :
  forall old, Obj.get k fs = Some old ->
    Obj.get k (Obj.replace k v fs) = Some v.
Proof.
  induction fs as [|[k' v'] r IH]; cbn [Obj.get Obj.replace]; intros old H;
    [discriminate|].
  destruct (String.eqb k k') eqn:E; cbn [Obj.get]; rewrite E;
    [reflexivity | eauto].
Qed.

Lemma get_replace_other (k k' : string) (v : json)
    (fs : list (string * json)) :
  String.eqb k k' = false ->
  Obj.get k (Obj.replace k' v fs) = Obj.get k fs.
Proof.
  intros Hk. induction fs as [|[k0 v0] r IH]; cbn [Obj.get Obj.replace];
    [reflexivity|].
  destruct (String.eqb k' k0) eqn:E; cbn [Obj.get].
  - apply String.eqb_eq in E. subst k0. now rewrite Hk.
  - destruct (String.eqb k k0); auto.
Qed.

Lemma replace_names (k : string) (v : json) (fs : list (string * json)) :
  map fst (Obj.replace k v fs) = map fst fs.
Proof.
  induction fs as [|[k' v'] r IH]; cbn [Obj.replace map fst]; [reflexivity|].
  destruct (String.eqb k k'); cbn [map fst]; congruence.
Qed.

Lemma get_insert_index_same (i : N) (k : string) (v : json)
    (fs : list (string * json)) :
  Obj.get k fs = None -> Obj.get k (Obj.insert_index i k v fs) = Some v.
Proof.
  induction fs as [|[k' v'] r IH]; cbn [Obj.get Obj.insert_index]; intros H.
  - now rewrite String.eqb_refl.
  - destruct (String.eqb k k') eqn:E; [discriminate|].
    destruct (Obj.array_index k') as [j|]; [destruct (j <? i)%N|];
      cbn [Obj.get]; rewrite ?E, ?String.eqb_refl; auto.
Qed.

Lemma get_insert_index_other (i : N) (k k' : string) (v : json)
    (fs : list (string * json)) :
  String.eqb k k' = false ->
  Obj.get k (Obj.insert_index i k' v fs) = Obj.get k fs.
Proof.
  intros Hk. induction fs as [|[k0 v0] r IH]; cbn [Obj.get Obj.insert_index].
  - now rewrite Hk.
  - destruct (Obj.array_index k0) as [j|]; [destruct (j <? i)%N|];
      cbn [Obj.get]; rewrite ?Hk, ?IH; reflexivity.
Qed.

Lemma get_set_same (k : string) (v : json) (fs : list (string * json)) :
  Obj.get k (Obj.set k v fs) = Some v.
Proof.
  unfold Obj.set. destruct (Obj.get k fs) as [old|] eqn:G.
  - now apply (get_replace_same k v fs old).
  - destruct (Obj.array_index k); [now apply get_insert_index_same|].
    rewrite get_app, G. cbn [Obj.get]. now rewrite String.eqb_refl.
Qed.

Lemma get_set_other (k k' : string) (v : json) (fs : list (string * json)) :
  String.eqb k k' = false ->
  Obj.get k (Obj.set k' v fs) = Obj.get k fs.
Proof.
  intros Hk. unfold Obj.set.
  destruct (Obj.get k' fs); [now apply get_replace_other|].
  destruct (Obj.array_index k'); [now apply get_insert_index_other|].
  rewrite get_app. destruct (Obj.get k fs); [reflexivity|].
  cbn [Obj.get]. now rewrite Hk.
Qed.

(** A name that is no array index and that the object does not have goes
    last. *)
Lemma set_named_fresh (k : string) (v : json) (base : list (string * json)) :
  Obj.get k base = None -> Obj.array_index k = None ->
  Obj.set k v base = (base ++ [(k, v)])%list.
Proof. intros G A. unfold Obj.set. now rewrite G, A. Qed.

Lemma set_index_fresh (i : N) (k : string) (v : json)
    (base : list (string * json)) :
  Obj.get k base = None -> Obj.array_index k = Some i ->
  Obj.set k v base = Obj.insert_index i k v base.
Proof. intros G A. unfold Obj.set. now rewrite G, A. Qed.

(** A name that the object has keeps its place. *)
Lemma set_present_names (k : string) (v old : json)
    (fs : list (string * json)) :
  Obj.get k fs = Some old -> map fst (Obj.set k v fs) = map fst fs.
Proof. intros G. unfold Obj.set. rewrite G. apply replace_names. Qed.

(** A new array index above those that the object has goes after them and
    before the other names. *)
Lemma insert_index_between (i : N) (k : string) (v : json)
    (I S : list (string * json)) :
  (forall kv, In kv I ->
     exists j, Obj.array_index (fst kv) = Some j /\ (j < i)%N) ->
  (forall kv, In kv S -> Obj.array_index (fst kv) = None) ->
  Obj.insert_index i k v (I ++ S) = (I ++ (k, v) :: S)%list.
Proof.
  induction I as [|[k' v'] r IH]; intros HI HS; cbn [app Obj.insert_index].
  - destruct S as [|[k' v'] s]; [reflexivity|]. cbn [Obj.insert_index].
    pose proof (HS (k', v') (or_introl eq_refl)) as H. cbn [fst] in H.
    now rewrite H.
  - destruct (HI (k', v') (or_introl eq_refl)) as (j & Hj & Hlt).
    cbn [fst] in Hj. rewrite Hj. apply N.ltb_lt in Hlt. rewrite Hlt.
    f_equal. apply IH; [|assumption]. intros kv Hin. apply HI. now right.
Qed.

Lemma named_only_ordered (lo : N) (fs : list (string * json)) :
  forallb (fun kv => negb (Obj.is_index kv)) fs = true ->
  Obj.ordered_from lo fs = true.
Proof.
  destruct fs as [|[k v] r]; [reflexivity|].
  cbn [forallb Obj.ordered_from]. intros H. apply andb_prop in H as [H1 H2].
  unfold Obj.is_index in H1. cbn [fst] in H1.
  destruct (Obj.array_index k); [discriminate | exact H2].
Qed.

Lemma named_only_split (fs : list (string * json)) :
  forallb (fun kv => negb (Obj.is_index kv)) fs = true ->
  Obj.indices fs = [] /\ Obj.named fs = fs.
Proof.
  unfold Obj.indices, Obj.named.
  induction fs as [|kv r IH]; cbn [forallb filter]; [auto|].
  intros H. apply andb_prop in H as [H1 H2]. destruct (IH H2) as [E1 E2].
  rewrite H1. apply negb_true_iff in H1. rewrite H1, E1, E2. auto.
Qed.

(** An object in key order is its array-index members followed by the
    others. *)
Lemma ordered_split (fs : list (string * json)) :
  forall lo, Obj.ordered_from lo fs = true ->
    (Obj.indices fs ++ Obj.named fs)%list = fs.
Proof.
  induction fs as [|[k v] r IH]; intros lo H; [reflexivity|].
  cbn [Obj.ordered_from] in H. unfold Obj.indices, Obj.named in *.
  cbn [filter].
  destruct (Obj.array_index k) as [i|] eqn:A.
  - assert (E : Obj.is_index (k, v) = true)
      by (unfold Obj.is_index; cbn [fst]; now rewrite A).
    rewrite E. apply andb_prop in H as [_ H]. cbn [negb app]. f_equal.
    now apply (IH (i + 1)%N).
  - assert (E : Obj.is_index (k, v) = false)
      by (unfold Obj.is_index; cbn [fst]; now rewrite A).
    rewrite E. destruct (named_only_split r H) as [E1 E2].
    unfold Obj.indices, Obj.named in *. cbn [negb]. now rewrite E1, E2.
Qed.

(** The spread of an object in key order, with distinct names that [base]
    does not have, into a [base] in key order: the array-index members go
    after the array-index members of [base], the others go last. *)
Lemma assign_in_key_order (src : list (string * json)) :
  forall lo I S,
    Obj.ordered_from lo src = true ->
    NoDup (map fst src) ->
    (forall kv, In kv src -> Obj.get (fst kv) (I ++ S) = None) ->
    (forall kv, In kv I ->
       exists j, Obj.array_index (fst kv) = Some j /\ (j < lo)%N) ->
    (forall kv, In kv S -> Obj.array_index (fst kv) = None) ->
    Obj.assign (I ++ S) src
    = (I ++ Obj.indices src ++ S ++ Obj.named src)%list.
Proof.
  unfold Obj.assign.
  induction src as [|[k v] r IH]; intros lo I S HO ND HF HI HS.
  - cbn. now rewrite app_nil_r.
  - cbn [fold_left fst snd].
    pose proof (HF (k, v) (or_introl eq_refl)) as G. cbn [fst] in G.
    inversion ND as [|? ? Hk ND']; subst.
    assert (Fresh : forall I' S',
              (forall k', Obj.get k' (I' ++ S') = None <->
                          Obj.get k' (I ++ S) = None
                          /\ String.eqb k' k = false) ->
              forall kv, In kv r -> Obj.get (fst kv) (I' ++ S') = None).
    { intros I' S' He kv Hin. apply He. split; [apply HF; now right|].
      apply String.eqb_neq. intros Hfk. apply Hk. rewrite <- Hfk.
      now apply in_map. }
    cbn [Obj.ordered_from] in HO.
    unfold Obj.indices, Obj.named. cbn [filter].
    assert (E : Obj.is_index (k, v)
                = match Obj.array_index k with Some _ => true | None => false end)
      by reflexivity.
    rewrite E. clear E.
    destruct (Obj.array_index k) as [i|] eqn:A; cbn [negb].
    + apply andb_prop in HO as [Hlo HO]. apply N.leb_le in Hlo.
      rewrite (set_index_fresh i k v _ G A).
      rewrite (insert_index_between i k v I S); [|intros kv Hin|assumption].
      2:{ destruct (HI kv Hin) as (j & Hj & Hlt). exists j. split; [exact Hj|lia]. }
      replace (I ++ (k, v) :: S)%list with ((I ++ [(k, v)]) ++ S)%list
        by (now rewrite <- app_assoc).
      rewrite (IH (i + 1)%N (I ++ [(k, v)])%list S); auto.
      * now rewrite <- app_assoc.
      * apply Fresh. intros k'. rewrite <- app_assoc. cbn [app].
        rewrite !get_app_none. cbn [Obj.get].
        destruct (String.eqb k' k); intuition discriminate.
      * intros kv Hin. apply in_app_or in Hin as [Hin|[<-|[]]].
        -- destruct (HI kv Hin) as (j & Hj & Hlt). exists j. split; [exact Hj|lia].
        -- exists i. split; [exact A|lia].
    + rewrite (set_named_fresh k v _ G A).
      replace ((I ++ S) ++ [(k, v)])%list with (I ++ (S ++ [(k, v)]))%list
        by (now rewrite app_assoc).
      rewrite (IH lo I (S ++ [(k, v)])%list); auto.
      * now rewrite <- app_assoc.
      * now apply named_only_ordered.
      * apply Fresh. intros k'. rewrite !get_app_none. cbn [Obj.get].
        destruct (String.eqb k' k); intuition discriminate.
      * intros kv Hin. apply in_app_or in Hin as [Hin|[<-|[]]]; auto.
Qed.

(** Spreading an object in key order into an empty literal copies it. *)
Lemma assign_copies (fs : list (string * json)) :
  Obj.ordered fs = true -> NoDup (map fst fs) -> Obj.assign [] fs = fs.
Proof.
  intros HO ND.
  change (Obj.assign [] fs) with (Obj.assign ([] ++ []) fs).
  rewrite (assign_in_key_order fs 0%N [] [] HO ND); cbn [app In];
    try tauto; try reflexivity.
  now apply (ordered_split fs 0%N).
Qed.

(* ------------------------------------------------------------------ *)
(** ** Error messages *)

Lemma structured_message_cases (inner : inner_error) :
  (ie_type inner = Some "OVERLOADED_ERROR"
   /\ structured_message inner = MSG_OVERLOADED)
  \/ (ie_type inner = Some "RATE_LIMIT_ERROR"
      /\ structured_message inner = MSG_RATE_LIMIT)
  \/ (ie_type inner = Some "INVALID_REQUEST_ERROR"
      /\ structured_message inner = MSG_INVALID_REQUEST)
  \/ (ie_type inner <> Some "OVERLOADED_ERROR"
      /\ ie_type inner <> Some "RATE_LIMIT_ERROR"
      /\ ie_type inner <> Some "INVALID_REQUEST_ERROR"
      /\ structured_message inner
         = "Gemini API error: " ++ JsString.tpl (ie_message inner)).
Proof.
  unfold structured_message. destruct (ie_type inner) as [ty|].
  - destruct (String.eqb_spec ty "OVERLOADED_ERROR") as [->|H1]; [now left|].
    destruct (String.eqb_spec ty "RATE_LIMIT_ERROR") as [->|H2];
      [now right; left|].
    destruct (String.eqb_spec ty "INVALID_REQUEST_ERROR") as [->|H3];
      [now right; right; left|].
    right; right; right. repeat split; congruence.
  - right; right; right. repeat split; congruence.
Qed.

Lemma generic_message_is_not_specific (m : string) :
  "Gemini API error: " ++ m <> MSG_OVERLOADED
  /\ "Gemini API error: " ++ m <> MSG_RATE_LIMIT
  /\ "Gemini API error: " ++ m <> MSG_INVALID_REQUEST.
Proof. repeat split; intro H; simpl in H; discriminate H. Qed.

(** C10. For a structured provider error ([error.type === 'error'] with an
    [error.error] member), [handleGeminiError] answers with the overload,
    rate-limit or invalid-request message exactly when [error.error.type]
    is the upper-case string ['OVERLOADED_ERROR'], ['RATE_LIMIT_ERROR'] or
    ['INVALID_REQUEST_ERROR']; for every other type, lower-case variants
    included, it answers ["Gemini API error: <message>"]. *)
Theorem handleGeminiError_type_is_case_sensitive
    (error : js_error) (inner : inner_error) :
  err_type error = Some "error" ->
  err_error error = Some inner ->
  (handleGeminiError error = MSG_OVERLOADED
     <-> ie_type inner = Some "OVERLOADED_ERROR")
  /\ (handleGeminiError error = MSG_RATE_LIMIT
        <-> ie_type inner = Some "RATE_LIMIT_ERROR")
  /\ (handleGeminiError error = MSG_INVALID_REQUEST
        <-> ie_type inner = Some "INVALID_REQUEST_ERROR")
  /\ (ie_type inner <> Some "OVERLOADED_ERROR" ->
      ie_type inner <> Some "RATE_LIMIT_ERROR" ->
      ie_type inner <> Some "INVALID_REQUEST_ERROR" ->
      handleGeminiError error
      = "Gemini API error: " ++ JsString.tpl (ie_message inner)).
Proof.
  intros Ht He.
  assert (Hs : handleGeminiError error = structured_message inner).
  { unfold handleGeminiError, structured. now rewrite Ht, He. }
  rewrite Hs.
  destruct (generic_message_is_not_specific (JsString.tpl (ie_message inner)))
    as (G1 & G2 & G3).
  destruct (structured_message_cases inner)
    as [[T M]|[[T M]|[[T M]|(N1 & N2 & N3 & M)]]]; rewrite M, ?T;
    repeat split; intros; try reflexivity; try congruence;
    try (exfalso; discriminate).
Qed.

Lemma handleGeminiError_type_is_case_sensitive_witness :
  (err_type Sample.rate_limit_lowercase = Some "error"
   /\ exists inner, err_error Sample.rate_limit_lowercase = Some inner
                    /\ ie_type inner = Some "rate_limit_error")
  /\ handleGeminiError Sample.rate_limit_lowercase
     = "Gemini API error: Rate limit exceeded".
Proof.
  split.
  - split; [reflexivity | eexists; split; reflexivity].
  - apply (handleGeminiError_type_is_case_sensitive Sample.rate_limit_lowercase
             {| ie_type := Some "rate_limit_error";
                ie_message := Some "Rate limit exceeded" |});
      (reflexivity || discriminate).
Defined.

(* ------------------------------------------------------------------ *)
(** ** The free-standing subtask parser *)

Section SubtaskParserFacts.

Variable JSON_parse : string -> parse_result.

Lemma fallbackSubtasks_length (startId : Z) (n : nat) (parent : json) :
  List.length (fallbackSubtasks startId n parent) = n.
Proof. unfold fallbackSubtasks. now rewrite length_map, length_seq. Qed.

Lemma fallbackSubtasks_nth (startId : Z) (n : nat) (parent : json) (i : nat) :
  (i < n)%nat ->
  nth i (fallbackSubtasks startId n parent) JNull = placeholder startId parent i.
Proof.
  intros Hi. unfold fallbackSubtasks.
  rewrite (nth_indep _ JNull (placeholder startId parent 0))
    by (now rewrite length_map, length_seq).
  rewrite map_nth. f_equal. now rewrite seq_nth.
Qed.

Lemma locateArray_empty : locateArray "" = None.
Proof. reflexivity. Qed.

(** C1. When the text is empty, holds no JSON array, or holds one that does
    not parse, [parseSubtasksFromText] returns exactly [numSubtasks]
    placeholders, the [i]-th (from 0) being [{id: startId+i, title:
    "Subtask i+1", description: "Auto-generated fallback subtask", status:
    "pending", dependencies: [], parentTaskId}]; the parser is a total
    function, so it returns and never throws. *)
Theorem parseSubtasksFromText_fallback
    (text : string) (startId : Z) (numSubtasks : nat) (parentTaskId : json) :
  text = ""
  \/ locateArray text = None
  \/ (exists jsonText message,
        locateArray text = Some jsonText
        /\ JSON_parse jsonText = SyntaxError message) ->
  let result := parseSubtasksFromText JSON_parse text startId numSubtasks
                  parentTaskId in
  List.length result = numSubtasks
  /\ forall i, (i < numSubtasks)%nat ->
       nth i result JNull
       = JObj [ ("id", JNum (startId + Z.of_nat i));
                ("title", JStr ("Subtask " ++ JsString.of_nat (i + 1)));
                ("description", JStr "Auto-generated fallback subtask");
                ("status", JStr "pending");
                ("dependencies", JArr []);
                ("parentTaskId", parentTaskId) ].
Proof.
  intros H result.
  assert (E : result = fallbackSubtasks startId numSubtasks parentTaskId).
  { subst result. unfold parseSubtasksFromText.
    destruct H as [->|[->|(jsonText & message & -> & ->)]]; reflexivity. }
  rewrite E. split.
  - apply fallbackSubtasks_length.
  - intros i Hi. now rewrite fallbackSubtasks_nth.
Qed.

Lemma normalize_from_length (startId : Z) (parent : json)
    (subtasks : list (list (string * json))) :
  forall index,
    List.length (normalize_from startId parent index subtasks)
    = List.length subtasks.
Proof. induction subtasks; intros; simpl; auto. Qed.

Lemma normalize_from_nth (startId : Z) (parent : json)
    (subtasks : list (list (string * json))) :
  forall index i, (i < List.length subtasks)%nat ->
    nth i (normalize_from startId parent index subtasks) JNull
    = normalizeSubtask startId parent (index + i) (nth i subtasks []).
Proof.
  induction subtasks as [|s r IH]; intros index i Hi; simpl in *.
  - lia.
  - destruct i as [|i].
    + now rewrite Nat.add_0_r.
    + rewrite IH by lia. f_equal. lia.
Qed.

Lemma all_objects_length (items : list json) :
  forall subtasks, all_objects items = Some subtasks ->
    List.length subtasks = List.length items.
Proof.
  induction items as [|x r IH]; simpl; intros subtasks H.
  - now inversion H.
  - destruct x; try discriminate.
    destruct (all_objects r); try discriminate.
    inversion H; subst. simpl. now rewrite (IH l).
Qed.

Lemma normalizeSubtask_fields (startId : Z) (parent : json) (index : nat)
    (subtask : list (string * json)) :
  exists fs,
    normalizeSubtask startId parent index subtask = JObj fs
    /\ Obj.get "id" fs = Some (JNum (startId + Z.of_nat index))
    /\ Obj.get "parentTaskId" fs = Some parent
    /\ Obj.get "status" fs = Some (JStr "pending")
    /\ Obj.get "dependencies" fs
       = match Obj.get "dependencies" subtask with
         | Some (JArr deps) => Some (JArr (coerceDependencies deps))
         | other => other
         end.
Proof.
  unfold normalizeSubtask. eexists. split; [reflexivity|].
  rewrite get_set_same.
  rewrite !(get_set_other "id" "parentTaskId"), !(get_set_other "id" "status")
    by reflexivity.
  rewrite !(get_set_other "status" "parentTaskId") by reflexivity.
  rewrite get_set_same.
  rewrite !(get_set_other "dependencies" "parentTaskId"),
          !(get_set_other "dependencies" "status") by reflexivity.
  rewrite (get_set_other "dependencies" "id") by reflexivity.
  destruct (Obj.get "dependencies" subtask) as [[| | | | |deps|]|] eqn:D;
    rewrite ?get_set_same, ?(get_set_other "id" "dependencies"),
            ?(get_set_other "dependencies" "id"), ?get_set_same, ?D
      by reflexivity;
    repeat split; reflexivity.
Qed.

(** C7. When the array located in the text parses to [N] objects, the
    result of [parseSubtasksFromText] with [(startId, N, parentId)] has
    length [N], its [i]-th element (from 0) has id [startId + i] whatever
    id the model wrote, and every element has [parentTaskId = parentId]. *)
Theorem parseSubtasksFromText_renumbers
    (text jsonText : string) (items : list json)
    (subtasks : list (list (string * json))) (startId : Z) (parentId : json) :
  locateArray text = Some jsonText ->
  JSON_parse jsonText = Parsed (JArr items) ->
  all_objects items = Some subtasks ->
  let N := List.length items in
  let result := parseSubtasksFromText JSON_parse text startId N parentId in
  List.length result = N
  /\ forall i, (i < N)%nat ->
       exists fs,
         nth i result JNull = JObj fs
         /\ Obj.get "id" fs = Some (JNum (startId + Z.of_nat i))
         /\ Obj.get "parentTaskId" fs = Some parentId.
Proof.
  intros HL HP HO N result.
  assert (E : result = normalize_from startId parentId 0 subtasks).
  { subst result. unfold parseSubtasksFromText. now rewrite HL, HP, HO. }
  pose proof (all_objects_length _ _ HO) as Hlen.
  rewrite E. split.
  - now rewrite normalize_from_length.
  - intros i Hi. rewrite normalize_from_nth by (fold N in Hlen; lia).
    destruct (normalizeSubtask_fields startId parentId (0 + i) (nth i subtasks []))
      as (fs & Hfs & Hid & Hp & _).
    exists fs. now repeat split.
Qed.

End SubtaskParserFacts.

Lemma parseSubtasksFromText_fallback_witness :
  ("" = "" \/ locateArray "" = None
   \/ (exists jsonText message,
         locateArray "" = Some jsonText
         /\ Json.parse jsonText = SyntaxError message))
  /\ List.length (parseSubtasksFromText Json.parse "" 1 2 (JNum 5)) = 2%nat.
Proof.
  split.
  - left; reflexivity.
  - apply (parseSubtasksFromText_fallback Json.parse "" 1 2 (JNum 5)).
    left; reflexivity.
Defined.

Lemma parseSubtasksFromText_renumbers_witness :
  (locateArray Sample.two_subtasks = Some Sample.two_subtasks
   /\ Json.parse Sample.two_subtasks
      = Parsed (JArr [JObj Sample.subtask_A; JObj Sample.subtask_B])
   /\ all_objects [JObj Sample.subtask_A; JObj Sample.subtask_B]
      = Some [Sample.subtask_A; Sample.subtask_B])
  /\ List.length
       (parseSubtasksFromText Json.parse Sample.two_subtasks 1 2 (JNum 5))
     = 2%nat.
Proof.
  split.
  - repeat split; vm_compute; reflexivity.
  - apply (parseSubtasksFromText_renumbers Json.parse Sample.two_subtasks
             Sample.two_subtasks [JObj Sample.subtask_A; JObj Sample.subtask_B]
             [Sample.subtask_A; Sample.subtask_B] 1 (JNum 5));
      vm_compute; reflexivity.
Defined.

(** The example of the specification (section 8): ids 10 and 20 become 1
    and 2, and the dependency ["1"] becomes 1. *)
Example parseSubtasksFromText_spec_example :
  parseSubtasksFromText Json.parse Sample.two_subtasks 1 2 (JNum 5)
  = [ JObj [("id", JNum 1); ("title", JStr "A"); ("dependencies", JArr []);
            ("status", JStr "pending"); ("parentTaskId", JNum 5)];
      JObj [("id", JNum 2); ("title", JStr "B");
            ("dependencies", JArr [JNum 1]);
            ("status", JStr "pending"); ("parentTaskId", JNum 5)] ].
Proof. vm_compute. reflexivity. Qed.

(* ------------------------------------------------------------------ *)
(** ** Dependency coercion *)







Example coerceDependencies_mixed :
  coerceDependencies [JStr "1"; JNum 2; JStr "x"; JFrac "1.5"; JNull; JStr "-7"]
  = [JNum 1; JNum 2; JNum (-7)].
Proof. reflexivity. Qed.

(* ------------------------------------------------------------------ *)
(** ** Worlds and traces *)

Lemma after_after (w : world) (a b : list event) :
  after (after w a) b = after w (a ++ b).
Proof. unfold after; simpl. now rewrite app_assoc. Qed.

Lemma after_nil (w : world) : after w [] = w.
Proof. destruct w; unfold after; simpl. now rewrite app_nil_r. Qed.

Lemma calls_app (a b : list event) : calls (a ++ b) = (calls a ++ calls b)%list.
Proof. unfold calls. apply flat_map_app. Qed.

Lemma sleeps_app (a b : list event) : sleeps (a ++ b) = (sleeps a ++ sleeps b)%list.
Proof. unfold sleeps. apply flat_map_app. Qed.

Lemma logged_app (level : string) (a b : list event) :
  logged level (a ++ b) = (logged level a ++ logged level b)%list.
Proof. unfold logged. apply flat_map_app. Qed.

Ltac run :=
  repeat (unfold bind, try_catch, log, console_error, sleep, emit, ret, throw,
            when, promise_of, adopt, out_of_fuel, perform in *;
          cbn beta iota zeta in *).

(* ------------------------------------------------------------------ *)
(** ** PRD to tasks: [processGeminiResponse] and [callGemini] *)

Section PrdPipeline.

Import JsString.
Variable JSON_parse : string -> parse_result.
Variable TypeError_null : string.
Variable api : backend.
Variable CONFIG : config.

Local Abbreviation P_fuel := (processGeminiResponse_fuel JSON_parse TypeError_null api).
Local Abbreviation R_fuel := (retryWithGemini_fuel JSON_parse TypeError_null api).
Local Abbreviation validate := (validateTasks JSON_parse TypeError_null).

(** The two functions call each other; these are their bodies. *)
Lemma processGeminiResponse_fuel_S f textContent numTasks retryCount prompt prdPath :
  P_fuel (S f) textContent numTasks retryCount prompt prdPath
  = try_catch
      (match indexOf "{" textContent, lastIndexOf "}" textContent with
       | Some jsonStart, Some jsonEnd =>
           try_catch
             (validate (substring jsonStart (jsonEnd + 1) textContent) numTasks)
             (fun jsonError =>
                log "error" ("Error parsing JSON: " ++ tpl (err_message jsonError));;
                if (retryCount <? 3)%nat then
                  log "info" ("Retrying JSON parsing with cleanup attempt "
                              ++ of_nat (retryCount + 1) ++ "/3");;
                  P_fuel f (cleanupJsonResponse textContent) numTasks
                    (retryCount + 1)%nat prompt prdPath
                else
                  throw (Error "Failed to parse JSON response after multiple attempts"))
       | _, _ => throw (Error "No valid JSON found in the response")
       end)
      (fun error =>
         log "error" ("Error processing response: " ++ tpl (err_message error));;
         if (retryCount <? 2)%nat then
           log "info" ("Retrying with Gemini to fix the response, attempt "
                       ++ of_nat (retryCount + 1) ++ "/2");;
           promise_of (R_fuel f textContent numTasks (retryCount + 1)%nat
                         prompt prdPath)
         else
           throw (Error ("Failed to process response: " ++ tpl (err_message error)))).
Proof. reflexivity. Qed.

Lemma retryWithGemini_fuel_S f problemContent numTasks retryCount prompt prdPath :
  R_fuel (S f) problemContent numTasks retryCount prompt prdPath
  = (r <- try_catch
            (log "info" "Asking Gemini to fix the JSON response...";;
             fixedContent <- perform (generateContent api)
                               (FixTasks problemContent numTasks prdPath);;
             P_fuel f fixedContent numTasks retryCount prompt prdPath)
            (fun error =>
               let userMessage := handleGeminiError error in
               log "error" userMessage;;
               console_error userMessage;;
               throw (Error ("Failed to fix JSON response: "
                             ++ tpl (err_message error))));;
     adopt r).
Proof. reflexivity. Qed.

Lemma validateTasks_accepts jsonContent numTasks result tasks w :
  JSON_parse jsonContent = Parsed result ->
  tasks_array result = Some tasks ->
  validate jsonContent numTasks w
  = Returns (Plain result)
      (after w (if Z.of_nat (List.length tasks) =? numTasks then []
                else [Log "warn" ("Expected " ++ of_Z numTasks ++ " tasks, but got "
                            ++ of_nat (List.length tasks))])).
Proof.
  intros HP HT. unfold validateTasks. rewrite HP.
  destruct result; try discriminate HT. rewrite HT.
  destruct (Z.of_nat (List.length tasks) =? numTasks)%Z; run.
  - now rewrite after_nil.
  - reflexivity.
Qed.

Lemma validateTasks_rejects jsonContent numTasks result w :
  JSON_parse jsonContent = Parsed result ->
  tasks_array result = None ->
  exists e, validate jsonContent numTasks w = Throws e w.
Proof.
  intros HP HT. unfold validateTasks. rewrite HP.
  destruct result; try (rewrite HT); eexists; reflexivity.
Qed.

Lemma validateTasks_returns jsonContent numTasks w r w' :
  validate jsonContent numTasks w = Returns r w' ->
  exists v tasks, r = Plain v /\ JSON_parse jsonContent = Parsed v
                  /\ tasks_array v = Some tasks.
Proof.
  unfold validateTasks. destruct (JSON_parse jsonContent) as [v|m]; [|discriminate].
  destruct (tasks_array v) as [tasks|] eqn:T.
  - destruct v; try discriminate T. 
    destruct (negb _); run; intros H; inversion H; subst; eauto.
  - destruct v; discriminate.
Qed.

Lemma validateTasks_total jsonContent numTasks w :
  validate jsonContent numTasks w <> OutOfFuel.
Proof.
  unfold validateTasks. destruct (JSON_parse jsonContent) as [v|m]; [|discriminate].
  destruct v; try discriminate;
  destruct (tasks_array _); try discriminate; destruct (negb _); run; discriminate.
Qed.

Lemma P_R_carry_tasks (fuel : nat) :
  (forall text n rc prompt path w r w',
     P_fuel fuel text n rc prompt path w = Returns r w' -> carries_tasks r)
  /\ (forall text n rc prompt path w v w',
        R_fuel fuel text n rc prompt path w = Returns v w' ->
        tasks_array v <> None).
Proof.
  induction fuel as [|f [IHP IHR]]; [split; discriminate|].
  assert (Outer : forall text n rc prompt path (error : js_error) w r w',
    (log "error" ("Error processing response: " ++ tpl (err_message error));;
     if (rc <? 2)%nat then
       log "info" ("Retrying with Gemini to fix the response, attempt "
                   ++ of_nat (rc + 1) ++ "/2");;
       promise_of (R_fuel f text n (rc + 1)%nat prompt path)
     else
       throw (Error ("Failed to process response: " ++ tpl (err_message error))))
      w = Returns r w' -> carries_tasks r).
  { intros text n rc prompt path error w r w'. run.
    destruct (rc <? 2)%nat; run; [|discriminate].
    destruct (R_fuel _ _ _ _ _ _ _) eqn:R; intros H; inversion H; subst; simpl; auto.
    eapply IHR; eauto. }
  split.
  - intros text n rc prompt path w r w'. rewrite processGeminiResponse_fuel_S.
    unfold try_catch at 1.
    destruct (indexOf "{" text) as [jsonStart|];
      [destruct (lastIndexOf "}" text) as [jsonEnd|]|].
    + unfold try_catch at 1.
      destruct (validate _ _ w) as [r1 w1|e1 w1|] eqn:V.
      * intros H; inversion H; subst.
        destruct (validateTasks_returns _ _ _ _ _ V) as (v & tasks & -> & _ & T).
        simpl. congruence.
      * unfold bind at 1. unfold log at 1, emit at 1.
        destruct (rc <? 3)%nat.
        -- unfold bind at 1. unfold log at 1, emit at 1.
           destruct (P_fuel f _ _ _ _ _ _) as [r2 w2|e2 w2|] eqn:P2.
           ++ intros H; inversion H; subst. eapply IHP; eauto.
           ++ apply Outer.
           ++ discriminate.
        -- unfold throw at 1. apply Outer.
      * discriminate.
    + unfold throw at 1. apply Outer.
    + unfold throw at 1. apply Outer.
  - intros text n rc prompt path w v w'. rewrite retryWithGemini_fuel_S.
    unfold bind at 1, try_catch at 1, bind at 1, log at 1, emit at 1, bind at 1, perform.
    unfold emit at 1.
    match goal with
    | |- context [generateContent api ?i ?q] =>
        destruct (generateContent api i q) as [fixed|error]
    end.
    + match goal with
      | |- context [processGeminiResponse_fuel _ _ _ f ?a ?b ?c ?d ?e ?x] =>
          destruct (P_fuel f a b c d e x) as [r2 w2|e2 w2|] eqn:P2
      end.
      * pose proof (IHP _ _ _ _ _ _ _ _ P2) as G.
        destruct r2 as [v2|[v2|e2]]; run; intros H; inversion H; subst; auto.
      * run. discriminate.
      * discriminate.
    + run. discriminate.
Qed.


Lemma P_R_total (fuel : nat) :
  (forall text n rc prompt path w,
     (2 * (3 - rc) + 1 <= fuel)%nat ->
     P_fuel fuel text n rc prompt path w <> OutOfFuel)
  /\ (forall text n rc prompt path w,
        (2 * (3 - rc) + 2 <= fuel)%nat ->
        R_fuel fuel text n rc prompt path w <> OutOfFuel).
Proof.
  induction fuel as [|f [IHP IHR]]; [split; intros; lia|].
  assert (Outer : forall text n rc prompt path (error : js_error) w,
    (2 * (3 - rc) + 1 <= S f)%nat ->
    (log "error" ("Error processing response: " ++ tpl (err_message error));;
     if (rc <? 2)%nat then
       log "info" ("Retrying with Gemini to fix the response, attempt "
                   ++ of_nat (rc + 1) ++ "/2");;
       promise_of (R_fuel f text n (rc + 1)%nat prompt path)
     else
       throw (Error ("Failed to process response: " ++ tpl (err_message error))))
      w <> OutOfFuel).
  { intros text n rc prompt path error w Hf. run.
    destruct (Nat.ltb_spec rc 2); run; [|discriminate].
    match goal with
    | |- context [retryWithGemini_fuel _ _ _ f ?a ?b ?c ?d ?e ?x] =>
        pose proof (IHR a b c d e x) as T;
        destruct (R_fuel f a b c d e x)
    end; try discriminate. exfalso. apply T; [lia | reflexivity]. }
  split.
  - intros text n rc prompt path w Hf. rewrite processGeminiResponse_fuel_S.
    unfold try_catch at 1.
    destruct (indexOf "{" text) as [jsonStart|];
      [destruct (lastIndexOf "}" text) as [jsonEnd|]|];
      try (unfold throw at 1; now apply Outer).
    unfold try_catch at 1.
    destruct (validate _ _ w) as [r1 w1|e1 w1|] eqn:V.
    + discriminate.
    + unfold bind at 1. unfold log at 1, emit at 1.
      destruct (Nat.ltb_spec rc 3).
      * unfold bind at 1. unfold log at 1, emit at 1.
        match goal with
        | |- context [processGeminiResponse_fuel _ _ _ f ?a ?b ?c ?d ?e ?x] =>
            pose proof (IHP a b c d e x) as T;
            destruct (P_fuel f a b c d e x)
        end.
        -- discriminate.
        -- now apply Outer.
        -- exfalso. apply T; [lia | reflexivity].
      * unfold throw at 1. now apply Outer.
    + exfalso. now apply (validateTasks_total _ _ _ V).
  - intros text n rc prompt path w Hf. rewrite retryWithGemini_fuel_S.
    unfold bind at 1, try_catch at 1, bind at 1, log at 1, emit at 1, bind at 1, perform.
    unfold emit at 1.
    match goal with
    | |- context [generateContent api ?i ?q] =>
        destruct (generateContent api i q) as [fixed|error]
    end.
    + match goal with
      | |- context [processGeminiResponse_fuel _ _ _ f ?a ?b ?c ?d ?e ?x] =>
          pose proof (IHP a b c d e x) as T;
          destruct (P_fuel f a b c d e x) as [r2 w2|e2 w2|]
      end.
      * destruct r2 as [v2|[v2|e2]]; run; discriminate.
      * run. discriminate.
      * exfalso. apply T; [lia | reflexivity].
    + run. discriminate.
Qed.

(** [processGeminiResponse] always comes back: with a value, a promise or
    an exception. *)
Lemma processGeminiResponse_total text n rc prompt path w :
  processGeminiResponse JSON_parse TypeError_null api text n rc prompt path w
  <> OutOfFuel.
Proof. apply (proj1 (P_R_total _)). lia. Qed.

Lemma retryWithGemini_total text n rc prompt path w :
  retryWithGemini JSON_parse TypeError_null api text n rc prompt path w
  <> OutOfFuel.
Proof. apply (proj2 (P_R_total _)). lia. Qed.

(** C5 (amended). In [processGeminiResponse], once the text between the
    first opening and the last closing brace has parsed, the result is
    accepted if and only if it has a [tasks] array; a [metadata] member is
    not looked at.  An accepted result is returned as it is, and the only
    effect of a length different from [numTasks] is one warning. *)
Theorem processGeminiResponse_requires_only_tasks
    (text : string) (numTasks : Z) (retryCount : nat) (prompt : request)
    (prdPath : string) (w : world) (jsonStart jsonEnd : nat) (result : json) :
  indexOf "{" text = Some jsonStart ->
  lastIndexOf "}" text = Some jsonEnd ->
  JSON_parse (substring jsonStart (jsonEnd + 1) text) = Parsed result ->
  (forall tasks, tasks_array result = Some tasks ->
     processGeminiResponse JSON_parse TypeError_null api text numTasks
       retryCount prompt prdPath w
     = Returns (Plain result)
         (after w (if Z.of_nat (List.length tasks) =? numTasks then []
                   else [Log "warn" ("Expected " ++ of_Z numTasks
                                     ++ " tasks, but got "
                                     ++ of_nat (List.length tasks))])))
  /\ (tasks_array result = None ->
      exists e, validate (substring jsonStart (jsonEnd + 1) text) numTasks w
                = Throws e w)
  /\ (forall v w',
        processGeminiResponse JSON_parse TypeError_null api text numTasks
          retryCount prompt prdPath w = Returns (Plain v) w' ->
        tasks_array v <> None).
Proof.
  intros HS HE HP. repeat split.
  - intros tasks HT. unfold processGeminiResponse.
    rewrite processGeminiResponse_fuel_S. unfold try_catch.
    rewrite HS, HE. now rewrite (validateTasks_accepts _ _ _ _ _ HP HT).
  - intros HT. now apply (validateTasks_rejects _ _ result).
  - intros v w' H.
    exact (proj1 (P_R_carry_tasks _) _ _ _ _ _ _ _ _ H).
Qed.

(** Whatever [callGemini]'s pipeline hands back, as a value or through a
    promise, has a [tasks] array. *)
Lemma processGeminiResponse_carries_tasks text n rc prompt path w r w' :
  processGeminiResponse JSON_parse TypeError_null api text n rc prompt path w
  = Returns r w' ->
  carries_tasks r.
Proof. apply (proj1 (P_R_carry_tasks _)). Qed.

(** *** The retry counter is shared by cleanup and repair *)

Section ParsingKeepsFailing.

Variable numTasks : Z.
(** Every candidate fails the inner [try]: it does not parse, or it has no
    [tasks] array. *)
Hypothesis keeps_failing :
  forall jsonContent w, exists e, validate jsonContent numTasks w = Throws e w.

Ltac same_calls :=
  unfold after; cbn [trace]; rewrite ?calls_app; cbn [calls flat_map app];
  rewrite ?app_nil_r; auto.

(** From retry count 2 on, no repair is requested any more. *)
Lemma no_repair_from_2 fuel text rc prompt path w :
  (2 <= rc)%nat -> (2 <= fuel)%nat ->
  exists e w',
    P_fuel fuel text numTasks rc prompt path w = Throws e w'
    /\ calls (trace w') = calls (trace w).
Proof.
  intros Hrc Hf.
  destruct fuel as [|[|f]]; try lia.
  assert (Hlt : (rc <? 2)%nat = false) by (apply Nat.ltb_ge; lia).
  assert (Last : forall text w, (3 <= rc + 1)%nat ->
            exists e w',
              P_fuel (S f) text numTasks (rc + 1)%nat prompt path w = Throws e w'
              /\ calls (trace w') = calls (trace w)).
  { intros t x H3. rewrite processGeminiResponse_fuel_S.
    assert (H2 : (rc + 1 <? 2)%nat = false) by (apply Nat.ltb_ge; lia).
    assert (H3' : (rc + 1 <? 3)%nat = false) by (apply Nat.ltb_ge; lia).
    unfold try_catch at 1.
    destruct (indexOf "{" t); [destruct (lastIndexOf "}" t)|].
    - unfold try_catch at 1.
      destruct (keeps_failing (substring n (n0 + 1) t) x) as [e ->].
      rewrite H2, H3'. run. do 2 eexists; split; [reflexivity|]. same_calls.
    - rewrite H2. run. do 2 eexists; split; [reflexivity|]. same_calls.
    - rewrite H2. run. do 2 eexists; split; [reflexivity|]. same_calls. }
  rewrite processGeminiResponse_fuel_S. unfold try_catch at 1.
  destruct (indexOf "{" text); [destruct (lastIndexOf "}" text)|].
  - unfold try_catch at 1.
    destruct (keeps_failing (substring n (n0 + 1) text) w) as [e ->].
    rewrite Hlt. unfold bind at 1, log at 1, emit at 1.
    destruct (rc <? 3)%nat.
    + unfold bind at 1, log at 1, emit at 1.
      match goal with
      | |- context [processGeminiResponse_fuel _ _ _ (S f) ?a ?b ?c ?d ?g ?x] =>
          destruct (Last a x) as (e' & w' & -> & Hc); [lia|]
      end.
      run. do 2 eexists; split; [reflexivity|]. 
      unfold after; cbn [trace]; rewrite !calls_app, Hc. same_calls.
    + run. do 2 eexists; split; [reflexivity|]. same_calls.
  - rewrite Hlt. run. do 2 eexists; split; [reflexivity|]. same_calls.
  - rewrite Hlt. run. do 2 eexists; split; [reflexivity|]. same_calls.
Qed.

(** A repair at retry count 2 makes its one request and then rejects. *)
Lemma repair_at_2 fuel text prompt path w :
  (3 <= fuel)%nat ->
  exists e w',
    R_fuel fuel text numTasks 2 prompt path w = Throws e w'
    /\ calls (trace w')
       = (calls (trace w) ++ [FixTasks text numTasks path])%list.
Proof.
  intros Hf. destruct fuel as [|f]; [lia|].
  rewrite retryWithGemini_fuel_S.
  unfold bind at 1, try_catch at 1, bind at 1, log at 1, emit at 1, bind at 1, perform.
  unfold emit at 1.
  match goal with
  | |- context [generateContent api ?i ?q] =>
      destruct (generateContent api i q) as [fixed|error]
  end.
  - match goal with
    | |- context [processGeminiResponse_fuel _ _ _ f ?a ?b ?c ?d ?g ?x] =>
        destruct (no_repair_from_2 f a c d g x) as (e' & w' & -> & Hc);
          [lia | lia |]
    end.
    run. do 2 eexists; split; [reflexivity|].
    unfold after; cbn [trace]; rewrite !calls_app, Hc. same_calls.
  - run. do 2 eexists; split; [reflexivity|]. same_calls.
Qed.

(** At retry count 1 the repair that follows is the last one. *)
Lemma one_repair_from_1 fuel text prompt path w :
  (4 <= fuel)%nat ->
  exists e w',
    P_fuel fuel text numTasks 1 prompt path w = Returns (Promise (Rejected e)) w'
    /\ calls (trace w')
       = (calls (trace w) ++ [FixTasks text numTasks path])%list.
Proof.
  intros Hf. destruct fuel as [|f]; [lia|].
  assert (Outer : forall (error : js_error) x,
    calls (trace x) = calls (trace w) ->
    exists e w',
      (log "error" ("Error processing response: " ++ tpl (err_message error));;
       if (1 <? 2)%nat then
         log "info" ("Retrying with Gemini to fix the response, attempt "
                     ++ of_nat (1 + 1) ++ "/2");;
         promise_of (R_fuel f text numTasks (1 + 1)%nat prompt path)
       else
         throw (Error ("Failed to process response: " ++ tpl (err_message error))))
        x = Returns (Promise (Rejected e)) w'
      /\ calls (trace w')
         = (calls (trace w) ++ [FixTasks text numTasks path])%list).
  { intros error x Hx. cbn [Nat.ltb Nat.leb Nat.add].
    unfold bind at 1, log at 1, emit at 1, bind at 1, log at 1, emit at 1.
    unfold promise_of.
    match goal with
    | |- context [retryWithGemini_fuel _ _ _ f ?a ?b ?c ?d ?g ?y] =>
        destruct (repair_at_2 f a d g y) as (e' & w' & -> & Hc); [lia|]
    end.
    do 2 eexists; split; [reflexivity|]. rewrite Hc, <- Hx. same_calls. }
  rewrite processGeminiResponse_fuel_S. unfold try_catch at 1.
  destruct (indexOf "{" text); [destruct (lastIndexOf "}" text)|].
  - unfold try_catch at 1.
    destruct (keeps_failing (substring n (n0 + 1) text) w) as [e ->].
    unfold bind at 1, log at 1, emit at 1. cbn [Nat.ltb Nat.leb].
    unfold bind at 1, log at 1, emit at 1.
    match goal with
    | |- context [processGeminiResponse_fuel _ _ _ f ?a ?b ?c ?d ?g ?x] =>
        destruct (no_repair_from_2 f a c d g x) as (e' & w' & -> & Hc);
          [lia | lia |]
    end.
    apply Outer. rewrite Hc. same_calls.
  - unfold throw at 1. now apply Outer.
  - unfold throw at 1. now apply Outer.
Qed.

(** When parsing keeps failing on a text that has braces, the three cleanup
    attempts use up the counter that the repair shares: one single repair
    request is made, whatever the model answers, and the operation fails. *)
Lemma one_repair_after_cleanup text prompt path w jsonStart jsonEnd :
  indexOf "{" text = Some jsonStart ->
  lastIndexOf "}" text = Some jsonEnd ->
  exists e w',
    processGeminiResponse JSON_parse TypeError_null api text numTasks 0
      prompt path w = Returns (Promise (Rejected e)) w'
    /\ calls (trace w')
       = (calls (trace w)
          ++ [FixTasks (cleanupJsonResponse text) numTasks path])%list.
Proof.
  intros HS HE. unfold processGeminiResponse. cbn [Nat.sub Nat.mul Nat.add].
  rewrite processGeminiResponse_fuel_S. unfold try_catch at 1.
  rewrite HS, HE. unfold try_catch at 1.
  destruct (keeps_failing (substring jsonStart (jsonEnd + 1) text) w) as [e ->].
  unfold bind at 1, log at 1, emit at 1. cbn [Nat.ltb Nat.leb].
  unfold bind at 1, log at 1, emit at 1. change (0 + 1)%nat with 1%nat.
  match goal with
  | |- context [processGeminiResponse_fuel _ _ _ ?f ?a ?b ?c ?d ?g ?x] =>
      destruct (one_repair_from_1 f a d g x) as (e' & w' & -> & Hc); [lia|]
  end.
  do 2 eexists; split; [reflexivity|]. rewrite Hc. same_calls.
Qed.

End ParsingKeepsFailing.

(** *** [callGemini] *)

Local Abbreviation stream_request :=
  (handleStreamingRequest JSON_parse TypeError_null api CONFIG).
Local Abbreviation callGemini_from :=
  (callGemini_fuel JSON_parse TypeError_null api CONFIG).

(** The events of [if (CONFIG.debug) log('debug', 'Full error:', error)]. *)
Local Abbreviation full_error error :=
  (if debug CONFIG then [LogDetail "debug" "Full error:" error] else []).

Lemma when_debug error w :
  when (debug CONFIG) (emit (LogDetail "debug" "Full error:" error)) w
  = Returns tt (after w (full_error error)).
Proof. destruct (debug CONFIG); run; [reflexivity | now rewrite after_nil]. Qed.

(** A failure of the streamed request reaches [callGemini] re-worded by
    [handleGeminiError]. *)
Lemma handleStreamingRequest_failure prompt prdPath n w raw :
  generateContentStream api (List.length (calls (trace w))) prompt = Failure raw ->
  stream_request prompt prdPath n w
  = Throws (Error (handleGeminiError raw))
      (after w ([Call prompt; Log "error" (handleGeminiError raw);
                 ConsoleError (handleGeminiError raw)] ++ full_error raw)).
Proof.
  intros H. unfold handleStreamingRequest.
  unfold bind at 1, try_catch at 1, bind at 1, perform. rewrite H.
  unfold emit at 1. cbv zeta.
  unfold bind at 1, log at 1, emit at 1, bind at 1, console_error at 1, emit at 1.
  unfold bind at 1. rewrite when_debug. unfold throw.
  now rewrite !after_after.
Qed.

(** The [catch] block of [callGemini]: the error that reaches it is
    retried when the retry count is below 2 and its message contains one of
    the four terms, after a delay of [(retryCount + 1) * 5000] ms;
    otherwise the user message is thrown at once. *)
Lemma callGemini_catch f prdContent prdPath n rc w error w1 :
  stream_request (GenerateTasks prdContent prdPath n) prdPath n
    (after w [Log "info" "Calling Gemini..."]) = Throws error w1 ->
  callGemini_from (S f) prdContent prdPath n rc w
  = if (rc <? 2)%nat && retryable error
    then callGemini_from f prdContent prdPath n (rc + 1)%nat
           (after w1 [Log "error" (handleGeminiError error);
                      Log "info" ("Waiting " ++ of_Z ((Z.of_nat rc + 1) * 5000 / 1000)
                                  ++ " seconds before retry "
                                  ++ of_nat (rc + 1) ++ "/2...");
                      Sleep ((Z.of_nat rc + 1) * 5000)])
    else Throws (Error (handleGeminiError error))
           (after w1 ([Log "error" (handleGeminiError error);
                       ConsoleError (handleGeminiError error)]
                      ++ full_error error)).
Proof.
  intros H. cbn [callGemini_fuel].
  unfold try_catch at 1, bind at 1, log at 1, emit at 1. rewrite H. cbv zeta.
  unfold bind at 1, log at 1, emit at 1.
  destruct ((rc <? 2)%nat && retryable error).
  - unfold bind at 1, log at 1, emit at 1, bind at 1, sleep at 1, emit at 1.
    now rewrite !after_after.
  - unfold bind at 1, console_error at 1, emit at 1, bind at 1.
    rewrite when_debug. unfold throw. now rewrite !after_after.
Qed.

Lemma callGemini_success f prdContent prdPath n rc w v w1 :
  stream_request (GenerateTasks prdContent prdPath n) prdPath n
    (after w [Log "info" "Calling Gemini..."]) = Returns v w1 ->
  callGemini_from (S f) prdContent prdPath n rc w = Returns v w1.
Proof.
  intros H. cbn [callGemini_fuel].
  unfold try_catch at 1, bind at 1, log at 1, emit at 1. now rewrite H.
Qed.

(** The wording that replaces a transport timeout no longer contains any of
    the four terms. *)
Lemma reworded_timeout_is_not_retryable :
  retryable (Error MSG_TIMEOUT) = false.
Proof. vm_compute. reflexivity. Qed.

(** A transport timeout of the streamed request is not retried: after the
    one request, with no delay, [callGemini] throws. *)
Lemma callGemini_timeout_not_retried prdContent prdPath n rc w raw :
  structured raw = None ->
  message_includes "timeout" raw = true ->
  generateContentStream api (List.length (calls (trace w)))
    (GenerateTasks prdContent prdPath n) = Failure raw ->
  exists w',
    callGemini JSON_parse TypeError_null api CONFIG prdContent prdPath n rc w
    = Throws (Error ("Error communicating with Gemini: " ++ MSG_TIMEOUT)) w'
    /\ calls (trace w')
       = (calls (trace w) ++ [GenerateTasks prdContent prdPath n])%list
    /\ sleeps (trace w') = sleeps (trace w).
Proof.
  intros HS HT HF.
  assert (HM : handleGeminiError raw = MSG_TIMEOUT).
  { unfold handleGeminiError. now rewrite HS, HT. }
  unfold callGemini.
  erewrite callGemini_catch.
  2:{ apply handleStreamingRequest_failure.
      unfold after; cbn [trace]. rewrite calls_app; cbn [calls flat_map app].
      rewrite app_nil_r. exact HF. }
  rewrite HM, reworded_timeout_is_not_retryable, andb_false_r.
  eexists; split; [reflexivity|].
  unfold after; cbn [trace]. rewrite !calls_app, !sleeps_app.
  destruct (debug CONFIG); cbn; rewrite ?app_nil_r; auto.
Qed.

(** *** The retry bound of [callGemini] *)

Ltac same_sleeps :=
  unfold after; cbn [trace]; rewrite ?sleeps_app; cbn [sleeps flat_map app];
  rewrite ?app_nil_r; auto.

(** Processing a response never waits. *)
Lemma P_R_no_sleep (fuel : nat) :
  (forall text n rc prompt path w,
     sleeps (trace (world_of (P_fuel fuel text n rc prompt path w) w))
     = sleeps (trace w))
  /\ (forall text n rc prompt path w,
        sleeps (trace (world_of (R_fuel fuel text n rc prompt path w) w))
        = sleeps (trace w)).
Proof.
  induction fuel as [|f [IHP IHR]]; [split; reflexivity|].
  assert (Outer : forall text n rc prompt path (error : js_error) w0 w,
    sleeps (trace w) = sleeps (trace w0) ->
    sleeps (trace (world_of
      ((log "error" ("Error processing response: " ++ tpl (err_message error));;
        if (rc <? 2)%nat then
          log "info" ("Retrying with Gemini to fix the response, attempt "
                      ++ of_nat (rc + 1) ++ "/2");;
          promise_of (R_fuel f text n (rc + 1)%nat prompt path)
        else
          throw (Error ("Failed to process response: " ++ tpl (err_message error))))
         w) w0))
    = sleeps (trace w0)).
  { intros text n rc prompt path error w0 w Hw.
    unfold bind at 1, log at 1, emit at 1.
    destruct (rc <? 2)%nat.
    - unfold bind at 1, log at 1, emit at 1, promise_of.
      match goal with
      | |- context [retryWithGemini_fuel _ _ _ f ?a ?b ?c ?d ?e ?x] =>
          pose proof (IHR a b c d e x) as T;
          destruct (R_fuel f a b c d e x)
      end; cbn [world_of] in *; try (rewrite T; same_sleeps).
      reflexivity.
    - unfold throw. cbn [world_of]. same_sleeps. }
  split.
  - intros text n rc prompt path w. rewrite processGeminiResponse_fuel_S.
    unfold try_catch at 1.
    destruct (indexOf "{" text) as [jsonStart|];
      [destruct (lastIndexOf "}" text) as [jsonEnd|]|];
      try (unfold throw at 1; now apply Outer).
    unfold try_catch at 1.
    destruct (validate _ _ w) as [r1 w1|e1 w1|] eqn:V.
    + cbn [world_of]. unfold validateTasks in V.
      destruct (JSON_parse _) as [v|m]; [|discriminate].
      destruct v; try discriminate;
        destruct (tasks_array _); try discriminate;
        destruct (negb _); run; inversion V; subst; same_sleeps.
    + assert (H1 : w1 = w).
      { unfold validateTasks in V.
        destruct (JSON_parse _) as [v|m]; [|now inversion V].
        destruct v; try (now inversion V);
          destruct (tasks_array _); try (now inversion V);
          destruct (negb _); run; discriminate. }
      subst w1. unfold bind at 1. unfold log at 1, emit at 1.
      destruct (rc <? 3)%nat.
      * unfold bind at 1. unfold log at 1, emit at 1.
        match goal with
        | |- context [processGeminiResponse_fuel _ _ _ f ?a ?b ?c ?d ?e ?x] =>
            pose proof (IHP a b c d e x) as T;
            destruct (P_fuel f a b c d e x)
        end; cbn [world_of] in *.
        -- rewrite T. same_sleeps.
        -- apply Outer. rewrite T. same_sleeps.
        -- reflexivity.
      * unfold throw at 1. apply Outer. same_sleeps.
    + reflexivity.
  - intros text n rc prompt path w. rewrite retryWithGemini_fuel_S.
    unfold bind at 1, try_catch at 1, bind at 1, log at 1, emit at 1, bind at 1, perform.
    unfold emit at 1.
    match goal with
    | |- context [generateContent api ?i ?q] =>
        destruct (generateContent api i q) as [fixed|error]
    end.
    + match goal with
      | |- context [processGeminiResponse_fuel _ _ _ f ?a ?b ?c ?d ?e ?x] =>
          pose proof (IHP a b c d e x) as T;
          destruct (P_fuel f a b c d e x) as [r2 w2|e2 w2|]
      end; cbn [world_of] in *.
      * destruct r2 as [v2|[v2|e2]]; run; cbn [world_of]; rewrite T; same_sleeps.
      * run. cbn [world_of]. same_sleeps. rewrite T. same_sleeps.
      * reflexivity.
    + run. cbn [world_of]. same_sleeps.
Qed.

Lemma handleStreamingRequest_outcome prompt prdPath n w o :
  stream_request prompt prdPath n w = o ->
  o <> OutOfFuel /\ sleeps (trace (world_of o w)) = sleeps (trace w).
Proof.
  unfold handleStreamingRequest.
  unfold bind at 1, try_catch at 1, bind at 1, perform.
  destruct (generateContentStream api _ _) as [chunks|raw].
  - unfold emit at 1. cbv zeta. unfold bind at 1, log at 1, emit at 1.
    match goal with
    | |- context [processGeminiResponse _ _ _ ?a ?b ?c ?d ?e ?x] =>
        pose proof (processGeminiResponse_total a b c d e x) as Tot;
        pose proof (proj1 (P_R_no_sleep (S (2 * (3 - c)))) a b c d e x) as T;
        change (P_fuel (S (2 * (3 - c))) a b c d e x)
          with (processGeminiResponse JSON_parse TypeError_null api a b c d e x)
          in T;
        destruct (processGeminiResponse JSON_parse TypeError_null api a b c d e x)
          as [r w1|e1 w1|]
    end; cbn [world_of] in *.
    + destruct r as [v|[v|e]]; run; intros <-; cbn [world_of];
        (split; [discriminate | rewrite T; same_sleeps]).
    + unfold bind at 1, log at 1, emit at 1, bind at 1, console_error at 1, emit at 1.
      unfold bind at 1. rewrite when_debug. run. intros <-. cbn [world_of].
      split; [discriminate|].
      destruct (debug CONFIG); same_sleeps; rewrite T; same_sleeps.
    + congruence.
  - unfold emit at 1. cbv zeta.
    unfold bind at 1, log at 1, emit at 1, bind at 1, console_error at 1, emit at 1.
    unfold bind at 1. rewrite when_debug. run. intros <-. cbn [world_of].
    split; [discriminate|]. destruct (debug CONFIG); same_sleeps.
Qed.

Lemma handleStreamingRequest_no_sleep prompt prdPath n w :
  stream_request prompt prdPath n w <> OutOfFuel
  /\ sleeps (trace (world_of (stream_request prompt prdPath n w) w))
     = sleeps (trace w).
Proof. exact (handleStreamingRequest_outcome prompt prdPath n w _ eq_refl). Qed.

(** [callGemini] always comes to an end, after at most [2 - retryCount]
    retries; the delay before the retry that follows attempt [i] (counted
    from 0) is [(i + 1) * 5000] ms, and nothing else waits. *)
Lemma callGemini_fuel_retry_bound fuel prdContent prdPath n rc w :
  (3 - rc <= fuel)%nat -> (1 <= fuel)%nat ->
  callGemini_from fuel prdContent prdPath n rc w <> OutOfFuel
  /\ exists k, (k <= 2 - rc)%nat
       /\ sleeps (trace (world_of (callGemini_from fuel prdContent prdPath n rc w) w))
          = (sleeps (trace w)
             ++ map (fun i => (Z.of_nat i + 1) * 5000) (seq rc k))%list.
Proof.
  revert rc w. induction fuel as [|f IH]; intros rc w Hf H1; [lia|].
  pose (w0 := after w [Log "info" "Calling Gemini..."]).
  destruct (handleStreamingRequest_no_sleep
              (GenerateTasks prdContent prdPath n) prdPath n w0) as [Tot Hs].
  destruct (stream_request (GenerateTasks prdContent prdPath n) prdPath n w0)
    as [v w1|error w1|] eqn:E; [| |congruence]; cbn [world_of] in Hs.
  - rewrite (callGemini_success _ _ _ _ _ _ _ _ E). split; [discriminate|].
    exists 0%nat. split; [lia|]. cbn [world_of seq map]. rewrite Hs.
    subst w0. same_sleeps.
  - rewrite (callGemini_catch _ _ _ _ _ _ _ _ E).
    destruct (Nat.ltb_spec rc 2) as [Hlt|Hge]; cbn [andb].
    + destruct (retryable error).
      * match goal with
        | |- context [callGemini_fuel _ _ _ _ f ?a ?b ?c ?d ?x] =>
            destruct (IH d x) as [Tot' [k [Hk Hsl]]]; [lia | lia |];
            destruct (callGemini_from f a b c d x) as [v' w'|e' w'|];
              [| |congruence]
        end; cbn [world_of] in *;
        (split; [discriminate|]); exists (S k); (split; [lia|]);
        rewrite Hsl.
        all: unfold after; cbn [trace]; rewrite !sleeps_app, Hs;
          subst w0; unfold after; cbn [trace]; rewrite sleeps_app;
          cbn [sleeps flat_map app seq map]; rewrite !app_nil_r, <- !app_assoc;
          cbn [app]; now rewrite Nat.add_1_r.
      * split; [discriminate|]. exists 0%nat. split; [lia|].
        cbn [world_of seq map]. unfold after; cbn [trace]. rewrite !sleeps_app, Hs.
        subst w0. destruct (debug CONFIG); same_sleeps.
    + split; [discriminate|]. exists 0%nat. split; [lia|].
      cbn [world_of seq map]. unfold after; cbn [trace]. rewrite !sleeps_app, Hs.
      subst w0. destruct (debug CONFIG); same_sleeps.
Qed.

Lemma callGemini_retry_bound prdContent prdPath n w :
  let o := callGemini JSON_parse TypeError_null api CONFIG prdContent prdPath
             n 0 w in
  o <> OutOfFuel
  /\ exists delays,
       sleeps (trace (world_of o w)) = (sleeps (trace w) ++ delays)%list
       /\ (delays = [] \/ delays = [5000] \/ delays = [5000; 10000]).
Proof.
  cbv zeta. unfold callGemini. cbn [Nat.sub].
  destruct (callGemini_fuel_retry_bound 3 prdContent prdPath n 0 w)
    as [Tot [k [Hk Hs]]]; [lia | lia |].
  split; [exact Tot|]. eexists. split; [exact Hs|].
  destruct k as [|[|[|k]]]; try lia; cbn; auto.
Qed.

(** What [handleGeminiError] makes of a failure decides whether the
    streamed request is tried again. *)
Lemma reworded_messages_retryable :
  retryable (Error MSG_OVERLOADED) = true
  /\ retryable (Error MSG_RATE_LIMIT) = true
  /\ retryable (Error MSG_NETWORK) = true
  /\ retryable (Error MSG_INVALID_REQUEST) = false
  /\ retryable (Error MSG_TIMEOUT) = false.
Proof. repeat split; vm_compute; reflexivity. Qed.

End PrdPipeline.

(** *** The pipeline on concrete responses *)

(** C2. The streamed request fails with the transport error [Request
    timeout], whose message contains "timeout".  [handleStreamingRequest]
    re-words it before [callGemini] sees it, the new wording contains none
    of the four terms, and [callGemini] gives up after the first attempt,
    without any delay.  With the message [Rate limit hit] the same call is
    retried twice, after 5000 ms and after 10000 ms. *)
Theorem callGemini_gives_up_on_timeout :
  callGemini Json.parse Sample.null_message Sample.timeout_api Sample.quiet
    "PRD" "prd.txt" 3 0 Sample.fresh
  = Throws
      (Error "Error communicating with Gemini: The request to Gemini timed out. Please try again.")
      (after Sample.fresh
         [ Log "info" "Calling Gemini...";
           Call (GenerateTasks "PRD" "prd.txt" 3);
           Log "error" "The request to Gemini timed out. Please try again.";
           ConsoleError "The request to Gemini timed out. Please try again.";
           Log "error" "Error communicating with Gemini: The request to Gemini timed out. Please try again.";
           ConsoleError "Error communicating with Gemini: The request to Gemini timed out. Please try again." ])
  /\ match callGemini Json.parse Sample.null_message Sample.rate_limit_api
             Sample.quiet "PRD" "prd.txt" 3 0 Sample.fresh with
     | Throws _ w' =>
         sleeps (trace w') = [5000; 10000]
         /\ calls (trace w') = [ GenerateTasks "PRD" "prd.txt" 3;
                                 GenerateTasks "PRD" "prd.txt" 3;
                                 GenerateTasks "PRD" "prd.txt" 3 ]
     | _ => False
     end.
Proof. split; vm_compute; auto. Qed.

(** C3. The text [{oops}] never parses, and the model keeps answering
    [{oops}].  The three cleanup attempts are made, then the repair that
    follows is announced as attempt 2/2: it is the only repair request, and
    the operation fails after it.  On a text without braces, where no
    cleanup comes first, the same model is asked twice. *)
Theorem repair_budget_is_shared_with_cleanup :
  match processGeminiResponse Json.parse Sample.null_message
          (Sample.always "{oops}") "{oops}" 3 0
          (GenerateTasks "PRD" "prd.txt" 3) "prd.txt" Sample.fresh with
  | Returns (Promise (Rejected _)) w' =>
      calls (trace w') = [FixTasks "{oops}" 3 "prd.txt"]
      /\ logged "info" (trace w')
         = [ "Retrying JSON parsing with cleanup attempt 1/3";
             "Retrying JSON parsing with cleanup attempt 2/3";
             "Retrying JSON parsing with cleanup attempt 3/3";
             "Retrying with Gemini to fix the response, attempt 2/2";
             "Asking Gemini to fix the JSON response...";
             "Retrying JSON parsing with cleanup attempt 3/3" ]
  | _ => False
  end
  /\ match processGeminiResponse Json.parse Sample.null_message
             (Sample.always "oops") "oops" 3 0
             (GenerateTasks "PRD" "prd.txt" 3) "prd.txt" Sample.fresh with
     | Returns (Promise (Rejected _)) w' =>
         calls (trace w') = [FixTasks "oops" 3 "prd.txt";
                             FixTasks "oops" 3 "prd.txt"]
     | _ => False
     end.
Proof. split; vm_compute; auto. Qed.

(** C5, counterexample: [{"tasks":[]}] has no [metadata] member, and
    [processGeminiResponse] accepts it and returns it. *)
Lemma processGeminiResponse_accepts_without_metadata :
  processGeminiResponse Json.parse Sample.null_message (Sample.always "")
    Sample.tasks_only 0 0 (GenerateTasks "PRD" "prd.txt" 0) "prd.txt"
    Sample.fresh
  = Returns (Plain (JObj [("tasks", JArr [])])) Sample.fresh
  /\ Obj.get "metadata" [("tasks", JArr [])] = None.
Proof. split; vm_compute; reflexivity. Qed.

Lemma processGeminiResponse_requires_only_tasks_witness :
  (JsString.indexOf "{" Sample.tasks_only = Some 0%nat
   /\ JsString.lastIndexOf "}" Sample.tasks_only = Some 11%nat
   /\ Json.parse (JsString.substring 0 (11 + 1) Sample.tasks_only)
      = Parsed (JObj [("tasks", JArr [])]))
  /\ processGeminiResponse Json.parse Sample.null_message (Sample.always "")
       Sample.tasks_only 3 0 (GenerateTasks "PRD" "prd.txt" 3) "prd.txt"
       Sample.fresh
     = Returns (Plain (JObj [("tasks", JArr [])]))
         (after Sample.fresh [Log "warn" "Expected 3 tasks, but got 0"]).
Proof.
  split.
  - repeat split; vm_compute; reflexivity.
  - apply (proj1 (processGeminiResponse_requires_only_tasks
                    Json.parse Sample.null_message (Sample.always "")
                    Sample.tasks_only 3 0 (GenerateTasks "PRD" "prd.txt" 3)
                    "prd.txt" Sample.fresh 0 11 (JObj [("tasks", JArr [])])
                    eq_refl eq_refl eq_refl) []).
    reflexivity.
Defined.

(* ------------------------------------------------------------------ *)
(** ** Research: [getPerplexityClient] and [expandTaskWithResearch] *)

Section Research.

Import JsString.

Variable api : backend.
Variable CONFIG : config.

Local Abbreviation research_from := (expandTaskWithResearch_fuel api CONFIG).

Lemma getPerplexityClient_missing (w : world) :
  perplexity w = None ->
  truthy (PERPLEXITY_API_KEY w) = false ->
  getPerplexityClient w = Throws (Error MISSING_KEY) w.
Proof.
  intros HP HK. unfold getPerplexityClient. rewrite HP.
  destruct (PERPLEXITY_API_KEY w) as [[|c k]|]; try reflexivity.
  discriminate HK.
Qed.

(** The client is created once and reused. *)
Lemma getPerplexityClient_lazy (w : world) (key : string) :
  perplexity w = None ->
  PERPLEXITY_API_KEY w = Some key ->
  truthy (Some key) = true ->
  exists client w1,
    getPerplexityClient w = Returns client w1
    /\ apiKey client = key
    /\ perplexity w1 = Some client
    /\ getPerplexityClient w1 = Returns client w1.
Proof.
  intros HP HK HT. unfold getPerplexityClient at 1. rewrite HP, HK.
  destruct key as [|c k]; [discriminate HT|].
  do 2 eexists. split; [reflexivity|]. repeat split.
Qed.

Lemma refineTaskWithGemini_total task results prompt w :
  refineTaskWithGemini api task results prompt w <> OutOfFuel.
Proof.
  unfold refineTaskWithGemini. run.
  destruct (generateContent api _ _); discriminate.
Qed.

Lemma expandTaskWithGemini_total task prompt isSubtask w :
  expandTaskWithGemini api task prompt isSubtask w <> OutOfFuel.
Proof.
  unfold expandTaskWithGemini. run.
  destruct (generateContent api _ _); discriminate.
Qed.

(** One round of [expandTaskWithResearch] when the key is missing: the
    error is logged and handled like any other. *)
Lemma research_round_without_key f task prompt rc w :
  perplexity w = None ->
  truthy (PERPLEXITY_API_KEY w) = false ->
  research_from (S f) task prompt rc w
  = if (rc <? 2)%nat
    then research_from f task prompt (rc + 1)%nat
           (after w [Log "error" ("Error in research: " ++ MISSING_KEY);
                     Log "info" ("Waiting " ++ of_Z ((Z.of_nat rc + 1) * 5000 / 1000)
                                 ++ " seconds before retry "
                                 ++ of_nat (rc + 1) ++ "/2...");
                     Sleep ((Z.of_nat rc + 1) * 5000)])
    else expandTaskWithGemini api task prompt false
           (after w [Log "error" ("Error in research: " ++ MISSING_KEY);
                     Log "info" "Falling back to expansion without research..."]).
Proof.
  intros HP HK. cbn [expandTaskWithResearch_fuel].
  unfold try_catch at 1, bind at 1.
  rewrite (getPerplexityClient_missing w HP HK).
  unfold bind at 1, log at 1, emit at 1.
  destruct (rc <? 2)%nat.
  - cbv zeta. unfold bind at 1, log at 1, emit at 1, bind at 1, sleep at 1, emit at 1.
    now rewrite !after_after.
  - unfold bind at 1, log at 1, emit at 1. now rewrite !after_after.
Qed.

(** C4 (amended). Without a key (and without a client made earlier)
    [getPerplexityClient] throws the missing-key error and creates
    nothing, at every use.  [expandTaskWithResearch] handles that error as
    it handles any research error: it waits 5000 ms and tries again, waits
    10000 ms and tries a third time, and then falls back to
    [expandTaskWithGemini] without research instead of failing. *)
Theorem missing_key_is_retried_then_falls_back
    (task : taskData) (prompt : string) (w : world) :
  perplexity w = None ->
  truthy (PERPLEXITY_API_KEY w) = false ->
  getPerplexityClient w = Throws (Error MISSING_KEY) w
  /\ expandTaskWithResearch api CONFIG task prompt 0 w
     = expandTaskWithGemini api task prompt false
         (after w
            [ Log "error" ("Error in research: " ++ MISSING_KEY);
              Log "info" "Waiting 5 seconds before retry 1/2...";
              Sleep 5000;
              Log "error" ("Error in research: " ++ MISSING_KEY);
              Log "info" "Waiting 10 seconds before retry 2/2...";
              Sleep 10000;
              Log "error" ("Error in research: " ++ MISSING_KEY);
              Log "info" "Falling back to expansion without research..." ]).
Proof.
  intros HP HK. split; [now apply getPerplexityClient_missing|].
  unfold expandTaskWithResearch. cbn [Nat.sub].
  rewrite !research_round_without_key by assumption.
  cbn [Nat.ltb Nat.leb Nat.add]. now rewrite !after_after.
Qed.

Lemma expandTaskWithResearch_fuel_total fuel task prompt rc w :
  (3 - rc <= fuel)%nat -> (1 <= fuel)%nat ->
  research_from fuel task prompt rc w <> OutOfFuel.
Proof.
  revert rc w. induction fuel as [|f IH]; intros rc w Hf H1; [lia|].
  cbn [expandTaskWithResearch_fuel].
  assert (Handler : forall (error : js_error) x,
    (log "error" ("Error in research: " ++ tpl (err_message error));;
     if (rc <? 2)%nat then
       let waitTime := (Z.of_nat rc + 1) * 5000 in
       log "info" ("Waiting " ++ of_Z (waitTime / 1000)
                   ++ " seconds before retry " ++ of_nat (rc + 1) ++ "/2...");;
       sleep waitTime;;
       research_from f task prompt (rc + 1)%nat
     else
       log "info" "Falling back to expansion without research...";;
       expandTaskWithGemini api task prompt false) x <> OutOfFuel).
  { intros error x. unfold bind at 1, log at 1, emit at 1.
    destruct (Nat.ltb_spec rc 2).
    - cbv zeta.
      unfold bind at 1, log at 1, emit at 1, bind at 1, sleep at 1, emit at 1.
      apply IH; lia.
    - unfold bind at 1, log at 1, emit at 1. apply expandTaskWithGemini_total. }
  unfold try_catch at 1, bind at 1.
  destruct (getPerplexityClient w) as [client w1|e w1|] eqn:G.
  - cbv zeta. unfold bind at 1, log at 1, emit at 1, bind at 1, perform.
    unfold emit at 1.
    match goal with
    | |- context [chat_completions_create api ?i ?q] =>
        destruct (chat_completions_create api i q) as [results|error]
    end.
    + match goal with
      | |- context [refineTaskWithGemini api ?a ?b ?c ?x] =>
          pose proof (refineTaskWithGemini_total a b c x) as T;
          destruct (refineTaskWithGemini api a b c x)
      end; [discriminate | apply Handler | congruence].
    + apply Handler.
  - apply Handler.
  - unfold getPerplexityClient in G.
    destruct (perplexity w); [discriminate|].
    destruct (PERPLEXITY_API_KEY w) as [[|c k]|]; discriminate.
Qed.

Lemma expandTaskWithResearch_total task prompt rc w :
  expandTaskWithResearch api CONFIG task prompt rc w <> OutOfFuel.
Proof. apply expandTaskWithResearch_fuel_total; lia. Qed.

(** Research is optional: whatever happens in it, the step hands back some
    insights, possibly empty. *)
Lemma gatherResearch_returns useResearch purpose task prompt w :
  exists insights w1,
    gatherResearch api CONFIG useResearch purpose task prompt w
    = Returns insights w1.
Proof.
  unfold gatherResearch. destruct useResearch; [|run; eauto].
  unfold try_catch at 1, bind at 1, log at 1, emit at 1, bind at 1.
  match goal with
  | |- context [expandTaskWithResearch api CONFIG ?a ?b ?c ?x] =>
      pose proof (expandTaskWithResearch_total a b c x) as T;
      destruct (expandTaskWithResearch api CONFIG a b c x)
  end; run; eauto. congruence.
Qed.

End Research.

Lemma missing_key_is_retried_then_falls_back_witness :
  (perplexity Sample.fresh = None
   /\ JsString.truthy (PERPLEXITY_API_KEY Sample.fresh) = false)
  /\ getPerplexityClient Sample.fresh = Throws (Error MISSING_KEY) Sample.fresh.
Proof.
  split.
  - split; reflexivity.
  - apply (missing_key_is_retried_then_falls_back (Sample.always "plan")
             Sample.quiet Sample.task "" Sample.fresh); reflexivity.
Defined.

(** C4, counterexample: with no key configured, the research call is
    attempted three times, 5000 ms and 10000 ms apart, and the operation
    then succeeds through the fallback instead of failing. *)
Lemma missing_key_does_not_fail_at_once :
  match expandTaskWithResearch (Sample.always "plan") Sample.quiet
          Sample.task "" 0 Sample.fresh with
  | Returns text w' =>
      text = "plan"
      /\ sleeps (trace w') = [5000; 10000]
      /\ logged "error" (trace w')
         = [ "Error in research: " ++ MISSING_KEY;
             "Error in research: " ++ MISSING_KEY;
             "Error in research: " ++ MISSING_KEY ]
  | _ => False
  end.
Proof. vm_compute. auto. Qed.

(* ------------------------------------------------------------------ *)
(** ** Task to subtasks: [createSubtasksWithGemini] and [fixSubtasksJson] *)

Lemma renumber_from_length (parent : task_id) (xs : list json) :
  forall index, List.length (renumber_from parent index xs) = List.length xs.
Proof. induction xs; intros; simpl; auto. Qed.

Lemma renumber_from_nth (parent : task_id) (xs : list json) :
  forall index i, (i < List.length xs)%nat ->
    nth i (renumber_from parent index xs) JNull
    = withSubtaskId parent (index + i) (nth i xs JNull).
Proof.
  induction xs as [|x r IH]; intros index i Hi; simpl in *.
  - lia.
  - destruct i as [|i].
    + now rewrite Nat.add_0_r.
    + rewrite IH by lia. f_equal. lia.
Qed.

(** The array that comes back has the length of the model's array, and the
    element at [i] is an object whose [id] is ["<parent>.<i+1>"], whatever
    the model's element was. *)
Lemma renumber_ids (parent : task_id) (xs : list json) :
  List.length (renumber parent xs) = List.length xs
  /\ forall i, (i < List.length xs)%nat ->
       exists fs,
         nth i (renumber parent xs) JNull = JObj fs
         /\ Obj.get "id" fs
            = Some (JStr (show_id parent ++ "." ++ JsString.of_nat (i + 1))).
Proof.
  unfold renumber. split; [apply renumber_from_length|].
  intros i Hi. rewrite renumber_from_nth by assumption.
  unfold withSubtaskId. eexists. split; [reflexivity|].
  now rewrite get_set_same.
Qed.

Section Subtasks.

Import JsString.

Variable JSON_parse : string -> parse_result.
Variable api : backend.
Variable CONFIG : config.

Local Abbreviation extract_array := (Regex.extract Regex.array_body).

Local Abbreviation not_array := (not_an_array JSON_parse).

Lemma calls_of_log w level message :
  calls (trace (after w [Log level message])) = calls (trace w).
Proof. unfold after; cbn [trace]. rewrite calls_app. cbn. now rewrite app_nil_r. Qed.

Lemma fixSubtasksJson_repairs problematicJson parent numSubtasks w fixed items :
  generateContent api (List.length (calls (trace w)))
    (FixSubtasks problematicJson parent numSubtasks) = Answer fixed ->
  JSON_parse (extract_array fixed) = Parsed (JArr items) ->
  fixSubtasksJson JSON_parse api problematicJson parent numSubtasks w
  = Returns (JArr (renumber parent items))
      (after w [Log "info" "Attempting to fix malformed subtasks JSON...";
                Call (FixSubtasks problematicJson parent numSubtasks)]).
Proof.
  intros HG HP. unfold fixSubtasksJson.
  unfold bind at 1, log at 1, emit at 1, try_catch at 1, bind at 1, perform.
  rewrite calls_of_log, HG. unfold emit at 1, try_catch at 1. cbv zeta.
  rewrite HP. unfold ret. now rewrite !after_after.
Qed.

(** What the two paths do with the model's array.  After the optional
    research, when the model answers the subtask request:
    - if the extracted text parses to an array, that array comes back with
      every [id] overwritten by position, and a length different from
      [numSubtasks] costs one warning and changes nothing;
    - if it does not, and the repair request is answered with text that
      parses to an array, that array comes back with every [id]
      overwritten by position, and no warning is logged, whatever its
      length;
    - overwriting sets the [id] of the element at [i] to
      ["<parentTaskId>.<i+1>"] and keeps the length. *)
Theorem createSubtasksWithGemini_overwrites_ids
    (task : taskData) (numSubtasks : Z) (prompt : string) (useResearch : bool)
    (w w1 : world) (insights response : string) :
  gatherResearch api CONFIG useResearch "subtask creation" task prompt
    (after w [Log "info" ("Creating " ++ of_Z numSubtasks
                          ++ " subtasks for task " ++ show_id (td_id task)
                          ++ ": " ++ DQ ++ td_title task ++ DQ ++ "...")])
  = Returns insights w1 ->
  generateContent api (List.length (calls (trace w1)))
    (Subtasks task numSubtasks prompt insights) = Answer response ->
  (forall items,
     JSON_parse (extract_array response) = Parsed (JArr items) ->
     createSubtasksWithGemini JSON_parse api CONFIG task numSubtasks prompt
       useResearch w
     = Returns (JArr (renumber (td_id task) items))
         (after w1
            (Call (Subtasks task numSubtasks prompt insights)
             :: if Z.of_nat (List.length items) =? numSubtasks then []
                else [Log "warn" ("Expected " ++ of_Z numSubtasks
                                  ++ " subtasks, but got "
                                  ++ of_nat (List.length items))])))
  /\ (forall fixed items,
        not_array (extract_array response) ->
        generateContent api (S (List.length (calls (trace w1))))
          (FixSubtasks response (td_id task) numSubtasks) = Answer fixed ->
        JSON_parse (extract_array fixed) = Parsed (JArr items) ->
        exists w',
          createSubtasksWithGemini JSON_parse api CONFIG task numSubtasks
            prompt useResearch w
          = Returns (JArr (renumber (td_id task) items)) w'
          /\ logged "warn" (trace w') = logged "warn" (trace w1))
  /\ (forall items,
        List.length (renumber (td_id task) items) = List.length items
        /\ forall i, (i < List.length items)%nat ->
             exists fs,
               nth i (renumber (td_id task) items) JNull = JObj fs
               /\ Obj.get "id" fs
                  = Some (JStr (show_id (td_id task) ++ "."
                                ++ of_nat (i + 1)))).
Proof.
  intros HR HG. repeat split.
  - intros items HP. unfold createSubtasksWithGemini.
    unfold bind at 1, log at 1, emit at 1, bind at 1. rewrite HR.
    unfold try_catch at 1, bind at 1, perform. rewrite HG.
    unfold emit at 1, try_catch at 1. cbv zeta. rewrite HP.
    destruct (Z.of_nat (List.length items) =? numSubtasks); cbn [negb]; run;
      now rewrite ?after_after, ?after_nil.
  - intros fixed items HN HF HP. unfold createSubtasksWithGemini.
    unfold bind at 1, log at 1, emit at 1, bind at 1. rewrite HR.
    unfold try_catch at 1, bind at 1, perform. rewrite HG.
    unfold emit at 1, try_catch at 1. cbv zeta.
    assert (Fix : forall message,
      fixSubtasksJson JSON_parse api response (td_id task) numSubtasks
        (after (after w1 [Call (Subtasks task numSubtasks prompt insights)])
           [Log "error" message])
      = Returns (JArr (renumber (td_id task) items))
          (after (after (after w1 [Call (Subtasks task numSubtasks prompt insights)])
                    [Log "error" message])
             [Log "info" "Attempting to fix malformed subtasks JSON...";
              Call (FixSubtasks response (td_id task) numSubtasks)])).
    { intros message. eapply fixSubtasksJson_repairs; [|exact HP].
      rewrite calls_of_log. unfold after; cbn [trace].
      rewrite calls_app, length_app. cbn. rewrite Nat.add_1_r. exact HF. }
    destruct HN as [[m Hm]|[v [Hv Hnot]]].
    + rewrite Hm. unfold throw at 1, bind at 1, log at 1, emit at 1.
      rewrite Fix. eexists; split; [reflexivity|].
      unfold after; cbn [trace]. rewrite !logged_app. cbn. now rewrite !app_nil_r.
    + rewrite Hv.
      destruct v; try (exfalso; eapply Hnot; reflexivity);
        unfold throw at 1, bind at 1, log at 1, emit at 1;
        rewrite Fix; (eexists; split; [reflexivity|]);
        unfold after; cbn [trace]; rewrite !logged_app; cbn;
        now rewrite !app_nil_r.
  - apply renumber_ids.
  - apply renumber_ids.
Qed.

End Subtasks.

Lemma createSubtasksWithGemini_overwrites_ids_witness :
  (gatherResearch (Sample.always Sample.two_subtasks) Sample.quiet false
     "subtask creation" Sample.task ""
     (after Sample.fresh
        [Log "info" ("Creating 3 subtasks for task 7: " ++ JsString.DQ
                     ++ "Login" ++ JsString.DQ ++ "...")])
   = Returns ""
       (after Sample.fresh
          [Log "info" ("Creating 3 subtasks for task 7: " ++ JsString.DQ
                       ++ "Login" ++ JsString.DQ ++ "...")])
   /\ generateContent (Sample.always Sample.two_subtasks) 0
        (Subtasks Sample.task 3 "" "") = Answer Sample.two_subtasks
   /\ Json.parse (Regex.extract Regex.array_body Sample.two_subtasks)
      = Parsed (JArr [JObj Sample.subtask_A; JObj Sample.subtask_B]))
  /\ createSubtasksWithGemini Json.parse (Sample.always Sample.two_subtasks)
       Sample.quiet Sample.task 3 "" false Sample.fresh
     = Returns
         (JArr [ JObj [("id", JStr "7.1"); ("title", JStr "A");
                       ("dependencies", JArr [])];
                 JObj [("id", JStr "7.2"); ("title", JStr "B");
                       ("dependencies", JArr [JStr "1"])] ])
         (after Sample.fresh
            [ Log "info" ("Creating 3 subtasks for task 7: " ++ JsString.DQ
                          ++ "Login" ++ JsString.DQ ++ "...");
              Call (Subtasks Sample.task 3 "" "");
              Log "warn" "Expected 3 subtasks, but got 2" ]).
Proof.
  split.
  - repeat split; vm_compute; reflexivity.
  - apply (proj1 (createSubtasksWithGemini_overwrites_ids
                    Json.parse (Sample.always Sample.two_subtasks) Sample.quiet
                    Sample.task 3 "" false Sample.fresh
                    (after Sample.fresh
                       [Log "info" ("Creating 3 subtasks for task 7: "
                                    ++ JsString.DQ ++ "Login" ++ JsString.DQ
                                    ++ "...")])
                    "" Sample.two_subtasks eq_refl eq_refl)
             [JObj Sample.subtask_A; JObj Sample.subtask_B]).
    vm_compute. reflexivity.
Defined.

(** C6. Three subtasks are requested and the model's array holds one.
    When the array is the answer to the subtask request itself,
    [createSubtasksWithGemini] renumbers it and logs the warning that a
    length mismatch calls for.  When the first answer is prose and the
    same array is the answer to the repair request, [fixSubtasksJson]
    renumbers it, one element long, and nothing is logged at level
    [warn]: the repair path repeats the block that validates and
    renumbers, without its length warning. *)
Lemma repair_path_logs_no_warning :
  match createSubtasksWithGemini Json.parse (Sample.always Sample.one_subtask)
          Sample.quiet Sample.task 3 "" false Sample.fresh with
  | Returns v w' =>
      v = JArr [JObj [("id", JStr "7.1")]]
      /\ logged "warn" (trace w') = ["Expected 3 subtasks, but got 1"]
      /\ calls (trace w') = [Subtasks Sample.task 3 "" ""]
  | _ => False
  end
  /\ match createSubtasksWithGemini Json.parse Sample.one_subtask_on_repair
            Sample.quiet Sample.task 3 "" false Sample.fresh with
     | Returns v w' =>
         v = JArr [JObj [("id", JStr "7.1")]]
         /\ logged "warn" (trace w') = []
         /\ calls (trace w')
            = [ Subtasks Sample.task 3 "" "";
                FixSubtasks "Sorry, here is some prose." (IdNum 7) 3 ]
     | _ => False
     end.
Proof. split; vm_compute; auto. Qed.

(* ------------------------------------------------------------------ *)
(** ** Complexity analysis: [analyzeTaskComplexity] *)

Lemma assign_get_other (k : string) (src : list (string * json)) :
  forall base, Obj.get k src = None ->
    Obj.get k (Obj.assign base src) = Obj.get k base.
Proof.
  unfold Obj.assign.
  induction src as [|[k' v] r IH]; intros base H; simpl in *; [reflexivity|].
  destruct (String.eqb k k') eqn:E; [discriminate|].
  rewrite IH by assumption. now apply get_set_other.
Qed.

Section Complexity.

Import JsString.

Variable JSON_parse : string -> parse_result.
Variable api : backend.
Variable CONFIG : config.

Local Abbreviation extract_object := (Regex.extract Regex.object_body).
Local Abbreviation analyze := (analyzeTaskComplexity JSON_parse api CONFIG).
Local Abbreviation announced task w :=
  (after w [Log "info" ("Analyzing complexity of task " ++ show_id (td_id task)
                        ++ ": " ++ DQ ++ td_title task ++ DQ ++ "...")]).

(** A response that parses is returned as the object that has [taskId]
    set and then the members of the parsed value copied over it. *)
Lemma analyzeTaskComplexity_parsed task useResearch w w1 insights response data :
  gatherResearch api CONFIG useResearch "complexity analysis" task ""
    (announced task w) = Returns insights w1 ->
  generateContent api (List.length (calls (trace w1)))
    (Complexity task insights) = Answer response ->
  JSON_parse (extract_object response) = Parsed data ->
  analyze task useResearch w
  = Returns (JObj (Obj.assign [("taskId", json_of_id (td_id task))]
                     (Obj.own_props data)))
      (after w1 [Call (Complexity task insights)]).
Proof.
  intros HR HG HP. unfold analyzeTaskComplexity.
  unfold bind at 1, log at 1, emit at 1, bind at 1. rewrite HR.
  unfold try_catch at 1, bind at 1, perform. rewrite HG.
  unfold emit at 1, try_catch at 1. cbv zeta. now rewrite HP.
Qed.

(** When the model's object has no [taskId] of its own, the [taskId] of
    the result is the caller's. *)
Lemma analyzeTaskComplexity_taskId_when_absent
    task useResearch w w1 insights response fields :
  gatherResearch api CONFIG useResearch "complexity analysis" task ""
    (announced task w) = Returns insights w1 ->
  generateContent api (List.length (calls (trace w1)))
    (Complexity task insights) = Answer response ->
  JSON_parse (extract_object response) = Parsed (JObj fields) ->
  Obj.get "taskId" fields = None ->
  exists result w',
    analyze task useResearch w = Returns (JObj result) w'
    /\ Obj.get "taskId" result = Some (json_of_id (td_id task))
    /\ forall k, String.eqb k "taskId" = false ->
         Obj.get k fields = None -> Obj.get k result = None.
Proof.
  intros HR HG HP HN.
  rewrite (analyzeTaskComplexity_parsed _ _ _ _ _ _ _ HR HG HP).
  do 2 eexists. split; [reflexivity|]. split.
  - cbn [Obj.own_props]. rewrite assign_get_other by assumption.
    reflexivity.
  - intros k Hk Hf. cbn [Obj.own_props]. rewrite assign_get_other by assumption.
    simpl. now rewrite Hk.
Qed.

(** X16. A response that does not parse is an error, not a fallback:
    after the one request, [analyzeTaskComplexity] logs the parser's
    message and throws a fixed message worded by [handleGeminiError]. *)
Lemma analyzeTaskComplexity_parse_failure
    task useResearch w w1 insights response m :
  gatherResearch api CONFIG useResearch "complexity analysis" task ""
    (announced task w) = Returns insights w1 ->
  generateContent api (List.length (calls (trace w1)))
    (Complexity task insights) = Answer response ->
  JSON_parse (extract_object response) = SyntaxError m ->
  analyze task useResearch w
  = Throws
      (Error "Error communicating with Gemini: Failed to parse complexity analysis")
      (after w1
         [ Call (Complexity task insights);
           Log "error" ("Error parsing complexity JSON: " ++ m);
           Log "error" "Error communicating with Gemini: Failed to parse complexity analysis" ]).
Proof.
  intros HR HG HP. unfold analyzeTaskComplexity.
  unfold bind at 1, log at 1, emit at 1, bind at 1. rewrite HR.
  unfold try_catch at 1, bind at 1, perform. rewrite HG.
  unfold emit at 1, try_catch at 1. cbv zeta. rewrite HP.
  unfold throw at 1, bind at 1, log at 1, emit at 1, throw at 1. cbv zeta.
  unfold bind at 1, log at 1, emit at 1, throw.
  now rewrite !after_after.
Qed.

End Complexity.

(** C9. The task analysed has id 7, and the model's object carries a
    [taskId] of its own, 99.  The spread comes after [taskId] in the object
    literal, so the model's value replaces the caller's: the report comes
    back with [taskId] 99. *)
Theorem analyzeTaskComplexity_taskId_from_model :
  td_id Sample.task = IdNum 7
  /\ Json.parse Sample.complexity_with_taskId
     = Parsed (JObj [("taskId", JNum 99); ("complexityScore", JNum 5)])
  /\ analyzeTaskComplexity Json.parse
       (Sample.always Sample.complexity_with_taskId) Sample.quiet
       Sample.task false Sample.fresh
     = Returns (JObj [("taskId", JNum 99); ("complexityScore", JNum 5)])
         (after Sample.fresh
            [ Log "info" ("Analyzing complexity of task 7: " ++ JsString.DQ
                          ++ "Login" ++ JsString.DQ ++ "...");
              Call (Complexity Sample.task "") ]).
Proof. repeat split; vm_compute; reflexivity. Qed.


(* ------------------------------------------------------------------ *)
(** ** [cleanupJsonResponse] *)

Section Cleanup.

Import JsString.

Lemma substring_0_all (s : string) :
  String.substring 0 (String.length s) s = s.
Proof. induction s; simpl; congruence. Qed.

Lemma substring_0_length (n : nat) (s : string) :
  (n <= String.length s)%nat ->
  String.length (String.substring 0 n s) = n.
Proof.
  revert n. induction s as [|c r IH]; intros [|n] H; simpl in *;
    try lia; try reflexivity.
  rewrite IH; lia.
Qed.

Lemma lastIndexOf_bound (c : ascii) (s : string) (j : nat) :
  lastIndexOf c s = Some j -> (j < String.length s)%nat.
Proof.
  revert j. induction s as [|d r IH]; intros j H; simpl in *; [discriminate|].
  destruct (lastIndexOf c r) as [i|].
  - inversion H; subst. specialize (IH i eq_refl). lia.
  - destruct (Ascii.eqb c d); inversion H; lia.
Qed.

(** The text up to and including the last [c] still has its last [c] at
    the same place, now as its last character. *)
Lemma lastIndexOf_prefix (c : ascii) (s : string) (j : nat) :
  lastIndexOf c s = Some j ->
  lastIndexOf c (String.substring 0 (j + 1) s) = Some j.
Proof.
  revert j. induction s as [|d r IH]; intros j H; simpl in *; [discriminate|].
  destruct (lastIndexOf c r) as [i|] eqn:L.
  - inversion H; subst. simpl. rewrite (IH i eq_refl). reflexivity.
  - destruct (Ascii.eqb c d) eqn:E; inversion H; subst. simpl.
    destruct r; simpl; now rewrite E.
Qed.

(** Between the first [o] and the last [c] that follows it. *)
Lemma slice_keeps_its_ends (o c : ascii) (s : string) :
  forall i j,
    indexOf o s = Some i -> lastIndexOf c s = Some j -> (i <= j)%nat ->
    let t := String.substring i (j + 1 - i) s in
    indexOf o t = Some 0%nat
    /\ lastIndexOf c t = Some (j - i)%nat
    /\ String.length t = (j - i + 1)%nat.
Proof.
  induction s as [|d r IH]; intros i j Hi Hj Hle; simpl in Hi; [discriminate|].
  destruct (Ascii.eqb o d) eqn:E.
  - inversion Hi; subst i. rewrite !Nat.sub_0_r.
    pose proof (lastIndexOf_prefix _ _ _ Hj) as Hp.
    pose proof (lastIndexOf_bound _ _ _ Hj) as Hb.
    cbv zeta. repeat split.
    + replace (j + 1)%nat with (S j) by lia. simpl. now rewrite E.
    + exact Hp.
    + rewrite substring_0_length; lia.
  - destruct (indexOf o r) as [i'|] eqn:I; [|discriminate].
    inversion Hi; subst i. simpl in Hj.
    destruct (lastIndexOf c r) as [j'|] eqn:L.
    + inversion Hj; subst j.
      replace (S j' + 1 - S i')%nat with (j' + 1 - i')%nat by lia.
      replace (S j' - S i')%nat with (j' - i')%nat by lia.
      simpl. apply IH; auto. lia.
    + destruct (Ascii.eqb c d); inversion Hj; subst; lia.
Qed.

(** No [o] occurs before the first [o]. *)
Lemma indexOf_before_first (o : ascii) (s : string) :
  forall i a m,
    indexOf o s = Some i -> (a + m <= i)%nat ->
    indexOf o (String.substring a m s) = None.
Proof.
  induction s as [|d r IH]; intros i a m Hi Ham; simpl in Hi; [discriminate|].
  destruct (Ascii.eqb o d) eqn:E.
  - inversion Hi; subst. assert (a = 0 /\ m = 0)%nat as [-> ->] by lia.
    reflexivity.
  - destruct (indexOf o r) as [i'|] eqn:I; [|discriminate].
    inversion Hi; subst i. destruct a as [|a].
    + destruct m as [|m]; [reflexivity|]. simpl. rewrite E.
      rewrite (IH i' 0%nat m eq_refl); [reflexivity | lia].
    + simpl. apply (IH i'); [reflexivity | lia].
Qed.

(** X1. Cleaning up twice is cleaning up once: what
    [cleanupJsonResponse] returns is a text it leaves unchanged. *)
Theorem cleanupJsonResponse_idempotent (content : string) :
  cleanupJsonResponse (cleanupJsonResponse content)
  = cleanupJsonResponse content.
Proof.
  destruct (indexOf "{" content) as [i|] eqn:I;
    [destruct (lastIndexOf "}" content) as [j|] eqn:J|].
  - destruct (Nat.le_gt_cases i j) as [Hle|Hgt].
    + assert (E : cleanupJsonResponse content
                  = String.substring i (j + 1 - i) content).
      { unfold cleanupJsonResponse. rewrite I, J. unfold substring.
        now rewrite Nat.min_l, Nat.max_r by lia. }
      rewrite E.
      destruct (slice_keeps_its_ends _ _ _ _ _ I J Hle) as (H1 & H2 & H3).
      unfold cleanupJsonResponse. rewrite H1, H2. unfold substring.
      rewrite Nat.min_l, Nat.max_r, Nat.sub_0_r by lia.
      rewrite <- H3. apply substring_0_all.
    + assert (E : cleanupJsonResponse content
                  = String.substring (j + 1) (i - (j + 1)) content).
      { unfold cleanupJsonResponse. rewrite I, J. unfold substring.
        now rewrite Nat.min_r, Nat.max_l by lia. }
      rewrite E. unfold cleanupJsonResponse.
      rewrite (indexOf_before_first _ _ i (j + 1)%nat (i - (j + 1))%nat I)
        by lia.
      reflexivity.
  - assert (E : cleanupJsonResponse content = content)
      by (unfold cleanupJsonResponse; now rewrite I, J).
    now rewrite !E.
  - assert (E : cleanupJsonResponse content = content)
      by (unfold cleanupJsonResponse; now rewrite I).
    now rewrite !E.
Qed.

(** X2. When the first opening brace comes before the last closing brace,
    the candidate that [processGeminiResponse] cuts out of the cleaned
    text is the candidate it cut out of the text itself: a cleanup attempt
    parses the same characters again. *)
Theorem cleanup_attempt_parses_the_same_candidate
    (text : string) (jsonStart jsonEnd : nat) :
  indexOf "{" text = Some jsonStart ->
  lastIndexOf "}" text = Some jsonEnd ->
  (jsonStart <= jsonEnd)%nat ->
  exists start' end',
    indexOf "{" (cleanupJsonResponse text) = Some start'
    /\ lastIndexOf "}" (cleanupJsonResponse text) = Some end'
    /\ substring start' (end' + 1) (cleanupJsonResponse text)
       = substring jsonStart (jsonEnd + 1) text.
Proof.
  intros I J Hle.
  destruct (slice_keeps_its_ends _ _ _ _ _ I J Hle) as (H1 & H2 & H3).
  assert (E : cleanupJsonResponse text
              = String.substring jsonStart (jsonEnd + 1 - jsonStart) text).
  { unfold cleanupJsonResponse. rewrite I, J. unfold substring.
    now rewrite Nat.min_l, Nat.max_r by lia. }
  exists 0%nat, (jsonEnd - jsonStart)%nat. rewrite E. repeat split; auto.
  unfold substring at 1. rewrite Nat.min_l, Nat.max_r, Nat.sub_0_r by lia.
  rewrite <- H3, substring_0_all.
  unfold substring. now rewrite Nat.min_l, Nat.max_r by lia.
Qed.

End Cleanup.

Lemma cleanup_attempt_parses_the_same_candidate_witness :
  (JsString.indexOf "{" "Sure: {oops} done" = Some 6%nat
   /\ JsString.lastIndexOf "}" "Sure: {oops} done" = Some 11%nat
   /\ (6 <= 11)%nat)
  /\ exists start' end',
       JsString.indexOf "{" (cleanupJsonResponse "Sure: {oops} done")
       = Some start'
       /\ JsString.lastIndexOf "}" (cleanupJsonResponse "Sure: {oops} done")
          = Some end'
       /\ JsString.substring start' (end' + 1)
            (cleanupJsonResponse "Sure: {oops} done")
          = JsString.substring 6 (11 + 1) "Sure: {oops} done".
Proof.
  split.
  - split; [reflexivity | split; [reflexivity | lia]].
  - apply (cleanup_attempt_parses_the_same_candidate "Sure: {oops} done" 6 11);
      [reflexivity | reflexivity | lia].
Defined.

(* ------------------------------------------------------------------ *)
(** ** Spreading a value whose members are in key order *)

Lemma get_member (kv : string * json) (fs : list (string * json)) :
  In kv fs -> Obj.get (fst kv) fs <> None.
Proof.
  induction fs as [|[k v] r IH]; cbn [In Obj.get]; [easy|].
  intros [<-|Hin]; cbn [fst].
  - now rewrite String.eqb_refl.
  - destruct (String.eqb (fst kv) k); [discriminate | now apply IH].
Qed.

(** X15. Renumbering a subtask whose members are in JavaScript's key
    order, with distinct names, changes its [id] and nothing else: an
    [id] that the subtask has is overwritten where it stands, one that it
    lacks is added last, and every other member keeps its value and its
    place.  The members of a string or an array are its elements under
    their indices, so such a subtask becomes an object with these and the
    [id]; [null], a number or a boolean has no members and becomes an
    object with the [id] alone. *)
Theorem withSubtaskId_keeps_members
    (parent : task_id) (index : nat) (subtask : json) :
  NoDup (map fst (Obj.own_props subtask)) ->
  Obj.ordered (Obj.own_props subtask) = true ->
  let id := JStr (show_id parent ++ "." ++ JsString.of_nat (index + 1)) in
  let members := Obj.own_props subtask in
  withSubtaskId parent index subtask = JObj (Obj.set "id" id members)
  /\ (Obj.get "id" members = None ->
      Obj.set "id" id members = (members ++ [("id", id)])%list)
  /\ (forall old, Obj.get "id" members = Some old ->
        map fst (Obj.set "id" id members) = map fst members)
  /\ Obj.get "id" (Obj.set "id" id members) = Some id
  /\ (forall k, String.eqb k "id" = false ->
        Obj.get k (Obj.set "id" id members) = Obj.get k members).
Proof.
  intros ND HO id members. repeat split.
  - unfold withSubtaskId. fold members. now rewrite assign_copies.
  - intros G. now apply set_named_fresh.
  - intros old G. now apply (set_present_names "id" id old).
  - apply get_set_same.
  - intros k Hk. now apply get_set_other.
Qed.

Lemma withSubtaskId_keeps_members_witness :
  (NoDup (map fst (Obj.own_props (JStr "ab")))
   /\ Obj.ordered (Obj.own_props (JStr "ab")) = true)
  /\ withSubtaskId (IdNum 7) 0 (JStr "ab")
     = JObj [("0", JStr "a"); ("1", JStr "b"); ("id", JStr "7.1")].
Proof.
  assert (ND : NoDup (map fst (Obj.own_props (JStr "ab")))).
  { repeat constructor; simpl; intuition discriminate. }
  split; [split; [exact ND | reflexivity]|].
  exact (proj1 (withSubtaskId_keeps_members (IdNum 7) 0 (JStr "ab") ND
                  eq_refl)).
Defined.

(* ------------------------------------------------------------------ *)
(** ** The shape of a complexity report *)

Section ComplexityShape.

Variable JSON_parse : string -> parse_result.
Variable api : backend.
Variable CONFIG : config.

(** X17. Whenever the members of the parsed value are in JavaScript's key
    order, have distinct names and none of them is [taskId], the report
    holds the members of the parsed value unchanged and [taskId] besides;
    nothing else is checked or added.  [taskId] comes after the members
    whose names are array indices and before all the others, so it is the
    first member exactly when the parsed value has no array-index name:
    an array or a string puts its elements before it, and [null] or a
    number gives a report with [taskId] alone. *)
Theorem analyzeTaskComplexity_exact
    (task : taskData) (useResearch : bool) (w w1 : world)
    (insights response : string) (data : json) :
  gatherResearch api CONFIG useResearch "complexity analysis" task ""
    (after w [Log "info" ("Analyzing complexity of task "
                          ++ show_id (td_id task) ++ ": " ++ JsString.DQ
                          ++ td_title task ++ JsString.DQ ++ "...")])
  = Returns insights w1 ->
  generateContent api (List.length (calls (trace w1)))
    (Complexity task insights) = Answer response ->
  JSON_parse (Regex.extract Regex.object_body response) = Parsed data ->
  NoDup (map fst (Obj.own_props data)) ->
  Obj.ordered (Obj.own_props data) = true ->
  Obj.get "taskId" (Obj.own_props data) = None ->
  analyzeTaskComplexity JSON_parse api CONFIG task useResearch w
  = Returns
      (JObj (Obj.indices (Obj.own_props data)
             ++ ("taskId", json_of_id (td_id task))
                :: Obj.named (Obj.own_props data)))
      (after w1 [Call (Complexity task insights)])
  /\ (Obj.indices (Obj.own_props data) = [] ->
      analyzeTaskComplexity JSON_parse api CONFIG task useResearch w
      = Returns
          (JObj (("taskId", json_of_id (td_id task)) :: Obj.own_props data))
          (after w1 [Call (Complexity task insights)])).
Proof.
  intros HR HG HP ND HO HN.
  assert (Main :
    analyzeTaskComplexity JSON_parse api CONFIG task useResearch w
    = Returns
        (JObj (Obj.indices (Obj.own_props data)
               ++ ("taskId", json_of_id (td_id task))
                  :: Obj.named (Obj.own_props data)))
        (after w1 [Call (Complexity task insights)])).
  { rewrite (analyzeTaskComplexity_parsed _ _ _ _ _ _ _ _ _ _ HR HG HP).
    change [("taskId", json_of_id (td_id task))]
      with ([] ++ [("taskId", json_of_id (td_id task))])%list.
    rewrite (assign_in_key_order (Obj.own_props data) 0%N [] _ HO ND);
      [reflexivity | | intros kv [] | intros kv [<-|[]]; reflexivity].
    intros kv Hin. cbn [app Obj.get].
    destruct (String.eqb_spec (fst kv) "taskId") as [E|]; [|reflexivity].
    exfalso. apply (get_member kv _ Hin). now rewrite E. }
  split; [exact Main|].
  intros E. rewrite Main. pose proof (ordered_split _ 0%N HO) as Sp.
  rewrite E in *. cbn [app] in *. now rewrite Sp.
Qed.

End ComplexityShape.

Lemma analyzeTaskComplexity_exact_witness :
  (Json.parse
     (Regex.extract Regex.object_body
        ("{" ++ Sample.q "1" ++ ":" ++ Sample.q "x" ++ ","
             ++ Sample.q "complexityScore" ++ ":5}"))
   = Parsed (JObj [("1", JStr "x"); ("complexityScore", JNum 5)])
   /\ NoDup (map fst [("1", JStr "x"); ("complexityScore", JNum 5)])
   /\ Obj.ordered [("1", JStr "x"); ("complexityScore", JNum 5)] = true
   /\ Obj.get "taskId" [("1", JStr "x"); ("complexityScore", JNum 5)] = None)
  /\ analyzeTaskComplexity Json.parse
       (Sample.always ("{" ++ Sample.q "1" ++ ":" ++ Sample.q "x" ++ ","
                           ++ Sample.q "complexityScore" ++ ":5}"))
       Sample.quiet Sample.task false Sample.fresh
     = Returns
         (JObj [("1", JStr "x"); ("taskId", JNum 7);
                ("complexityScore", JNum 5)])
         (after Sample.fresh
            [ Log "info" ("Analyzing complexity of task 7: " ++ JsString.DQ
                          ++ "Login" ++ JsString.DQ ++ "...");
              Call (Complexity Sample.task "") ]).
Proof.
  assert (ND : NoDup (map fst [("1", JStr "x"); ("complexityScore", JNum 5)])).
  { repeat constructor; simpl; intuition discriminate. }
  split.
  - repeat split; try reflexivity. exact ND.
  - exact (proj1 (analyzeTaskComplexity_exact Json.parse
                    (Sample.always ("{" ++ Sample.q "1" ++ ":" ++ Sample.q "x"
                                        ++ "," ++ Sample.q "complexityScore"
                                        ++ ":5}"))
                    Sample.quiet Sample.task false Sample.fresh
                    (after Sample.fresh
                       [Log "info" ("Analyzing complexity of task 7: "
                                    ++ JsString.DQ ++ "Login" ++ JsString.DQ
                                    ++ "...")])
                    "" _ (JObj [("1", JStr "x"); ("complexityScore", JNum 5)])
                    eq_refl eq_refl eq_refl ND eq_refl eq_refl)).
Defined.

Lemma analyzeTaskComplexity_parse_failure_witness :
  (generateContent (Sample.always "I cannot say.") 0
     (Complexity Sample.task "") = Answer "I cannot say."
   /\ Json.parse (Regex.extract Regex.object_body "I cannot say.")
      = SyntaxError "Unexpected token in JSON")
  /\ analyzeTaskComplexity Json.parse (Sample.always "I cannot say.")
       Sample.quiet Sample.task false Sample.fresh
     = Throws
         (Error "Error communicating with Gemini: Failed to parse complexity analysis")
         (after Sample.fresh
            [ Log "info" ("Analyzing complexity of task 7: " ++ JsString.DQ
                          ++ "Login" ++ JsString.DQ ++ "...");
              Call (Complexity Sample.task "");
              Log "error" "Error parsing complexity JSON: Unexpected token in JSON";
              Log "error" "Error communicating with Gemini: Failed to parse complexity analysis" ]).
Proof.
  split.
  - split; reflexivity.
  - apply (analyzeTaskComplexity_parse_failure Json.parse
             (Sample.always "I cannot say.") Sample.quiet Sample.task false
             Sample.fresh
             (after Sample.fresh
                [Log "info" ("Analyzing complexity of task 7: " ++ JsString.DQ
                             ++ "Login" ++ JsString.DQ ++ "...")])
             "" "I cannot say." "Unexpected token in JSON"
             eq_refl eq_refl eq_refl).
Defined.


(* ------------------------------------------------------------------ *)
(** ** Extraction from a response without brackets *)

Section NoBracket.

Import JsString.

Variable c0 : ascii.

Lemma indexOf_tail (d : ascii) (t : string) :
  indexOf c0 (String d t) = None ->
  Ascii.eqb c0 d = false /\ indexOf c0 t = None.
Proof.
  simpl. destruct (Ascii.eqb c0 d); [discriminate|].
  destruct (indexOf c0 t); [discriminate | auto].
Qed.

(** On a text without [c0], a match can only succeed through its
    continuation, called on a text without [c0]. *)
Lemma run_fails {A : Type} (r : Regex.re) :
  forall (x : string) (cap : option string)
         (k : string -> option string -> option A),
    indexOf c0 x = None ->
    (forall y c, indexOf c0 y = None -> k y c = None) ->
    Regex.run r x cap k = None.
Proof.
  induction r as [|c| | |a IHa b IHb|a IHa|a IHa|a IHa];
    intros x cap k Hx Hk; cbn [Regex.run].
  - now apply Hk.
  - destruct x as [|d t]; [reflexivity|].
    destruct (Ascii.eqb c d); [|reflexivity].
    apply Hk. now apply (indexOf_tail d t).
  - destruct x as [|d t]; [reflexivity|].
    apply Hk. now apply (indexOf_tail d t).
  - destruct x as [|d t]; [reflexivity|].
    destruct (Regex.is_space d); [|reflexivity].
    apply Hk. now apply (indexOf_tail d t).
  - apply IHa; [assumption|]. intros y c1 Hy. now apply IHb.
  - rewrite IHa by assumption. now apply Hk.
  - generalize (String.length x) as fuel. intros fuel.
    revert x cap Hx. induction fuel as [|f IHf]; intros x cap Hx.
    + now apply Hk.
    + rewrite IHa; [now apply Hk | assumption |].
      intros y c1 Hy. destruct (String.length y <? String.length x)%nat;
        [now apply IHf | reflexivity].
  - apply IHa; [assumption|]. intros y c1 Hy. now apply Hk.
Qed.

Lemma search_none (r : Regex.re) (s : string) :
  (forall x, indexOf c0 x = None ->
     Regex.run r x None (fun _ cap => Some cap) = None) ->
  indexOf c0 s = None ->
  Regex.search r s = None.
Proof.
  intros Hr. induction s as [|d t IH]; intros Hs; simpl.
  - now rewrite Hr.
  - rewrite Hr by assumption. apply IH. now apply (indexOf_tail d t).
Qed.

Lemma run_Cat {A : Type} (a b : Regex.re) (x : string) (cap : option string)
    (k : string -> option string -> option A) :
  Regex.run (Regex.Cat a b) x cap k
  = Regex.run a x cap (fun y c1 => Regex.run b y c1 k).
Proof. reflexivity. Qed.

Lemma run_Group {A : Type} (a : Regex.re) (x : string) (cap : option string)
    (k : string -> option string -> option A) :
  Regex.run (Regex.Group a) x cap k
  = Regex.run a x cap
      (fun y _ =>
         k y (Some (String.substring 0 (String.length x - String.length y) x))).
Proof. reflexivity. Qed.

Lemma run_Chr_none {A : Type} (x : string) (cap : option string)
    (k : string -> option string -> option A) :
  indexOf c0 x = None -> Regex.run (Regex.Chr c0) x cap k = None.
Proof.
  intros Hx. destruct x as [|d t]; [reflexivity|]. cbn [Regex.run].
  now destruct (indexOf_tail d t Hx) as [-> _].
Qed.

(** Neither the fenced nor the bare pattern matches when the body starts
    with [c0] and the response has none. *)
Lemma extract_without (rest : Regex.re) (response : string) :
  indexOf c0 response = None ->
  Regex.extract (Regex.Cat (Regex.Chr c0) rest) response = response.
Proof.
  intros H. unfold Regex.extract.
  rewrite (search_none (Regex.fenced _) response); [|clear H|exact H].
  - rewrite (search_none (Regex.bare _) response); [reflexivity| |exact H].
    intros x Hx. unfold Regex.bare. rewrite run_Group, run_Cat.
    now apply run_Chr_none.
  - intros x Hx. unfold Regex.fenced.
    rewrite run_Cat. apply run_fails; [assumption|]. intros y1 c1 H1.
    rewrite run_Cat. apply run_fails; [assumption|]. intros y2 c2 H2.
    rewrite run_Cat. apply run_fails; [assumption|]. intros y3 c3 H3.
    rewrite run_Cat, run_Group, run_Cat. now apply run_Chr_none.
Qed.

End NoBracket.

(** X18. [createSubtasksWithGemini] and [fixSubtasksJson] hand the whole
    response to [JSON.parse] when it holds no opening square bracket, and
    [analyzeTaskComplexity] does when it holds no opening brace: neither
    of their two patterns can match. *)
Theorem extract_without_bracket (response : string) :
  (JsString.indexOf "[" response = None ->
   Regex.extract Regex.array_body response = response)
  /\ (JsString.indexOf "{" response = None ->
      Regex.extract Regex.object_body response = response).
Proof. split; apply extract_without. Qed.

Lemma extract_without_bracket_witness :
  JsString.indexOf "[" "```json {no array here} ```" = None
  /\ Regex.extract Regex.array_body "```json {no array here} ```"
     = "```json {no array here} ```".
Proof.
  split; [reflexivity|].
  apply (proj1 (extract_without_bracket "```json {no array here} ```")).
  reflexivity.
Defined.


(* ------------------------------------------------------------------ *)
(** ** PRD to tasks: bounds and outcomes *)

Section PrdBounds.

Import JsString.

Variable JSON_parse : string -> parse_result.
Variable TypeError_null : string.
Variable api : backend.
Variable CONFIG : config.

Local Abbreviation P_fuel := (processGeminiResponse_fuel JSON_parse TypeError_null api).
Local Abbreviation R_fuel := (retryWithGemini_fuel JSON_parse TypeError_null api).
Local Abbreviation validate := (validateTasks JSON_parse TypeError_null).

Ltac quiet_calls :=
  unfold after; cbn [trace]; rewrite ?calls_app; cbn [calls flat_map app];
  rewrite ?app_nil_r; auto.

(** Validation sends nothing, and leaves no trace when it fails. *)
Lemma validateTasks_world jsonContent n w :
  match validate jsonContent n w with
  | Returns _ w1 => calls (trace w1) = calls (trace w)
  | Throws _ w1 => w1 = w
  | OutOfFuel => False
  end.
Proof.
  unfold validateTasks. destruct (JSON_parse jsonContent) as [v|m]; [|reflexivity].
  destruct v; try reflexivity;
    destruct (tasks_array _); try reflexivity;
    destruct (negb _); run; quiet_calls.
Qed.

Section Fixed.

Variable n : Z.
Variable path : string.

Local Abbreviation repair := (fun problem => FixTasks problem n path).

Lemma P_R_repair_bound (fuel : nat) :
  (forall text rc prompt w,
     match P_fuel fuel text n rc prompt path w with
     | Returns _ w' =>
         exists problems,
           calls (trace w') = (calls (trace w) ++ map repair problems)%list
           /\ (List.length problems <= 2 - rc)%nat
     | Throws _ w' => (2 <= rc)%nat /\ calls (trace w') = calls (trace w)
     | OutOfFuel => True
     end)
  /\ (forall text rc prompt w,
        match R_fuel fuel text n rc prompt path w with
        | Returns _ w' | Throws _ w' =>
            exists problems,
              calls (trace w') = (calls (trace w) ++ map repair problems)%list
              /\ (List.length problems <= 1 + (2 - rc))%nat
        | OutOfFuel => True
        end).
Proof.
  induction fuel as [|f [IHP IHR]]; [split; intros; exact I|].
  assert (Outer : forall text rc prompt (error : js_error) w0 w,
    calls (trace w) = calls (trace w0) ->
    match
      (log "error" ("Error processing response: " ++ tpl (err_message error));;
       if (rc <? 2)%nat then
         log "info" ("Retrying with Gemini to fix the response, attempt "
                     ++ of_nat (rc + 1) ++ "/2");;
         promise_of (R_fuel f text n (rc + 1)%nat prompt path)
       else
         throw (Error ("Failed to process response: " ++ tpl (err_message error))))
        w
    with
    | Returns _ w' =>
        exists problems,
          calls (trace w') = (calls (trace w0) ++ map repair problems)%list
          /\ (List.length problems <= 2 - rc)%nat
    | Throws _ w' => (2 <= rc)%nat /\ calls (trace w') = calls (trace w0)
    | OutOfFuel => True
    end).
  { intros text rc prompt error w0 w Hw.
    unfold bind at 1, log at 1, emit at 1.
    destruct (Nat.ltb_spec rc 2) as [Hlt|Hge].
    - unfold bind at 1, log at 1, emit at 1, promise_of.
      match goal with
      | |- context [retryWithGemini_fuel _ _ _ f ?a ?b ?c ?d ?e ?x] =>
          pose proof (IHR a c d x) as T;
          destruct (R_fuel f a b c d e x)
      end; [| |exact I];
        destruct T as (problems & Hc & Hl); exists problems;
        (split; [|lia]); rewrite Hc; quiet_calls; now rewrite Hw.
    - unfold throw. split; [lia|]. quiet_calls. }
  split.
  - intros text rc prompt w. rewrite processGeminiResponse_fuel_S.
    unfold try_catch at 1.
    destruct (indexOf "{" text) as [jsonStart|];
      [destruct (lastIndexOf "}" text) as [jsonEnd|]|];
      try (unfold throw at 1; now apply Outer).
    unfold try_catch at 1.
    pose proof (validateTasks_world (substring jsonStart (jsonEnd + 1) text) n w) as V.
    destruct (validate _ _ w) as [r1 w1|e1 w1|]; [| |contradiction].
    + exists []. cbn. rewrite app_nil_r. split; [assumption | lia].
    + subst w1. unfold bind at 1. unfold log at 1, emit at 1.
      destruct (Nat.ltb_spec rc 3) as [Hlt|Hge].
      * unfold bind at 1. unfold log at 1, emit at 1.
        match goal with
        | |- context [processGeminiResponse_fuel _ _ _ f ?a ?b ?c ?d ?e ?x] =>
            pose proof (IHP a c d x) as T;
            destruct (P_fuel f a b c d e x) as [r2 w2|e2 w2|]
        end.
        -- destruct T as (problems & Hc & Hl). exists problems.
           split; [|lia]. rewrite Hc. quiet_calls.
        -- destruct T as [_ Hc]. apply Outer. rewrite Hc. quiet_calls.
        -- exact I.
      * unfold throw at 1. apply Outer. quiet_calls.
  - intros text rc prompt w. rewrite retryWithGemini_fuel_S.
    unfold bind at 1, try_catch at 1, bind at 1, log at 1, emit at 1, bind at 1, perform.
    unfold emit at 1.
    match goal with
    | |- context [generateContent api ?i ?q] =>
        destruct (generateContent api i q) as [fixed|error]
    end.
    + match goal with
      | |- context [processGeminiResponse_fuel _ _ _ f ?a ?b ?c ?d ?e ?x] =>
          pose proof (IHP a c d x) as T;
          destruct (P_fuel f a b c d e x) as [r2 w2|e2 w2|]
      end.
      * destruct T as (problems & Hc & Hl).
        destruct r2 as [v2|[v2|e2]]; run; exists (text :: problems);
          (split; [|cbn [List.length]; lia]); rewrite Hc; quiet_calls; cbn;
          now rewrite <- app_assoc.
      * destruct T as [_ Hc]. run. exists [text]. split; [|cbn [List.length]; lia].
        quiet_calls. rewrite Hc. quiet_calls.
      * exact I.
    + run. exists [text]. split; [|cbn [List.length]; lia]. quiet_calls.
Qed.

End Fixed.

(** X3. [processGeminiResponse] always comes to an end.  When it hands
    back a value or a promise, the only requests it has sent are repair
    requests for the same task count and file, at most [2 - retryCount] of
    them.  It throws only from retry count 2 on, and then it has sent
    nothing: below retry count 2 a failure comes back as a rejected
    promise. *)
Theorem processGeminiResponse_repair_bound
    (text : string) (n : Z) (rc : nat) (prompt : request) (path : string)
    (w : world) :
  match processGeminiResponse JSON_parse TypeError_null api text n rc
          prompt path w with
  | Returns _ w' =>
      exists problems,
        calls (trace w')
        = (calls (trace w)
           ++ map (fun problem => FixTasks problem n path) problems)%list
        /\ (List.length problems <= 2 - rc)%nat
  | Throws _ w' => (2 <= rc)%nat /\ calls (trace w') = calls (trace w)
  | OutOfFuel => False
  end.
Proof.
  pose proof (processGeminiResponse_total JSON_parse TypeError_null api
                text n rc prompt path w) as Tot.
  pose proof (proj1 (P_R_repair_bound n path (S (2 * (3 - rc))))
                text rc prompt w) as B.
  change (P_fuel (S (2 * (3 - rc))) text n rc prompt path w)
    with (processGeminiResponse JSON_parse TypeError_null api text n rc
            prompt path w) in B.
  destruct (processGeminiResponse JSON_parse TypeError_null api text n rc
              prompt path w); [exact B | exact B | congruence].
Qed.

End PrdBounds.


(* ------------------------------------------------------------------ *)
(** ** [callGemini]: what comes back, and when it tries again *)

Lemma toLowerCase_app (a b : string) :
  JsString.toLowerCase (a ++ b)
  = JsString.toLowerCase a ++ JsString.toLowerCase b.
Proof. induction a; simpl; congruence. Qed.

Lemma includes_app_r (sub a b : string) :
  JsString.includes sub b = true -> JsString.includes sub (a ++ b) = true.
Proof.
  intros H. induction a as [|c r IH]; [exact H|].
  change (String c r ++ b) with (String c (r ++ b)).
  cbn [JsString.includes]. rewrite IH. now destruct (prefix sub _).
Qed.

(** A prefix put before a message keeps it retryable. *)
Lemma retryable_prefixed (p m : string) :
  retryable (Error m) = true -> retryable (Error (p ++ m)) = true.
Proof.
  unfold retryable, message_includes. cbn [err_message Error].
  rewrite toLowerCase_app, !orb_true_iff.
  intros [[[H|H]|H]|H]; rewrite (includes_app_r _ _ _ H);
    rewrite ?orb_true_r; auto.
Qed.

Section CallGemini.

Import JsString.

Variable JSON_parse : string -> parse_result.
Variable TypeError_null : string.
Variable api : backend.
Variable CONFIG : config.

Local Abbreviation stream_request :=
  (handleStreamingRequest JSON_parse TypeError_null api CONFIG).
Local Abbreviation callGemini_from :=
  (callGemini_fuel JSON_parse TypeError_null api CONFIG).
Local Abbreviation process :=
  (processGeminiResponse JSON_parse TypeError_null api).
Local Abbreviation full_error error :=
  (if debug CONFIG then [LogDetail "debug" "Full error:" error] else []).

Ltac trace_of :=
  unfold after; cbn [trace];
  rewrite ?calls_app, ?sleeps_app; cbn [calls sleeps flat_map app];
  rewrite ?app_nil_r; auto.

Lemma calls_full_error error : calls (full_error error) = [].
Proof. now destruct (debug CONFIG). Qed.

Lemma sleeps_full_error error : sleeps (full_error error) = [].
Proof. now destruct (debug CONFIG). Qed.

(** What [handleStreamingRequest] does once the stream has been read. *)
Lemma handleStreamingRequest_answer prompt path n w chunks :
  generateContentStream api (List.length (calls (trace w))) prompt
  = Answer chunks ->
  stream_request prompt path n w
  = (r <- try_catch
            (process (String.concat "" chunks) n 0 prompt path)
            (fun error =>
               let userMessage := handleGeminiError error in
               log "error" userMessage;;
               console_error userMessage;;
               when (debug CONFIG) (emit (LogDetail "debug" "Full error:" error));;
               throw (Error userMessage));;
     adopt r)
      (after w [Call prompt;
                Log "info" "Completed streaming response from Gemini API!"]).
Proof.
  intros H. unfold handleStreamingRequest.
  unfold bind at 1, try_catch at 1, bind at 1, perform. rewrite H.
  unfold emit at 1. cbv zeta. unfold bind at 1, log at 1, emit at 1.
  rewrite after_after. reflexivity.
Qed.

Lemma handleStreamingRequest_returns_tasks prompt path n w v w' :
  stream_request prompt path n w = Returns v w' ->
  tasks_array v <> None.
Proof.
  unfold handleStreamingRequest.
  unfold bind at 1, try_catch at 1, bind at 1, perform.
  destruct (generateContentStream api _ _) as [chunks|raw].
  - unfold emit at 1. cbv zeta. unfold bind at 1, log at 1, emit at 1.
    match goal with
    | |- context [processGeminiResponse _ _ _ ?a ?b ?c ?d ?e ?x] =>
        pose proof (processGeminiResponse_carries_tasks JSON_parse
                      TypeError_null api a b c d e x) as T;
        destruct (process a b c d e x) as [r w1|e1 w1|]
    end.
    + specialize (T r w1 eq_refl).
      destruct r as [v1|[v1|e1]]; run; intros H; inversion H; subst; exact T.
    + unfold bind at 1, log at 1, emit at 1, bind at 1, console_error at 1, emit at 1.
      unfold bind at 1. rewrite when_debug. run. discriminate.
    + discriminate.
  - unfold emit at 1. cbv zeta.
    unfold bind at 1, log at 1, emit at 1, bind at 1, console_error at 1, emit at 1.
    unfold bind at 1. rewrite when_debug. run. discriminate.
Qed.

Lemma callGemini_fuel_returns_tasks fuel prdContent prdPath n :
  forall rc w v w',
    callGemini_from fuel prdContent prdPath n rc w = Returns v w' ->
    tasks_array v <> None.
Proof.
  induction fuel as [|f IH]; intros rc w v w' H; [discriminate|].
  pose (w0 := after w [Log "info" "Calling Gemini..."]).
  destruct (stream_request (GenerateTasks prdContent prdPath n) prdPath n w0)
    as [v1 w1|error w1|] eqn:E.
  - rewrite (callGemini_success _ _ _ _ _ _ _ _ _ _ _ _ E) in H.
    inversion H; subst. eapply handleStreamingRequest_returns_tasks; eauto.
  - rewrite (callGemini_catch _ _ _ _ _ _ _ _ _ _ _ _ E) in H.
    destruct ((rc <? 2)%nat && retryable error); [|discriminate].
    eapply IH; eauto.
  - exfalso.
    now apply (proj1 (handleStreamingRequest_no_sleep JSON_parse TypeError_null
                        api CONFIG (GenerateTasks prdContent prdPath n)
                        prdPath n w0)).
Qed.

(** X5. Whatever [callGemini] resolves to, after however many attempts and
    repairs, has a [tasks] member that is an array. *)
Theorem callGemini_returns_tasks
    (prdContent prdPath : string) (n : Z) (rc : nat) (w : world)
    (v : json) (w' : world) :
  callGemini JSON_parse TypeError_null api CONFIG prdContent prdPath n rc w
  = Returns v w' ->
  exists tasks, tasks_array v = Some tasks.
Proof.
  intros H. apply callGemini_fuel_returns_tasks in H.
  destruct (tasks_array v) as [tasks|]; [now exists tasks | contradiction].
Qed.

(** X6. When the stream ends and the text between the first opening and
    the last closing brace of the concatenated chunks parses to a value
    with a [tasks] array, [callGemini] resolves to that value after this
    one request, without waiting; a task count other than [numTasks] only
    adds a warning. *)
Theorem callGemini_first_attempt_succeeds
    (prdContent prdPath : string) (n : Z) (rc : nat) (w : world)
    (chunks : list string) (jsonStart jsonEnd : nat) (result : json)
    (tasks : list json) :
  generateContentStream api (List.length (calls (trace w)))
    (GenerateTasks prdContent prdPath n) = Answer chunks ->
  indexOf "{" (String.concat "" chunks) = Some jsonStart ->
  lastIndexOf "}" (String.concat "" chunks) = Some jsonEnd ->
  JSON_parse (substring jsonStart (jsonEnd + 1) (String.concat "" chunks))
  = Parsed result ->
  tasks_array result = Some tasks ->
  callGemini JSON_parse TypeError_null api CONFIG prdContent prdPath n rc w
  = Returns result
      (after w
         ([ Log "info" "Calling Gemini...";
            Call (GenerateTasks prdContent prdPath n);
            Log "info" "Completed streaming response from Gemini API!" ]
          ++ if Z.of_nat (List.length tasks) =? n then []
             else [Log "warn" ("Expected " ++ of_Z n ++ " tasks, but got "
                               ++ of_nat (List.length tasks))])).
Proof.
  intros HG HS HE HP HT. unfold callGemini.
  apply callGemini_success.
  rewrite (handleStreamingRequest_answer _ _ _ _ chunks)
    by (unfold after; cbn [trace]; rewrite calls_app; cbn;
        now rewrite app_nil_r).
  unfold bind at 1, try_catch at 1, processGeminiResponse.
  rewrite processGeminiResponse_fuel_S. unfold try_catch.
  rewrite HS, HE.
  rewrite (validateTasks_accepts _ _ _ _ _ _ _ HP HT).
  unfold adopt, ret. now rewrite !after_after.
Qed.

(** A failed attempt that is followed by another one. *)
Lemma callGemini_tries_again f prdContent prdPath n rc w raw :
  generateContentStream api (List.length (calls (trace w)))
    (GenerateTasks prdContent prdPath n) = Failure raw ->
  retryable (Error (handleGeminiError raw)) = true ->
  (rc < 2)%nat ->
  exists w1,
    callGemini_from (S f) prdContent prdPath n rc w
    = callGemini_from f prdContent prdPath n (rc + 1)%nat w1
    /\ calls (trace w1)
       = (calls (trace w) ++ [GenerateTasks prdContent prdPath n])%list
    /\ sleeps (trace w1)
       = (sleeps (trace w) ++ [(Z.of_nat rc + 1) * 5000])%list.
Proof.
  intros HF HR Hlt.
  erewrite callGemini_catch.
  2:{ apply handleStreamingRequest_failure.
      unfold after; cbn [trace]. rewrite calls_app; cbn [calls flat_map app].
      rewrite app_nil_r. exact HF. }
  rewrite HR, andb_true_r.
  destruct (Nat.ltb_spec rc 2); [|lia].
  eexists. split; [reflexivity|]. unfold after; cbn [trace].
  rewrite !calls_app, !sleeps_app, calls_full_error, sleeps_full_error. cbn.
  now rewrite !app_nil_r.
Qed.

(** A failed attempt that is the last one. *)
Lemma callGemini_gives_up f prdContent prdPath n rc w raw :
  generateContentStream api (List.length (calls (trace w)))
    (GenerateTasks prdContent prdPath n) = Failure raw ->
  (2 <= rc)%nat \/ retryable (Error (handleGeminiError raw)) = false ->
  exists w1,
    callGemini_from (S f) prdContent prdPath n rc w
    = Throws (Error (handleGeminiError (Error (handleGeminiError raw)))) w1
    /\ calls (trace w1)
       = (calls (trace w) ++ [GenerateTasks prdContent prdPath n])%list
    /\ sleeps (trace w1) = sleeps (trace w).
Proof.
  intros HF HN.
  erewrite callGemini_catch.
  2:{ apply handleStreamingRequest_failure.
      unfold after; cbn [trace]. rewrite calls_app; cbn [calls flat_map app].
      rewrite app_nil_r. exact HF. }
  assert (((rc <? 2)%nat && retryable (Error (handleGeminiError raw))) = false)
    as ->.
  { destruct HN as [Hge| ->]; [|apply andb_false_r].
    destruct (Nat.ltb_spec rc 2); [lia | reflexivity]. }
  eexists. split; [reflexivity|]. unfold after; cbn [trace].
  rewrite !calls_app, !sleeps_app, !calls_full_error, !sleeps_full_error. cbn.
  now rewrite !app_nil_r.
Qed.

(** X7. When every streamed request fails and [handleGeminiError] words
    each failure retryably (an overload, a rate limit, a network error),
    [callGemini] makes exactly three requests, waits 5000 ms and then
    10000 ms between them, and throws. *)
Theorem callGemini_exhausts_retries
    (prdContent prdPath : string) (n : Z) (w : world) :
  (forall i, exists raw,
      generateContentStream api i (GenerateTasks prdContent prdPath n)
      = Failure raw
      /\ retryable (Error (handleGeminiError raw)) = true) ->
  exists raw w',
    callGemini JSON_parse TypeError_null api CONFIG prdContent prdPath n 0 w
    = Throws (Error (handleGeminiError (Error (handleGeminiError raw)))) w'
    /\ calls (trace w')
       = (calls (trace w) ++ [ GenerateTasks prdContent prdPath n;
                               GenerateTasks prdContent prdPath n;
                               GenerateTasks prdContent prdPath n ])%list
    /\ sleeps (trace w') = (sleeps (trace w) ++ [5000; 10000])%list.
Proof.
  intros Hall. unfold callGemini. cbn [Nat.sub].
  destruct (Hall (List.length (calls (trace w)))) as (raw1 & F1 & R1).
  destruct (callGemini_tries_again 2 prdContent prdPath n 0 w raw1 F1 R1)
    as (w1 & -> & C1 & S1); [lia|]. change (0 + 1)%nat with 1%nat.
  destruct (Hall (List.length (calls (trace w1)))) as (raw2 & F2 & R2).
  destruct (callGemini_tries_again 1 prdContent prdPath n 1 w1 raw2 F2 R2)
    as (w2 & -> & C2 & S2); [lia|]. change (1 + 1)%nat with 2%nat.
  destruct (Hall (List.length (calls (trace w2)))) as (raw3 & F3 & R3).
  destruct (callGemini_gives_up 0 prdContent prdPath n 2 w2 raw3 F3)
    as (w3 & -> & C3 & S3); [left; lia|].
  exists raw3, w3. split; [reflexivity|].
  rewrite C3, C2, C1, S3, S2, S1, <- !app_assoc. split; reflexivity.
Qed.

(** X8. When the streamed request fails and [handleGeminiError] words the
    failure without any of the four retry terms (an invalid request, a
    timeout, any other failure whose own message has none of them),
    [callGemini] gives up at once, at any retry count: one request, no
    waiting, and the message thrown is the re-worded message worded once
    more. *)
Theorem callGemini_fails_at_once
    (prdContent prdPath : string) (n : Z) (rc : nat) (w : world)
    (raw : js_error) :
  generateContentStream api (List.length (calls (trace w)))
    (GenerateTasks prdContent prdPath n) = Failure raw ->
  retryable (Error (handleGeminiError raw)) = false ->
  exists w',
    callGemini JSON_parse TypeError_null api CONFIG prdContent prdPath n rc w
    = Throws (Error (handleGeminiError (Error (handleGeminiError raw)))) w'
    /\ calls (trace w')
       = (calls (trace w) ++ [GenerateTasks prdContent prdPath n])%list
    /\ sleeps (trace w') = sleeps (trace w).
Proof.
  intros HF HR. unfold callGemini.
  apply (callGemini_gives_up _ _ _ _ _ _ raw HF). now right.
Qed.

(** A repair request that fails rejects with the provider's own message
    behind a fixed prefix. *)
Lemma failed_repair_rejects prompt path n w chunks raw :
  generateContentStream api (List.length (calls (trace w))) prompt
  = Answer chunks ->
  indexOf "{" (String.concat "" chunks) = None ->
  generateContent api (S (List.length (calls (trace w))))
    (FixTasks (String.concat "" chunks) n path) = Failure raw ->
  exists w1,
    stream_request prompt path n w
    = Throws (Error ("Failed to fix JSON response: " ++ tpl (err_message raw)))
        w1
    /\ calls (trace w1)
       = (calls (trace w)
          ++ [prompt; FixTasks (String.concat "" chunks) n path])%list
    /\ sleeps (trace w1) = sleeps (trace w).
Proof.
  intros HG HS HF.
  rewrite (handleStreamingRequest_answer _ _ _ _ chunks HG).
  unfold bind at 1, try_catch at 1, processGeminiResponse.
  cbn [Nat.sub Nat.mul Nat.add].
  rewrite processGeminiResponse_fuel_S. unfold try_catch at 1.
  rewrite HS. unfold throw at 1, bind at 1, log at 1, emit at 1.
  cbn [Nat.ltb Nat.leb]. unfold bind at 1, log at 1, emit at 1.
  unfold promise_of. rewrite retryWithGemini_fuel_S.
  unfold bind at 1, try_catch at 1, bind at 1, log at 1, emit at 1,
    bind at 1, perform.
  match goal with
  | |- context [generateContent api ?i ?q] =>
      replace i with (S (List.length (calls (trace w))))
        by (unfold after; cbn [trace]; rewrite !calls_app, !length_app;
            cbn; lia)
  end.
  rewrite HF. run. eexists. split; [reflexivity|].
  unfold after; cbn [trace]. rewrite !calls_app, !sleeps_app. cbn.
  now rewrite !app_nil_r, <- !app_assoc.
Qed.

(** X9. A repair request that fails is not worded anew: the rejection
    carries the provider's own message behind a fixed prefix.  So when the
    streamed text has no opening brace and the repair request fails with a
    message that has one of the four retry terms, a timeout included,
    [callGemini] waits 5000 ms and starts the generation again. *)
Theorem callGemini_retries_after_failed_repair
    (prdContent prdPath : string) (n : Z) (w : world)
    (chunks : list string) (raw : js_error) (m : string) :
  generateContentStream api (List.length (calls (trace w)))
    (GenerateTasks prdContent prdPath n) = Answer chunks ->
  indexOf "{" (String.concat "" chunks) = None ->
  generateContent api (S (List.length (calls (trace w))))
    (FixTasks (String.concat "" chunks) n prdPath) = Failure raw ->
  err_message raw = Some m ->
  retryable (Error m) = true ->
  exists w1,
    callGemini JSON_parse TypeError_null api CONFIG prdContent prdPath n 0 w
    = callGemini JSON_parse TypeError_null api CONFIG prdContent prdPath n 1 w1
    /\ calls (trace w1)
       = (calls (trace w)
          ++ [ GenerateTasks prdContent prdPath n;
               FixTasks (String.concat "" chunks) n prdPath ])%list
    /\ sleeps (trace w1) = (sleeps (trace w) ++ [5000])%list.
Proof.
  intros HG HS HF HM HR. unfold callGemini. cbn [Nat.sub].
  assert (Hc : calls (trace (after w [Log "info" "Calling Gemini..."]))
               = calls (trace w))
    by (unfold after; cbn [trace]; rewrite calls_app; cbn;
        now rewrite app_nil_r).
  destruct (failed_repair_rejects (GenerateTasks prdContent prdPath n) prdPath
              n (after w [Log "info" "Calling Gemini..."]) chunks raw)
    as (w1 & E & C1 & S1); rewrite ?Hc; auto.
  rewrite (callGemini_catch _ _ _ _ _ _ _ _ _ _ _ _ E).
  rewrite HM. cbn [tpl Nat.ltb Nat.leb andb].
  rewrite (retryable_prefixed _ _ HR).
  eexists. split; [reflexivity|]. unfold after; cbn [trace].
  rewrite !calls_app, !sleeps_app, C1, S1. unfold after; cbn [trace].
  rewrite !calls_app, !sleeps_app. cbn. now rewrite !app_nil_r.
Qed.

(** One streamed request and what it takes to repair its text. *)
Lemma handleStreamingRequest_calls prompt path n w :
  match stream_request prompt path n w with
  | Returns _ w' | Throws _ w' =>
      exists problems,
        calls (trace w')
        = (calls (trace w)
           ++ prompt :: map (fun problem => FixTasks problem n path) problems)%list
        /\ (List.length problems <= 2)%nat
  | OutOfFuel => False
  end.
Proof.
  unfold handleStreamingRequest.
  unfold bind at 1, try_catch at 1, bind at 1, perform.
  destruct (generateContentStream api _ _) as [chunks|raw].
  - unfold emit at 1. cbv zeta. unfold bind at 1, log at 1, emit at 1.
    match goal with
    | |- context [processGeminiResponse _ _ _ ?a ?b ?c ?d ?e ?x] =>
        pose proof (processGeminiResponse_total JSON_parse TypeError_null api
                      a b c d e x) as Tot;
        pose proof (proj1 (P_R_repair_bound JSON_parse TypeError_null api b e
                             (S (2 * (3 - c)))) a c d x) as T;
        change (processGeminiResponse_fuel JSON_parse TypeError_null api
                  (S (2 * (3 - c))) a b c d e x)
          with (processGeminiResponse JSON_parse TypeError_null api a b c d e x)
          in T;
        destruct (processGeminiResponse JSON_parse TypeError_null api a b c d e x)
          as [r w1|e1 w1|]
    end.
    + destruct T as (problems & C & L).
      destruct r as [v|[v|e]]; run; exists problems; (split; [|lia]);
        rewrite ?calls_full_error; trace_of; rewrite C; trace_of;
        destruct (debug CONFIG); trace_of.
      all: now rewrite <- app_assoc.
    + exfalso. lia.
    + congruence.
  - unfold emit at 1. cbv zeta.
    unfold bind at 1, log at 1, emit at 1, bind at 1, console_error at 1, emit at 1.
    unfold bind at 1. rewrite when_debug. run. exists []. split; [|cbn; lia].
    destruct (debug CONFIG); trace_of.
Qed.

Lemma callGemini_fuel_calls fuel prdContent prdPath n rc w :
  (3 - rc <= fuel)%nat -> (1 <= fuel)%nat ->
  match callGemini_from fuel prdContent prdPath n rc w with
  | Returns _ w' | Throws _ w' =>
      exists requests,
        calls (trace w') = (calls (trace w) ++ requests)%list
        /\ (List.length requests <= 3 * S (2 - rc))%nat
        /\ Forall (fun r => r = GenerateTasks prdContent prdPath n
                            \/ exists problem, r = FixTasks problem n prdPath)
             requests
  | OutOfFuel => False
  end.
Proof.
  revert rc w. induction fuel as [|f IH]; intros rc w Hf H1; [lia|].
  pose (w0 := after w [Log "info" "Calling Gemini..."]).
  pose proof (handleStreamingRequest_calls
                (GenerateTasks prdContent prdPath n) prdPath n w0) as B.
  assert (Shape : forall problems : list string,
            Forall (fun r => r = GenerateTasks prdContent prdPath n
                             \/ exists problem, r = FixTasks problem n prdPath)
              (GenerateTasks prdContent prdPath n
               :: map (fun problem => FixTasks problem n prdPath) problems)).
  { intros problems. constructor; [now left|]. apply Forall_forall.
    intros r Hin. apply in_map_iff in Hin as (p & <- & _). right. now exists p. }
  destruct (stream_request (GenerateTasks prdContent prdPath n) prdPath n w0)
    as [v w1|error w1|] eqn:E; [| |contradiction];
    destruct B as (problems & C & L).
  - rewrite (callGemini_success _ _ _ _ _ _ _ _ _ _ _ _ E).
    eexists. split; [|split; [|apply (Shape problems)]].
    + rewrite C. subst w0. trace_of.
    + cbn [List.length]. rewrite length_map. lia.
  - rewrite (callGemini_catch _ _ _ _ _ _ _ _ _ _ _ _ E).
    assert (Stop :
      exists requests,
        calls (trace (after w1
                        ([ Log "error" (handleGeminiError error);
                           ConsoleError (handleGeminiError error) ]
                         ++ full_error error)))
        = (calls (trace w) ++ requests)%list
        /\ (List.length requests <= 3 * S (2 - rc))%nat
        /\ Forall (fun r => r = GenerateTasks prdContent prdPath n
                            \/ exists problem, r = FixTasks problem n prdPath)
             requests).
    { eexists. split; [|split; [|apply (Shape problems)]].
      - destruct (debug CONFIG); trace_of; rewrite C; subst w0; trace_of.
      - cbn [List.length]. rewrite length_map. lia. }
    destruct (Nat.ltb_spec rc 2) as [Hlt|Hge]; cbn [andb]; [|exact Stop].
    destruct (retryable error); [|exact Stop].
    match goal with
    | |- context [callGemini_fuel _ _ _ _ f ?a ?b ?c ?d ?x] =>
        pose proof (IH d x) as T;
        destruct (callGemini_from f a b c d x) as [v' w'|e' w'|]
    end.
    1,2: destruct T as (requests & C' & L' & F'); [lia | lia |];
      exists ((GenerateTasks prdContent prdPath n
               :: map (fun problem => FixTasks problem n prdPath) problems)
              ++ requests)%list;
      (split; [|split; [|apply Forall_app; split; [apply Shape | exact F']]]);
      [ rewrite C'; trace_of; rewrite C; subst w0; trace_of;
        now rewrite <- !app_assoc
      | rewrite length_app; cbn [List.length]; rewrite length_map;
        replace (2 - (rc + 1))%nat with (2 - rc - 1)%nat in L' by lia; lia ].
    apply T; lia.
Qed.

(** X4. [callGemini] always comes to an end, and its cost is bounded: it
    sends at most nine requests (three generation requests, each followed
    by at most two repair requests of the same task count and file) and
    sends nothing else; between attempts it waits 5000 ms and then
    10000 ms, and nothing else waits. *)
Theorem callGemini_cost_bound
    (prdContent prdPath : string) (n : Z) (w : world) :
  match callGemini JSON_parse TypeError_null api CONFIG prdContent prdPath n 0 w
  with
  | Returns _ w' | Throws _ w' =>
      exists requests delays,
        calls (trace w') = (calls (trace w) ++ requests)%list
        /\ (List.length requests <= 9)%nat
        /\ Forall (fun r => r = GenerateTasks prdContent prdPath n
                            \/ exists problem, r = FixTasks problem n prdPath)
             requests
        /\ sleeps (trace w') = (sleeps (trace w) ++ delays)%list
        /\ (delays = [] \/ delays = [5000] \/ delays = [5000; 10000])
  | OutOfFuel => False
  end.
Proof.
  unfold callGemini. cbn [Nat.sub].
  pose proof (callGemini_fuel_calls 3 prdContent prdPath n 0 w) as B.
  destruct (callGemini_fuel_retry_bound JSON_parse TypeError_null api CONFIG
              3 prdContent prdPath n 0 w) as [Tot [k [Hk Hs]]]; [lia | lia |].
  assert (D : forall k, (k <= 2)%nat ->
            let delays := map (fun i => (Z.of_nat i + 1) * 5000) (seq 0 k) in
            delays = [] \/ delays = [5000] \/ delays = [5000; 10000]).
  { intros [|[|[|k']]] Hk'; try lia; cbn; auto. }
  destruct (callGemini_from 3 prdContent prdPath n 0 w) as [v w'|e w'|];
    cbn [world_of] in Hs.
  1,2: destruct B as (requests & C & L & F); [lia | lia |];
    exists requests, (map (fun i => (Z.of_nat i + 1) * 5000) (seq 0 k));
    repeat split; auto; try (cbn in L; lia); apply D; lia.
  apply B; lia.
Qed.

End CallGemini.


(* ------------------------------------------------------------------ *)
(** ** Research: the client and the retry bound *)

(** X10. Once [getPerplexityClient] has returned a client, that client is
    the module's client: every later call returns it and changes nothing,
    whatever the key in the environment has become.  A call never logs
    and never touches the environment; a client that had to be created
    carries the key of that moment and the Perplexity endpoint. *)
Theorem getPerplexityClient_reuses_client
    (w : world) (client : OpenAI) (w1 : world) :
  getPerplexityClient w = Returns client w1 ->
  perplexity w1 = Some client
  /\ trace w1 = trace w
  /\ PERPLEXITY_API_KEY w1 = PERPLEXITY_API_KEY w
  /\ (forall w2, perplexity w2 = Some client ->
        getPerplexityClient w2 = Returns client w2)
  /\ (perplexity w = None ->
      PERPLEXITY_API_KEY w = Some (apiKey client)
      /\ apiKey client <> ""
      /\ baseURL client = "https://api.perplexity.ai").
Proof.
  unfold getPerplexityClient at 1.
  destruct (perplexity w) as [c|] eqn:P.
  - intros H; inversion H; subst. repeat split; auto.
    + intros w2 H2. unfold getPerplexityClient. now rewrite H2.
    + discriminate.
    + discriminate.
    + discriminate.
  - destruct (PERPLEXITY_API_KEY w) as [[|c k]|] eqn:K; try discriminate.
    intros H; inversion H; subst. cbn. repeat split; auto.
    + intros w2 H2. unfold getPerplexityClient. now rewrite H2.
    + discriminate.
Qed.

Lemma getPerplexityClient_reuses_client_witness :
  getPerplexityClient
    {| PERPLEXITY_API_KEY := Some "pplx-key"; perplexity := None; trace := [] |}
  = Returns {| apiKey := "pplx-key"; baseURL := "https://api.perplexity.ai" |}
      {| PERPLEXITY_API_KEY := Some "pplx-key";
         perplexity := Some {| apiKey := "pplx-key";
                               baseURL := "https://api.perplexity.ai" |};
         trace := [] |}
  /\ getPerplexityClient
       {| PERPLEXITY_API_KEY := None;
          perplexity := Some {| apiKey := "pplx-key";
                                baseURL := "https://api.perplexity.ai" |};
          trace := [] |}
     = Returns {| apiKey := "pplx-key"; baseURL := "https://api.perplexity.ai" |}
         {| PERPLEXITY_API_KEY := None;
            perplexity := Some {| apiKey := "pplx-key";
                                  baseURL := "https://api.perplexity.ai" |};
            trace := [] |}.
Proof.
  split; [reflexivity|].
  apply (getPerplexityClient_reuses_client
           {| PERPLEXITY_API_KEY := Some "pplx-key"; perplexity := None;
              trace := [] |}
           {| apiKey := "pplx-key"; baseURL := "https://api.perplexity.ai" |}
           _ eq_refl).
  reflexivity.
Defined.

Section ResearchBound.

Import JsString.

Variable api : backend.
Variable CONFIG : config.

Local Abbreviation research_from := (expandTaskWithResearch_fuel api CONFIG).
Local Abbreviation delay := (fun i : nat => (Z.of_nat i + 1) * 5000).

Ltac quiet_sleeps :=
  unfold after; cbn [trace]; rewrite ?sleeps_app; cbn [sleeps flat_map app];
  rewrite ?app_nil_r; auto.

Lemma getPerplexityClient_trace w :
  match getPerplexityClient w with
  | Returns _ w1 | Throws _ w1 => trace w1 = trace w
  | OutOfFuel => False
  end.
Proof.
  unfold getPerplexityClient. destruct (perplexity w); [reflexivity|].
  destruct (PERPLEXITY_API_KEY w) as [[|c k]|]; reflexivity.
Qed.

Lemma expandTaskWithGemini_outcome task prompt isSubtask w :
  match expandTaskWithGemini api task prompt isSubtask w with
  | Returns _ w' => sleeps (trace w') = sleeps (trace w)
  | Throws e w' =>
      sleeps (trace w') = sleeps (trace w)
      /\ exists raw, e = Error (handleGeminiError raw)
  | OutOfFuel => False
  end.
Proof.
  unfold expandTaskWithGemini. run.
  destruct (generateContent api _ _) as [text|raw]; run.
  - quiet_sleeps.
  - split; [quiet_sleeps | now exists raw].
Qed.

Lemma refineTaskWithGemini_outcome task results prompt w :
  match refineTaskWithGemini api task results prompt w with
  | Returns _ w' | Throws _ w' => sleeps (trace w') = sleeps (trace w)
  | OutOfFuel => False
  end.
Proof.
  unfold refineTaskWithGemini. run.
  destruct (generateContent api _ _) as [text|raw]; run; quiet_sleeps.
Qed.

Lemma research_bound (fuel : nat) :
  forall task prompt rc w,
    match research_from fuel task prompt rc w with
    | Returns _ w' =>
        exists k, (k <= 2 - rc)%nat
          /\ sleeps (trace w')
             = (sleeps (trace w) ++ map delay (seq rc k))%list
    | Throws e w' =>
        sleeps (trace w')
        = (sleeps (trace w) ++ map delay (seq rc (2 - rc)))%list
        /\ exists raw, e = Error (handleGeminiError raw)
    | OutOfFuel => True
    end.
Proof.
  induction fuel as [|f IH]; intros task prompt rc w; [exact I|].
  cbn [expandTaskWithResearch_fuel].
  assert (Handler : forall (error : js_error) x,
    sleeps (trace x) = sleeps (trace w) ->
    match
      (log "error" ("Error in research: " ++ tpl (err_message error));;
       if (rc <? 2)%nat then
         let waitTime := (Z.of_nat rc + 1) * 5000 in
         log "info" ("Waiting " ++ of_Z (waitTime / 1000)
                     ++ " seconds before retry " ++ of_nat (rc + 1) ++ "/2...");;
         sleep waitTime;;
         research_from f task prompt (rc + 1)%nat
       else
         log "info" "Falling back to expansion without research...";;
         expandTaskWithGemini api task prompt false) x
    with
    | Returns _ w' =>
        exists k, (k <= 2 - rc)%nat
          /\ sleeps (trace w')
             = (sleeps (trace w) ++ map delay (seq rc k))%list
    | Throws e w' =>
        sleeps (trace w')
        = (sleeps (trace w) ++ map delay (seq rc (2 - rc)))%list
        /\ exists raw, e = Error (handleGeminiError raw)
    | OutOfFuel => True
    end).
  { intros error x Hx. unfold bind at 1, log at 1, emit at 1.
    destruct (Nat.ltb_spec rc 2) as [Hlt|Hge].
    - cbv zeta.
      unfold bind at 1, log at 1, emit at 1, bind at 1, sleep at 1, emit at 1.
      match goal with
      | |- context [expandTaskWithResearch_fuel _ _ f ?a ?b ?c ?y] =>
          pose proof (IH a b c y) as T;
          destruct (research_from f a b c y) as [t w'|e w'|]
      end; [| |exact I].
      + destruct T as (k & Hk & Hs). exists (S k). split; [lia|].
        rewrite Hs. quiet_sleeps. rewrite Hx. cbn [seq map].
        rewrite <- app_assoc. cbn [app]. now rewrite Nat.add_1_r.
      + destruct T as [Hs Hraw]. split; [|exact Hraw].
        rewrite Hs. quiet_sleeps. rewrite Hx.
        replace (2 - rc)%nat with (S (2 - (rc + 1))) by lia. cbn [seq map].
        rewrite <- app_assoc. cbn [app]. now rewrite Nat.add_1_r.
    - unfold bind at 1, log at 1, emit at 1.
      match goal with
      | |- context [expandTaskWithGemini api ?a ?b ?c ?y] =>
          pose proof (expandTaskWithGemini_outcome a b c y) as T;
          destruct (expandTaskWithGemini api a b c y) as [t w'|e w'|]
      end; [| |contradiction].
      + exists 0%nat. split; [lia|]. cbn [seq map]. rewrite T. quiet_sleeps.
      + destruct T as [Hs Hraw]. split; [|exact Hraw].
        replace (2 - rc)%nat with 0%nat by lia. cbn [seq map].
        rewrite Hs. quiet_sleeps. }
  unfold try_catch at 1, bind at 1.
  pose proof (getPerplexityClient_trace w) as G.
  destruct (getPerplexityClient w) as [client w1|e w1|]; [| |contradiction].
  - cbv zeta. unfold bind at 1, log at 1, emit at 1, bind at 1, perform.
    unfold emit at 1.
    match goal with
    | |- context [chat_completions_create api ?i ?q] =>
        destruct (chat_completions_create api i q) as [results|error]
    end.
    + match goal with
      | |- context [refineTaskWithGemini api ?a ?b ?c ?x] =>
          pose proof (refineTaskWithGemini_outcome a b c x) as T;
          destruct (refineTaskWithGemini api a b c x) as [t w'|e w'|]
      end; [| |contradiction].
      * exists 0%nat. split; [lia|]. cbn [seq map]. rewrite T. quiet_sleeps.
        now rewrite G.
      * apply Handler. rewrite T. quiet_sleeps. now rewrite G.
    + apply Handler. quiet_sleeps. now rewrite G.
  - apply Handler. now rewrite G.
Qed.

(** X12. [expandTaskWithResearch] always comes to an end.  It waits only
    between research attempts: 5000 ms after the first failure and 10000
    ms after the second, so at most three attempts.  It throws only after
    both waits, when the fallback without research has failed too, and
    what it throws then is a message worded by [handleGeminiError]. *)
Theorem expandTaskWithResearch_bound
    (task : taskData) (prompt : string) (w : world) :
  match expandTaskWithResearch api CONFIG task prompt 0 w with
  | Returns _ w' =>
      exists delays,
        sleeps (trace w') = (sleeps (trace w) ++ delays)%list
        /\ (delays = [] \/ delays = [5000] \/ delays = [5000; 10000])
  | Throws e w' =>
      sleeps (trace w') = (sleeps (trace w) ++ [5000; 10000])%list
      /\ exists raw, e = Error (handleGeminiError raw)
  | OutOfFuel => False
  end.
Proof.
  pose proof (expandTaskWithResearch_total api CONFIG task prompt 0 w) as Tot.
  pose proof (research_bound 3 task prompt 0 w) as B.
  change (research_from 3 task prompt 0 w)
    with (expandTaskWithResearch api CONFIG task prompt 0 w) in B.
  destruct (expandTaskWithResearch api CONFIG task prompt 0 w)
    as [t w'|e w'|]; [| exact B | congruence].
  destruct B as (k & Hk & Hs). eexists. split; [exact Hs|].
  destruct k as [|[|[|k]]]; try lia; cbn; auto.
Qed.

(** X11. Research is optional.  With the flag, [gatherResearch] hands
    back what [expandTaskWithResearch] resolved to, and the empty string
    when that threw, after a warning that carries the error's message;
    without the flag it hands back the empty string and does nothing at
    all.  It never fails, whatever the providers do, and it waits no more
    than the two delays of [expandTaskWithResearch]. *)
Theorem gatherResearch_never_fails
    (useResearch : bool) (purpose : string) (task : taskData)
    (prompt : string) (w : world) :
  gatherResearch api CONFIG false purpose task prompt w = Returns "" w
  /\ match
       expandTaskWithResearch api CONFIG task prompt 0
         (after w [Log "info" ("Gathering research to inform " ++ purpose
                               ++ "...")])
     with
     | Returns insights w1 =>
         gatherResearch api CONFIG true purpose task prompt w
         = Returns insights
             (after w1 [Log "info" "Research completed successfully"])
     | Throws error w1 =>
         gatherResearch api CONFIG true purpose task prompt w
         = Returns ""
             (after w1 [Log "warn" ("Research failed, continuing without it: "
                                    ++ tpl (err_message error))])
     | OutOfFuel => False
     end
  /\ match gatherResearch api CONFIG useResearch purpose task prompt w with
     | Returns _ w1 =>
         exists delays,
           sleeps (trace w1) = (sleeps (trace w) ++ delays)%list
           /\ (delays = [] \/ delays = [5000] \/ delays = [5000; 10000])
     | Throws _ _ | OutOfFuel => False
     end.
Proof.
  split; [reflexivity|]. split.
  - pose proof (expandTaskWithResearch_total api CONFIG task prompt 0
                  (after w [Log "info" ("Gathering research to inform "
                                        ++ purpose ++ "...")])) as Tot.
    assert (E :
      gatherResearch api CONFIG true purpose task prompt w
      = match
          expandTaskWithResearch api CONFIG task prompt 0
            (after w [Log "info" ("Gathering research to inform " ++ purpose
                                  ++ "...")])
        with
        | Returns insights w1 =>
            Returns insights
              (after w1 [Log "info" "Research completed successfully"])
        | Throws error w1 =>
            Returns ""
              (after w1 [Log "warn" ("Research failed, continuing without it: "
                                     ++ tpl (err_message error))])
        | OutOfFuel => OutOfFuel
        end).
    { unfold gatherResearch, try_catch, bind, log, emit, ret.
      cbv beta iota.
      destruct (expandTaskWithResearch api CONFIG task prompt 0 _);
        reflexivity. }
    rewrite E.
    destruct (expandTaskWithResearch api CONFIG task prompt 0 _);
      [reflexivity | reflexivity | congruence].
  - unfold gatherResearch. destruct useResearch.
    + unfold try_catch at 1, bind at 1, log at 1, emit at 1, bind at 1.
      match goal with
      | |- context [expandTaskWithResearch api CONFIG ?a ?b ?c ?x] =>
          pose proof (expandTaskWithResearch_total api CONFIG a b c x) as Tot;
          pose proof (research_bound 3 a b c x) as B;
          change (research_from 3 a b c x)
            with (expandTaskWithResearch api CONFIG a b c x) in B;
          destruct (expandTaskWithResearch api CONFIG a b c x) as [t w'|e w'|]
      end; [| |congruence]; run.
      * destruct B as (k & Hk & Hs). exists (map delay (seq 0 k)). split.
        -- quiet_sleeps. rewrite Hs. quiet_sleeps.
        -- destruct k as [|[|[|k]]]; try lia; cbn; auto.
      * destruct B as [Hs _]. exists [5000; 10000]. split; [|auto].
        quiet_sleeps. rewrite Hs. quiet_sleeps.
    + run. exists []. rewrite app_nil_r. auto.
Qed.

End ResearchBound.


(* ------------------------------------------------------------------ *)
(** ** Task to subtasks: what comes back, and how it fails *)

Section SubtasksOutcome.

Import JsString.

Variable JSON_parse : string -> parse_result.
Variable api : backend.
Variable CONFIG : config.

Local Abbreviation extract_array := (Regex.extract Regex.array_body).
Local Abbreviation fix_subtasks := (fixSubtasksJson JSON_parse api).

Ltac quiet_calls :=
  unfold after; cbn [trace]; rewrite ?calls_app; cbn [calls flat_map app];
  rewrite ?app_nil_r; auto.

Lemma fixSubtasksJson_returns problematicJson parent numSubtasks w v w' :
  fix_subtasks problematicJson parent numSubtasks w = Returns v w' ->
  exists fixed items,
    generateContent api (List.length (calls (trace w)))
      (FixSubtasks problematicJson parent numSubtasks) = Answer fixed
    /\ JSON_parse (extract_array fixed) = Parsed (JArr items)
    /\ v = JArr (renumber parent items).
Proof.
  unfold fixSubtasksJson.
  unfold bind at 1, log at 1, emit at 1, try_catch at 1, bind at 1, perform.
  replace (List.length (calls (trace (after w
             [Log "info" "Attempting to fix malformed subtasks JSON..."]))))
    with (List.length (calls (trace w))) by (f_equal; quiet_calls).
  destruct (generateContent api _ _) as [response|raw] eqn:HG.
  - unfold emit at 1, try_catch at 1. cbv zeta.
    destruct (JSON_parse (extract_array response)) as [parsed|m] eqn:HP.
    + destruct parsed; run; try discriminate.
      intros H; inversion H; subst. eauto.
    + run. discriminate.
  - run. discriminate.
Qed.

(** A repair that does not give an array fails with a fixed message, worded
    once by [handleGeminiError]. *)
Lemma fixSubtasksJson_fails problematicJson parent numSubtasks w fixed :
  generateContent api (List.length (calls (trace w)))
    (FixSubtasks problematicJson parent numSubtasks) = Answer fixed ->
  not_an_array JSON_parse (extract_array fixed) ->
  exists w',
    fix_subtasks problematicJson parent numSubtasks w
    = Throws
        (Error "Error communicating with Gemini: Failed to fix subtasks JSON after retry")
        w'
    /\ calls (trace w')
       = (calls (trace w)
          ++ [FixSubtasks problematicJson parent numSubtasks])%list.
Proof.
  intros HG HN. unfold fixSubtasksJson.
  unfold bind at 1, log at 1, emit at 1, try_catch at 1, bind at 1, perform.
  replace (List.length (calls (trace (after w
             [Log "info" "Attempting to fix malformed subtasks JSON..."]))))
    with (List.length (calls (trace w))) by (f_equal; quiet_calls).
  rewrite HG. unfold emit at 1, try_catch at 1. cbv zeta.
  destruct HN as [[m Hm]|[parsed [Hp Hnot]]].
  - rewrite Hm. run. eexists. split; [reflexivity|]. quiet_calls.
  - rewrite Hp.
    destruct parsed; try (exfalso; eapply Hnot; reflexivity);
      run; (eexists; split; [reflexivity|]); quiet_calls.
Qed.

(** X13. Whatever [createSubtasksWithGemini] resolves to is the array
    that the model gave, renumbered: the array parsed from the answer to
    the subtask request or, when that answer gave no array, the array
    parsed from the answer to the one repair request.  It has the length
    of that array, and its element at [i] is an object with the id
    ["<id>.<i+1>"] of the parent task. *)
Theorem createSubtasksWithGemini_returns_renumbered
    (task : taskData) (numSubtasks : Z) (prompt : string) (useResearch : bool)
    (w : world) (v : json) (w' : world) :
  createSubtasksWithGemini JSON_parse api CONFIG task numSubtasks prompt
    useResearch w = Returns v w' ->
  exists insights w1 response items,
    gatherResearch api CONFIG useResearch "subtask creation" task prompt
      (after w [Log "info" ("Creating " ++ of_Z numSubtasks
                            ++ " subtasks for task " ++ show_id (td_id task)
                            ++ ": " ++ DQ ++ td_title task ++ DQ ++ "...")])
    = Returns insights w1
    /\ generateContent api (List.length (calls (trace w1)))
         (Subtasks task numSubtasks prompt insights) = Answer response
    /\ (JSON_parse (extract_array response) = Parsed (JArr items)
        \/ (not_an_array JSON_parse (extract_array response)
            /\ exists fixed,
                 generateContent api (S (List.length (calls (trace w1))))
                   (FixSubtasks response (td_id task) numSubtasks)
                 = Answer fixed
                 /\ JSON_parse (extract_array fixed) = Parsed (JArr items)))
    /\ v = JArr (renumber (td_id task) items)
    /\ List.length (renumber (td_id task) items) = List.length items
    /\ forall i, (i < List.length items)%nat ->
         exists fs,
           nth i (renumber (td_id task) items) JNull = JObj fs
           /\ Obj.get "id" fs
              = Some (JStr (show_id (td_id task) ++ "." ++ of_nat (i + 1))).
Proof.
  unfold createSubtasksWithGemini.
  unfold bind at 1, log at 1, emit at 1, bind at 1.
  destruct (gatherResearch api CONFIG useResearch _ task prompt _)
    as [insights w1|e w1|] eqn:HR; [| discriminate | discriminate].
  unfold try_catch at 1, bind at 1, perform.
  destruct (generateContent api _ _) as [response|raw] eqn:HG;
    [|run; discriminate].
  unfold emit at 1, try_catch at 1. cbv zeta.
  assert (Done : forall items,
            (JSON_parse (extract_array response) = Parsed (JArr items)
             \/ (not_an_array JSON_parse (extract_array response)
                 /\ exists fixed,
                      generateContent api (S (List.length (calls (trace w1))))
                        (FixSubtasks response (td_id task) numSubtasks)
                      = Answer fixed
                      /\ JSON_parse (extract_array fixed)
                         = Parsed (JArr items))) ->
            exists insights0 w0 response0 items0,
              Returns insights w1 = Returns insights0 w0
              /\ generateContent api (List.length (calls (trace w0)))
                   (Subtasks task numSubtasks prompt insights0)
                 = Answer response0
              /\ (JSON_parse (extract_array response0) = Parsed (JArr items0)
                  \/ (not_an_array JSON_parse (extract_array response0)
                      /\ exists fixed,
                           generateContent api
                             (S (List.length (calls (trace w0))))
                             (FixSubtasks response0 (td_id task) numSubtasks)
                           = Answer fixed
                           /\ JSON_parse (extract_array fixed)
                              = Parsed (JArr items0)))
              /\ JArr (renumber (td_id task) items)
                 = JArr (renumber (td_id task) items0)
              /\ List.length (renumber (td_id task) items0)
                 = List.length items0
              /\ forall i, (i < List.length items0)%nat ->
                   exists fs,
                     nth i (renumber (td_id task) items0) JNull = JObj fs
                     /\ Obj.get "id" fs
                        = Some (JStr (show_id (td_id task) ++ "."
                                      ++ of_nat (i + 1)))).
  { intros items From. exists insights, w1, response, items.
    destruct (renumber_ids (td_id task) items) as [L N]. auto 6. }
  assert (Repaired : forall message,
    not_an_array JSON_parse (extract_array response) ->
    match
      (log "error" message;;
       fix_subtasks response (td_id task) numSubtasks)
        (after w1 [Call (Subtasks task numSubtasks prompt insights)])
    with
    | Throws e w2 =>
        (let userMessage := handleGeminiError e in
         log "error" userMessage;; throw (Error userMessage)) w2
    | r => r
    end = Returns v w' ->
    exists items,
      v = JArr (renumber (td_id task) items)
      /\ not_an_array JSON_parse (extract_array response)
      /\ exists fixed,
           generateContent api (S (List.length (calls (trace w1))))
             (FixSubtasks response (td_id task) numSubtasks) = Answer fixed
           /\ JSON_parse (extract_array fixed) = Parsed (JArr items)).
  { intros message N. unfold bind at 1, log at 1, emit at 1.
    match goal with
    | |- context [fixSubtasksJson JSON_parse api ?a ?b ?c ?y] =>
        pose proof (fixSubtasksJson_returns a b c y) as T;
        replace (List.length (calls (trace y)))
          with (S (List.length (calls (trace w1)))) in T
          by (unfold after; cbn [trace]; rewrite !calls_app, !length_app;
              cbn; lia);
        destruct (fix_subtasks a b c y) as [v0 w2|e2 w2|]
    end; [| run; discriminate | discriminate].
    intros H; inversion H; subst.
    destruct (T _ _ eq_refl) as (fixed & items & F & P & ->).
    exists items. eauto. }
  assert (Again : forall message,
    not_an_array JSON_parse (extract_array response) ->
    match
      (log "error" message;;
       fix_subtasks response (td_id task) numSubtasks)
        (after w1 [Call (Subtasks task numSubtasks prompt insights)])
    with
    | Throws e w2 =>
        (let userMessage := handleGeminiError e in
         log "error" userMessage;; throw (Error userMessage)) w2
    | r => r
    end = Returns v w' ->
    exists insights0 w0 response0 items0,
      Returns insights w1 = Returns insights0 w0
      /\ generateContent api (List.length (calls (trace w0)))
           (Subtasks task numSubtasks prompt insights0) = Answer response0
      /\ (JSON_parse (extract_array response0) = Parsed (JArr items0)
          \/ (not_an_array JSON_parse (extract_array response0)
              /\ exists fixed,
                   generateContent api (S (List.length (calls (trace w0))))
                     (FixSubtasks response0 (td_id task) numSubtasks)
                   = Answer fixed
                   /\ JSON_parse (extract_array fixed) = Parsed (JArr items0)))
      /\ v = JArr (renumber (td_id task) items0)
      /\ List.length (renumber (td_id task) items0) = List.length items0
      /\ forall i, (i < List.length items0)%nat ->
           exists fs,
             nth i (renumber (td_id task) items0) JNull = JObj fs
             /\ Obj.get "id" fs
                = Some (JStr (show_id (td_id task) ++ "." ++ of_nat (i + 1)))).
  { intros message N H.
    destruct (Repaired message N H) as (items & -> & N' & Fx).
    apply Done. right. auto. }
  destruct (JSON_parse (extract_array response)) as [parsed|m] eqn:HP.
  - destruct parsed as [|b|z|lit|s|items|fs].
    6:{ destruct (Z.of_nat (List.length items) =? numSubtasks); cbn [negb];
          run; intros H; inversion H; subst; apply Done; now left. }
    all: unfold throw at 1; apply Again; right; eexists; split;
      [exact HP | intros xs; discriminate].
  - unfold throw at 1. apply Again. left. now exists m.
Qed.

Lemma reworded_repair_failure :
  handleGeminiError
    (Error "Error communicating with Gemini: Failed to fix subtasks JSON after retry")
  = "Error communicating with Gemini: Error communicating with Gemini: Failed to fix subtasks JSON after retry".
Proof. vm_compute. reflexivity. Qed.

(** X14. When neither the answer to the subtask request nor the answer to
    the repair request gives an array, [createSubtasksWithGemini] fails
    after these two requests: there is no second repair and no fallback.
    The message it throws went through [handleGeminiError] twice, once in
    [fixSubtasksJson] and once in its own [catch]. *)
Theorem createSubtasksWithGemini_repair_failure
    (task : taskData) (numSubtasks : Z) (prompt : string) (useResearch : bool)
    (w w1 : world) (insights response fixed : string) :
  gatherResearch api CONFIG useResearch "subtask creation" task prompt
    (after w [Log "info" ("Creating " ++ of_Z numSubtasks
                          ++ " subtasks for task " ++ show_id (td_id task)
                          ++ ": " ++ DQ ++ td_title task ++ DQ ++ "...")])
  = Returns insights w1 ->
  generateContent api (List.length (calls (trace w1)))
    (Subtasks task numSubtasks prompt insights) = Answer response ->
  not_an_array JSON_parse (extract_array response) ->
  generateContent api (S (List.length (calls (trace w1))))
    (FixSubtasks response (td_id task) numSubtasks) = Answer fixed ->
  not_an_array JSON_parse (extract_array fixed) ->
  exists w',
    createSubtasksWithGemini JSON_parse api CONFIG task numSubtasks prompt
      useResearch w
    = Throws
        (Error "Error communicating with Gemini: Error communicating with Gemini: Failed to fix subtasks JSON after retry")
        w'
    /\ calls (trace w')
       = (calls (trace w1)
          ++ [ Subtasks task numSubtasks prompt insights;
               FixSubtasks response (td_id task) numSubtasks ])%list.
Proof.
  intros HR HG HN HF HN'. unfold createSubtasksWithGemini.
  unfold bind at 1, log at 1, emit at 1, bind at 1. rewrite HR.
  unfold try_catch at 1, bind at 1, perform. rewrite HG.
  unfold emit at 1, try_catch at 1. cbv zeta.
  assert (Fix : forall message,
    exists w',
      (log "error" message;; fix_subtasks response (td_id task) numSubtasks)
        (after w1 [Call (Subtasks task numSubtasks prompt insights)])
      = Throws
          (Error "Error communicating with Gemini: Failed to fix subtasks JSON after retry")
          w'
      /\ calls (trace w')
         = (calls (trace w1)
            ++ [ Subtasks task numSubtasks prompt insights;
                 FixSubtasks response (td_id task) numSubtasks ])%list).
  { intros message. unfold bind at 1, log at 1, emit at 1.
    destruct (fixSubtasksJson_fails response (td_id task) numSubtasks
                (after (after w1 [Call (Subtasks task numSubtasks prompt insights)])
                   [Log "error" message]) fixed) as (w' & E & C); [|exact HN'|].
    - replace (List.length (calls (trace (after (after w1
                 [Call (Subtasks task numSubtasks prompt insights)])
                 [Log "error" message]))))
        with (S (List.length (calls (trace w1)))); [exact HF|].
      unfold after; cbn [trace]. rewrite !calls_app, !length_app. cbn. lia.
    - exists w'. split; [exact E|]. rewrite C. quiet_calls.
      now rewrite <- app_assoc. }
  assert (Outer : forall message,
    exists w',
      match
        (log "error" message;; fix_subtasks response (td_id task) numSubtasks)
          (after w1 [Call (Subtasks task numSubtasks prompt insights)])
      with
      | Throws e w2 =>
          (let userMessage := handleGeminiError e in
           log "error" userMessage;; throw (Error userMessage)) w2
      | r => r
      end
      = Throws
          (Error "Error communicating with Gemini: Error communicating with Gemini: Failed to fix subtasks JSON after retry")
          w'
      /\ calls (trace w')
         = (calls (trace w1)
            ++ [ Subtasks task numSubtasks prompt insights;
                 FixSubtasks response (td_id task) numSubtasks ])%list).
  { intros message. destruct (Fix message) as (w2 & -> & C).
    cbv zeta. rewrite reworded_repair_failure. run.
    eexists. split; [reflexivity|]. quiet_calls. }
  destruct HN as [[m Hm]|[parsed [Hp Hnot]]].
  - rewrite Hm. unfold throw at 1. apply Outer.
  - rewrite Hp.
    destruct parsed; try (exfalso; eapply Hnot; reflexivity);
      unfold throw at 1; apply Outer.
Qed.

End SubtasksOutcome.

(* ------------------------------------------------------------------ *)
(** ** Worked runs of the PRD and subtask paths *)

Lemma callGemini_returns_tasks_witness :
  callGemini Json.parse Sample.null_message (Sample.always Sample.tasks_only)
    Sample.quiet "PRD" "prd.txt" 0 0 Sample.fresh
  = Returns (JObj [("tasks", JArr [])])
      (after Sample.fresh
         [ Log "info" "Calling Gemini...";
           Call (GenerateTasks "PRD" "prd.txt" 0);
           Log "info" "Completed streaming response from Gemini API!" ])
  /\ exists tasks, tasks_array (JObj [("tasks", JArr [])]) = Some tasks.
Proof.
  split; [vm_compute; reflexivity|].
  apply (callGemini_returns_tasks Json.parse Sample.null_message
           (Sample.always Sample.tasks_only) Sample.quiet "PRD" "prd.txt" 0 0
           Sample.fresh (JObj [("tasks", JArr [])])
           (after Sample.fresh
              [ Log "info" "Calling Gemini...";
                Call (GenerateTasks "PRD" "prd.txt" 0);
                Log "info" "Completed streaming response from Gemini API!" ])).
  vm_compute. reflexivity.
Defined.

Lemma callGemini_first_attempt_succeeds_witness :
  (generateContentStream (Sample.always Sample.tasks_only) 0
     (GenerateTasks "PRD" "prd.txt" 3) = Answer [Sample.tasks_only]
   /\ JsString.indexOf "{" (String.concat "" [Sample.tasks_only]) = Some 0%nat
   /\ JsString.lastIndexOf "}" (String.concat "" [Sample.tasks_only])
      = Some 11%nat
   /\ Json.parse (JsString.substring 0 (11 + 1)
                    (String.concat "" [Sample.tasks_only]))
      = Parsed (JObj [("tasks", JArr [])])
   /\ tasks_array (JObj [("tasks", JArr [])]) = Some [])
  /\ callGemini Json.parse Sample.null_message (Sample.always Sample.tasks_only)
       Sample.quiet "PRD" "prd.txt" 3 0 Sample.fresh
     = Returns (JObj [("tasks", JArr [])])
         (after Sample.fresh
            [ Log "info" "Calling Gemini...";
              Call (GenerateTasks "PRD" "prd.txt" 3);
              Log "info" "Completed streaming response from Gemini API!";
              Log "warn" "Expected 3 tasks, but got 0" ]).
Proof.
  split.
  - repeat split; vm_compute; reflexivity.
  - apply (callGemini_first_attempt_succeeds Json.parse Sample.null_message
             (Sample.always Sample.tasks_only) Sample.quiet "PRD" "prd.txt" 3 0
             Sample.fresh [Sample.tasks_only] 0 11 (JObj [("tasks", JArr [])])
             [] eq_refl eq_refl eq_refl eq_refl eq_refl).
Defined.

Lemma callGemini_exhausts_retries_witness :
  (forall i, exists raw,
      generateContentStream Sample.rate_limit_api i
        (GenerateTasks "PRD" "prd.txt" 3) = Failure raw
      /\ retryable (Error (handleGeminiError raw)) = true)
  /\ exists raw w',
       callGemini Json.parse Sample.null_message Sample.rate_limit_api
         Sample.quiet "PRD" "prd.txt" 3 0 Sample.fresh
       = Throws (Error (handleGeminiError (Error (handleGeminiError raw)))) w'
       /\ calls (trace w')
          = (calls (trace Sample.fresh)
             ++ [ GenerateTasks "PRD" "prd.txt" 3;
                  GenerateTasks "PRD" "prd.txt" 3;
                  GenerateTasks "PRD" "prd.txt" 3 ])%list
       /\ sleeps (trace w')
          = (sleeps (trace Sample.fresh) ++ [5000; 10000])%list.
Proof.
  assert (H : forall i, exists raw,
             generateContentStream Sample.rate_limit_api i
               (GenerateTasks "PRD" "prd.txt" 3) = Failure raw
             /\ retryable (Error (handleGeminiError raw)) = true).
  { intros i. exists (Error "Rate limit hit"). split; reflexivity. }
  split; [exact H|].
  exact (callGemini_exhausts_retries Json.parse Sample.null_message
           Sample.rate_limit_api Sample.quiet "PRD" "prd.txt" 3 Sample.fresh H).
Defined.

Lemma callGemini_fails_at_once_witness :
  (generateContentStream Sample.timeout_api 0 (GenerateTasks "PRD" "prd.txt" 3)
   = Failure (Error "Request timeout")
   /\ retryable (Error (handleGeminiError (Error "Request timeout"))) = false)
  /\ exists w',
       callGemini Json.parse Sample.null_message Sample.timeout_api
         Sample.quiet "PRD" "prd.txt" 3 0 Sample.fresh
       = Throws
           (Error (handleGeminiError
                     (Error (handleGeminiError (Error "Request timeout")))))
           w'
       /\ calls (trace w')
          = (calls (trace Sample.fresh)
             ++ [GenerateTasks "PRD" "prd.txt" 3])%list
       /\ sleeps (trace w') = sleeps (trace Sample.fresh).
Proof.
  split.
  - split; reflexivity.
  - exact (callGemini_fails_at_once Json.parse Sample.null_message
             Sample.timeout_api Sample.quiet "PRD" "prd.txt" 3 0 Sample.fresh
             (Error "Request timeout") eq_refl eq_refl).
Defined.

Lemma callGemini_retries_after_failed_repair_witness :
  (generateContentStream Sample.repair_times_out 0
     (GenerateTasks "PRD" "prd.txt" 3) = Answer ["Sorry, no tasks today."]
   /\ JsString.indexOf "{" (String.concat "" ["Sorry, no tasks today."]) = None
   /\ generateContent Sample.repair_times_out 1
        (FixTasks (String.concat "" ["Sorry, no tasks today."]) 3 "prd.txt")
      = Failure (Error "Request timeout")
   /\ err_message (Error "Request timeout") = Some "Request timeout"
   /\ retryable (Error "Request timeout") = true)
  /\ exists w1,
       callGemini Json.parse Sample.null_message Sample.repair_times_out
         Sample.quiet "PRD" "prd.txt" 3 0 Sample.fresh
       = callGemini Json.parse Sample.null_message Sample.repair_times_out
           Sample.quiet "PRD" "prd.txt" 3 1 w1
       /\ calls (trace w1)
          = (calls (trace Sample.fresh)
             ++ [ GenerateTasks "PRD" "prd.txt" 3;
                  FixTasks (String.concat "" ["Sorry, no tasks today."]) 3
                    "prd.txt" ])%list
       /\ sleeps (trace w1) = (sleeps (trace Sample.fresh) ++ [5000])%list.
Proof.
  split.
  - repeat split; reflexivity.
  - exact (callGemini_retries_after_failed_repair Json.parse
             Sample.null_message Sample.repair_times_out Sample.quiet
             "PRD" "prd.txt" 3 Sample.fresh ["Sorry, no tasks today."]
             (Error "Request timeout") "Request timeout"
             eq_refl eq_refl eq_refl eq_refl eq_refl).
Defined.

Lemma createSubtasksWithGemini_returns_renumbered_witness :
  createSubtasksWithGemini Json.parse Sample.one_subtask_on_repair Sample.quiet
    Sample.task 3 "" false Sample.fresh
  = Returns (JArr [JObj [("id", JStr "7.1")]])
      (after Sample.fresh
         [ Log "info" ("Creating 3 subtasks for task 7: " ++ JsString.DQ
                       ++ "Login" ++ JsString.DQ ++ "...");
           Call (Subtasks Sample.task 3 "" "");
           Log "error" "Error parsing subtasks JSON: Unexpected token in JSON";
           Log "info" "Attempting to fix malformed subtasks JSON...";
           Call (FixSubtasks "Sorry, here is some prose." (IdNum 7) 3) ])
  /\ exists insights w1 response items,
       gatherResearch Sample.one_subtask_on_repair Sample.quiet false
         "subtask creation" Sample.task ""
         (after Sample.fresh
            [Log "info" ("Creating " ++ JsString.of_Z 3
                         ++ " subtasks for task "
                         ++ show_id (td_id Sample.task) ++ ": "
                         ++ JsString.DQ ++ td_title Sample.task
                         ++ JsString.DQ ++ "...")])
       = Returns insights w1
       /\ generateContent Sample.one_subtask_on_repair
            (List.length (calls (trace w1)))
            (Subtasks Sample.task 3 "" insights) = Answer response
       /\ (Json.parse (Regex.extract Regex.array_body response)
           = Parsed (JArr items)
           \/ (not_an_array Json.parse
                 (Regex.extract Regex.array_body response)
               /\ exists fixed,
                    generateContent Sample.one_subtask_on_repair
                      (S (List.length (calls (trace w1))))
                      (FixSubtasks response (td_id Sample.task) 3)
                    = Answer fixed
                    /\ Json.parse (Regex.extract Regex.array_body fixed)
                       = Parsed (JArr items)))
       /\ JArr [JObj [("id", JStr "7.1")]]
          = JArr (renumber (td_id Sample.task) items)
       /\ List.length (renumber (td_id Sample.task) items)
          = List.length items
       /\ forall i, (i < List.length items)%nat ->
            exists fs,
              nth i (renumber (td_id Sample.task) items) JNull = JObj fs
              /\ Obj.get "id" fs
                 = Some (JStr (show_id (td_id Sample.task) ++ "."
                               ++ JsString.of_nat (i + 1))).
Proof.
  split; [vm_compute; reflexivity|].
  apply (createSubtasksWithGemini_returns_renumbered Json.parse
           Sample.one_subtask_on_repair Sample.quiet Sample.task 3 "" false
           Sample.fresh (JArr [JObj [("id", JStr "7.1")]])
           (after Sample.fresh
              [ Log "info" ("Creating 3 subtasks for task 7: " ++ JsString.DQ
                            ++ "Login" ++ JsString.DQ ++ "...");
                Call (Subtasks Sample.task 3 "" "");
                Log "error" "Error parsing subtasks JSON: Unexpected token in JSON";
                Log "info" "Attempting to fix malformed subtasks JSON...";
                Call (FixSubtasks "Sorry, here is some prose." (IdNum 7) 3) ])).
  vm_compute. reflexivity.
Defined.

Lemma createSubtasksWithGemini_repair_failure_witness :
  (gatherResearch (Sample.always "Sorry, here is some prose.") Sample.quiet
     false "subtask creation" Sample.task ""
     (after Sample.fresh
        [Log "info" ("Creating 3 subtasks for task 7: " ++ JsString.DQ
                     ++ "Login" ++ JsString.DQ ++ "...")])
   = Returns ""
       (after Sample.fresh
          [Log "info" ("Creating 3 subtasks for task 7: " ++ JsString.DQ
                       ++ "Login" ++ JsString.DQ ++ "...")])
   /\ not_an_array Json.parse
        (Regex.extract Regex.array_body "Sorry, here is some prose."))
  /\ exists w',
       createSubtasksWithGemini Json.parse
         (Sample.always "Sorry, here is some prose.") Sample.quiet
         Sample.task 3 "" false Sample.fresh
       = Throws
           (Error "Error communicating with Gemini: Error communicating with Gemini: Failed to fix subtasks JSON after retry")
           w'
       /\ calls (trace w')
          = (calls (trace (after Sample.fresh
                             [Log "info" ("Creating 3 subtasks for task 7: "
                                          ++ JsString.DQ ++ "Login"
                                          ++ JsString.DQ ++ "...")]))
             ++ [ Subtasks Sample.task 3 "" "";
                  FixSubtasks "Sorry, here is some prose." (IdNum 7) 3 ])%list.
Proof.
  assert (N : not_an_array Json.parse
                (Regex.extract Regex.array_body "Sorry, here is some prose.")).
  { left. exists "Unexpected token in JSON". vm_compute. reflexivity. }
  split.
  - split; [vm_compute; reflexivity | exact N].
  - exact (createSubtasksWithGemini_repair_failure Json.parse
             (Sample.always "Sorry, here is some prose.") Sample.quiet
             Sample.task 3 "" false Sample.fresh
             (after Sample.fresh
                [Log "info" ("Creating 3 subtasks for task 7: " ++ JsString.DQ
                             ++ "Login" ++ JsString.DQ ++ "...")])
             "" "Sorry, here is some prose." "Sorry, here is some prose."
             eq_refl eq_refl N eq_refl N).
Defined.
